(** * ODrive motor control core (Firmware/MotorControl/motor.cpp)

    A shallow embedding of [Motor]'s operations with explicit state passing.
    C++ [float] is IEEE-754 binary32; it is modelled with the Standard
    Library's executable specification of floating-point arithmetic
    ([SpecFloat]) instantiated at 24 bits of precision, every operator
    rounding to nearest-even. *)

From Stdlib Require Import ZArith Bool List Lia QArith Qround.
From Stdlib Require Import Floats.SpecFloat.
Import ListNotations.

Local Open Scope Z_scope.

(** ** binary32 arithmetic *)

Module F32.

Definition prec : Z := 24.
Definition emax : Z := 128.

Definition float32 : Type := spec_float.

(** Well-formed binary32 datum: canonical mantissa, exponent in range. *)
Definition valid (x : float32) : bool := valid_binary prec emax x.

Definition add : float32 -> float32 -> float32 := SFadd prec emax.
Definition sub : float32 -> float32 -> float32 := SFsub prec emax.
Definition mul : float32 -> float32 -> float32 := SFmul prec emax.
Definition div : float32 -> float32 -> float32 := SFdiv prec emax.
Definition sqrt : float32 -> float32 := SFsqrt prec emax.
Definition neg : float32 -> float32 := SFopp.
Definition abs : float32 -> float32 := SFabs.

(** The C++ comparisons [<], [>], [<=], [>=]: false when unordered. *)
Definition ltb (x y : float32) : bool := SFltb x y.
Definition gtb (x y : float32) : bool := SFltb y x.
Definition leb (x y : float32) : bool := SFleb x y.
Definition geb (x y : float32) : bool := SFleb y x.

(** [(float)n] for an integer [n]. *)
Definition of_Z (n : Z) : float32 := binary_normalize prec emax n 0 false.

(** The binary32 nearest to the fraction [n/d]: what a decimal literal
    such as [0.99f] denotes. *)
Definition lit (n d : positive) : float32 :=
  SFdiv prec emax (S754_finite false n 0) (S754_finite false d 0).

Definition zero : float32 := S754_zero false.
Definition one : float32 := of_Z 1.
Definition nan : float32 := S754_nan.

(** Exact rational value of a finite datum (0 for the others). *)
Definition to_Q (x : float32) : Q :=
  match x with
  | S754_finite s m (Zneg k) =>
      Qmake (if s then Zneg m else Zpos m) (2 ^ k)%positive
  | S754_finite s m e =>
      inject_Z ((if s then Zneg m else Zpos m) * 2 ^ e)
  | _ => 0%Q
  end.

(** Integer part of a finite datum, truncated toward zero. *)
Definition trunc (x : float32) : Z :=
  match x with
  | S754_finite s m e =>
      let a := match e with
               | Zneg k => Zpos m / 2 ^ Zpos k
               | _ => Zpos m * 2 ^ e
               end in
      if s then - a else a
  | _ => 0
  end.

(** [(uint16_t)x]: truncation toward zero.  ISO C++ leaves the conversion
    undefined when the truncated value does not fit; the Cortex-M4 target
    converts with VCVT.U32.F32 (NaN and negatives give 0, large values
    saturate at 2^32-1) and keeps the low half-word. *)
Definition to_uint16 (x : float32) : Z :=
  match x with
  | S754_nan | S754_zero _ | S754_infinity true | S754_finite true _ _ => 0
  | S754_infinity false => 65535
  | S754_finite false _ _ => Z.min (trunc x) (2 ^ 32 - 1) mod 2 ^ 16
  end.

End F32.

Export F32.

Declare Scope f32_scope.
Delimit Scope f32_scope with f32.
Infix "+" := F32.add : f32_scope.
Infix "-" := F32.sub : f32_scope.
Infix "*" := F32.mul : f32_scope.
Infix "/" := F32.div : f32_scope.
Notation "- x" := (F32.neg x) : f32_scope.
Infix "<?" := F32.ltb : f32_scope.
Infix ">?" := F32.gtb : f32_scope.

Local Open Scope f32_scope.

(** ** Helpers of the firmware that motor.cpp uses *)

(** Modelled from the spec: [is_nan], [SQ], [one_by_sqrt3] and [sqrt3_by_2]
    come from the firmware's utility header, which is not part of the sources
    at hand.  [is_nan] is the IEEE NaN test, [SQ(x)] is [x*x], and the two
    constants are the binary32 data nearest to 1/√3 and √3/2. *)
Definition is_nan (x : float32) : bool :=
  match x with S754_nan => true | _ => false end.

Definition SQ (x : float32) : float32 := x * x.

Definition one_by_sqrt3 : float32 := lit 57735026919 100000000000.
Definition sqrt3_by_2 : float32 := lit 86602540378 100000000000.

(** [std::min], [std::max], [std::clamp] and [std::abs] on [float], with the
    comparisons of the C++ standard library. *)
Definition std_min (a b : float32) : float32 := if b <? a then b else a.
Definition std_max (a b : float32) : float32 := if a <? b then b else a.
Definition std_clamp (v lo hi : float32) : float32 :=
  if v <? lo then lo else if hi <? v then hi else v.
Definition std_abs (x : float32) : float32 := F32.abs x.

(** ** Data model *)

(** [MOTOR_TYPE_UNKNOWN] stands for any other value the user-writable enum
    field may hold (the [default:] case of the dispatch in [update]). *)
Inductive MotorType :=
| MOTOR_TYPE_HIGH_CURRENT
| MOTOR_TYPE_GIMBAL
| MOTOR_TYPE_ACIM
| MOTOR_TYPE_UNKNOWN.

Definition MotorType_eqb (a b : MotorType) : bool :=
  match a, b with
  | MOTOR_TYPE_HIGH_CURRENT, MOTOR_TYPE_HIGH_CURRENT
  | MOTOR_TYPE_GIMBAL, MOTOR_TYPE_GIMBAL
  | MOTOR_TYPE_ACIM, MOTOR_TYPE_ACIM
  | MOTOR_TYPE_UNKNOWN, MOTOR_TYPE_UNKNOWN => true
  | _, _ => false
  end.

(** The fault kinds that are OR-ed into the motor's error bitmask. *)
Inductive Error :=
| ERROR_PHASE_RESISTANCE_OUT_OF_RANGE
| ERROR_PHASE_INDUCTANCE_OUT_OF_RANGE
| ERROR_DRV_FAULT
| ERROR_MOTOR_THERMISTOR_OVER_TEMP
| ERROR_FET_THERMISTOR_OVER_TEMP
| ERROR_CONTROL_DEADLINE_MISSED
| ERROR_CURRENT_SENSE_SATURATION
| ERROR_CURRENT_LIMIT_VIOLATION
| ERROR_MODULATION_MAGNITUDE
| ERROR_MODULATION_IS_NAN
| ERROR_NOT_IMPLEMENTED_MOTOR_TYPE.

Inductive TimingLog_t :=
| TIMING_LOG_MEAS_R
| TIMING_LOG_MEAS_L
| TIMING_LOG_FOC_VOLTAGE
| TIMING_LOG_FOC_CURRENT.

Definition TimingLog_eqb (a b : TimingLog_t) : bool :=
  match a, b with
  | TIMING_LOG_MEAS_R, TIMING_LOG_MEAS_R
  | TIMING_LOG_MEAS_L, TIMING_LOG_MEAS_L
  | TIMING_LOG_FOC_VOLTAGE, TIMING_LOG_FOC_VOLTAGE
  | TIMING_LOG_FOC_CURRENT, TIMING_LOG_FOC_CURRENT => true
  | _, _ => false
  end.

(** Modelled from the spec: the PWM gate of the safety state machine lives in
    the low-level layer, outside the sources at hand.  §4.F: any fault moves
    it to DISARMED, the hardware-level arm primitive moves it to ARMED. *)
Inductive ArmedState := DISARMED | ARMED.

(** Calls into collaborators whose own state is not the motor's. *)
Inductive ExternCall :=
| CALL_CONTROLLER_RESET
| CALL_ARM_MOTOR_PWM
| CALL_DISARM_MOTOR_PWM
| CALL_UPDATE_BRAKE_CURRENT.

#[projections(primitive)]
Record Config_t := {
  motor_type : MotorType;
  pre_calibrated : bool;
  pole_pairs : Z;
  direction : Z;
  calibration_current : float32;
  resistance_calib_max_voltage : float32;
  phase_inductance : float32;
  phase_resistance : float32;
  torque_constant : float32;
  current_lim : float32;
  current_lim_margin : float32;
  torque_lim : float32;
  requested_current_range : float32;
  current_control_bandwidth : float32;
  R_wL_FF_enable : bool;
  bEMF_FF_enable : bool;
  acim_slip_velocity : float32;
  acim_gain_min_flux : float32;
  acim_autoflux_enable : bool;
  acim_autoflux_min_Id : float32;
  acim_autoflux_attack_gain : float32;
  acim_autoflux_decay_gain : float32
}.

#[projections(primitive)]
Record CurrentControl_t := {
  p_gain : float32;
  i_gain : float32;
  v_current_control_integral_d : float32;
  v_current_control_integral_q : float32;
  Ibus : float32;
  final_v_alpha : float32;
  final_v_beta : float32;
  Id_setpoint : float32;
  Iq_setpoint : float32;
  Iq_measured : float32;
  Id_measured : float32;
  I_measured_report_filter_k : float32;
  max_allowed_current : float32;
  overcurrent_trip_level : float32;
  acim_rotor_flux : float32;
  async_phase_vel : float32;
  async_phase_offset : float32
}.

#[projections(primitive)]
Record Iph_BC_t := { phB : float32; phC : float32 }.

(** The motor object, together with the pieces of its surroundings that
    motor.cpp reads or writes: the parent axis' error mask ([axis_->error_]),
    the bus voltage global, the PWM gate, the calls made to collaborators
    (most recent first), and how many times the free-running profiling
    counter [htim13.Instance->CNT] has been read so far. *)
#[projections(primitive)]
Record Motor := {
  config_ : Config_t;
  current_control_ : CurrentControl_t;
  error_ : Z;
  is_calibrated_ : bool;
  effective_current_lim_ : float32;
  phase_current_rev_gain_ : float32;
  shunt_conductance_ : float32;
  current_meas_ : Iph_BC_t;
  next_timings_ : Z * Z * Z;
  next_timings_valid_ : bool;
  timing_log_ : TimingLog_t -> Z;
  axis_error_ : Z;
  vbus_voltage : float32;
  armed_state_ : ArmedState;
  extern_calls_ : list ExternCall;
  htim13_reads_ : Z
}.

(** *** Field updates *)

Definition set_phase_inductance (v : float32) (c : Config_t) : Config_t :=
  let 'Build_Config_t a1 a2 a3 a4 a5 a6 _ a8 a9 a10 a11 a12 a13 a14 a15 a16
        a17 a18 a19 a20 a21 a22 := c in
  Build_Config_t a1 a2 a3 a4 a5 a6 v a8 a9 a10 a11 a12 a13 a14 a15 a16
        a17 a18 a19 a20 a21 a22.

Definition set_phase_resistance (v : float32) (c : Config_t) : Config_t :=
  let 'Build_Config_t a1 a2 a3 a4 a5 a6 a7 _ a9 a10 a11 a12 a13 a14 a15 a16
        a17 a18 a19 a20 a21 a22 := c in
  Build_Config_t a1 a2 a3 a4 a5 a6 a7 v a9 a10 a11 a12 a13 a14 a15 a16
        a17 a18 a19 a20 a21 a22.

Definition set_p_gain (v : float32) (c : CurrentControl_t) :=
  let 'Build_CurrentControl_t _ a2 a3 a4 a5 a6 a7 a8 a9 a10 a11 a12 a13 a14
        a15 a16 a17 := c in
  Build_CurrentControl_t v a2 a3 a4 a5 a6 a7 a8 a9 a10 a11 a12 a13 a14
        a15 a16 a17.

Definition set_i_gain (v : float32) (c : CurrentControl_t) :=
  let 'Build_CurrentControl_t a1 _ a3 a4 a5 a6 a7 a8 a9 a10 a11 a12 a13 a14
        a15 a16 a17 := c in
  Build_CurrentControl_t a1 v a3 a4 a5 a6 a7 a8 a9 a10 a11 a12 a13 a14
        a15 a16 a17.

Definition set_v_current_control_integral_d (v : float32)
    (c : CurrentControl_t) :=
  let 'Build_CurrentControl_t a1 a2 _ a4 a5 a6 a7 a8 a9 a10 a11 a12 a13 a14
        a15 a16 a17 := c in
  Build_CurrentControl_t a1 a2 v a4 a5 a6 a7 a8 a9 a10 a11 a12 a13 a14
        a15 a16 a17.

Definition set_v_current_control_integral_q (v : float32)
    (c : CurrentControl_t) :=
  let 'Build_CurrentControl_t a1 a2 a3 _ a5 a6 a7 a8 a9 a10 a11 a12 a13 a14
        a15 a16 a17 := c in
  Build_CurrentControl_t a1 a2 a3 v a5 a6 a7 a8 a9 a10 a11 a12 a13 a14
        a15 a16 a17.

Definition set_Ibus (v : float32) (c : CurrentControl_t) :=
  let 'Build_CurrentControl_t a1 a2 a3 a4 _ a6 a7 a8 a9 a10 a11 a12 a13 a14
        a15 a16 a17 := c in
  Build_CurrentControl_t a1 a2 a3 a4 v a6 a7 a8 a9 a10 a11 a12 a13 a14
        a15 a16 a17.

Definition set_final_v_alpha (v : float32) (c : CurrentControl_t) :=
  let 'Build_CurrentControl_t a1 a2 a3 a4 a5 _ a7 a8 a9 a10 a11 a12 a13 a14
        a15 a16 a17 := c in
  Build_CurrentControl_t a1 a2 a3 a4 a5 v a7 a8 a9 a10 a11 a12 a13 a14
        a15 a16 a17.

Definition set_final_v_beta (v : float32) (c : CurrentControl_t) :=
  let 'Build_CurrentControl_t a1 a2 a3 a4 a5 a6 _ a8 a9 a10 a11 a12 a13 a14
        a15 a16 a17 := c in
  Build_CurrentControl_t a1 a2 a3 a4 a5 a6 v a8 a9 a10 a11 a12 a13 a14
        a15 a16 a17.

Definition set_Id_setpoint (v : float32) (c : CurrentControl_t) :=
  let 'Build_CurrentControl_t a1 a2 a3 a4 a5 a6 a7 _ a9 a10 a11 a12 a13 a14
        a15 a16 a17 := c in
  Build_CurrentControl_t a1 a2 a3 a4 a5 a6 a7 v a9 a10 a11 a12 a13 a14
        a15 a16 a17.

Definition set_Iq_setpoint (v : float32) (c : CurrentControl_t) :=
  let 'Build_CurrentControl_t a1 a2 a3 a4 a5 a6 a7 a8 _ a10 a11 a12 a13 a14
        a15 a16 a17 := c in
  Build_CurrentControl_t a1 a2 a3 a4 a5 a6 a7 a8 v a10 a11 a12 a13 a14
        a15 a16 a17.

Definition set_Iq_measured (v : float32) (c : CurrentControl_t) :=
  let 'Build_CurrentControl_t a1 a2 a3 a4 a5 a6 a7 a8 a9 _ a11 a12 a13 a14
        a15 a16 a17 := c in
  Build_CurrentControl_t a1 a2 a3 a4 a5 a6 a7 a8 a9 v a11 a12 a13 a14
        a15 a16 a17.

Definition set_Id_measured (v : float32) (c : CurrentControl_t) :=
  let 'Build_CurrentControl_t a1 a2 a3 a4 a5 a6 a7 a8 a9 a10 _ a12 a13 a14
        a15 a16 a17 := c in
  Build_CurrentControl_t a1 a2 a3 a4 a5 a6 a7 a8 a9 a10 v a12 a13 a14
        a15 a16 a17.

Definition set_max_allowed_current (v : float32) (c : CurrentControl_t) :=
  let 'Build_CurrentControl_t a1 a2 a3 a4 a5 a6 a7 a8 a9 a10 a11 a12 _ a14
        a15 a16 a17 := c in
  Build_CurrentControl_t a1 a2 a3 a4 a5 a6 a7 a8 a9 a10 a11 a12 v a14
        a15 a16 a17.

Definition set_overcurrent_trip_level (v : float32) (c : CurrentControl_t) :=
  let 'Build_CurrentControl_t a1 a2 a3 a4 a5 a6 a7 a8 a9 a10 a11 a12 a13 _
        a15 a16 a17 := c in
  Build_CurrentControl_t a1 a2 a3 a4 a5 a6 a7 a8 a9 a10 a11 a12 a13 v
        a15 a16 a17.

Definition set_acim_rotor_flux (v : float32) (c : CurrentControl_t) :=
  let 'Build_CurrentControl_t a1 a2 a3 a4 a5 a6 a7 a8 a9 a10 a11 a12 a13 a14
        _ a16 a17 := c in
  Build_CurrentControl_t a1 a2 a3 a4 a5 a6 a7 a8 a9 a10 a11 a12 a13 a14
        v a16 a17.

Definition set_async_phase_vel (v : float32) (c : CurrentControl_t) :=
  let 'Build_CurrentControl_t a1 a2 a3 a4 a5 a6 a7 a8 a9 a10 a11 a12 a13 a14
        a15 _ a17 := c in
  Build_CurrentControl_t a1 a2 a3 a4 a5 a6 a7 a8 a9 a10 a11 a12 a13 a14
        a15 v a17.

Definition set_async_phase_offset (v : float32) (c : CurrentControl_t) :=
  let 'Build_CurrentControl_t a1 a2 a3 a4 a5 a6 a7 a8 a9 a10 a11 a12 a13 a14
        a15 a16 _ := c in
  Build_CurrentControl_t a1 a2 a3 a4 a5 a6 a7 a8 a9 a10 a11 a12 a13 a14
        a15 a16 v.

Definition with_config (f : Config_t -> Config_t) (m : Motor) : Motor :=
  let 'Build_Motor a1 a2 a3 a4 a5 a6 a7 a8 a9 a10 a11 a12 a13 a14 a15 a16 :=
    m in
  Build_Motor (f a1) a2 a3 a4 a5 a6 a7 a8 a9 a10 a11 a12 a13 a14 a15 a16.

Definition with_current_control (f : CurrentControl_t -> CurrentControl_t)
    (m : Motor) : Motor :=
  let 'Build_Motor a1 a2 a3 a4 a5 a6 a7 a8 a9 a10 a11 a12 a13 a14 a15 a16 :=
    m in
  Build_Motor a1 (f a2) a3 a4 a5 a6 a7 a8 a9 a10 a11 a12 a13 a14 a15 a16.

Definition set_error_ (v : Z) (m : Motor) : Motor :=
  let 'Build_Motor a1 a2 _ a4 a5 a6 a7 a8 a9 a10 a11 a12 a13 a14 a15 a16 :=
    m in
  Build_Motor a1 a2 v a4 a5 a6 a7 a8 a9 a10 a11 a12 a13 a14 a15 a16.

Definition set_is_calibrated_ (v : bool) (m : Motor) : Motor :=
  let 'Build_Motor a1 a2 a3 _ a5 a6 a7 a8 a9 a10 a11 a12 a13 a14 a15 a16 :=
    m in
  Build_Motor a1 a2 a3 v a5 a6 a7 a8 a9 a10 a11 a12 a13 a14 a15 a16.

Definition set_effective_current_lim_ (v : float32) (m : Motor) : Motor :=
  let 'Build_Motor a1 a2 a3 a4 _ a6 a7 a8 a9 a10 a11 a12 a13 a14 a15 a16 :=
    m in
  Build_Motor a1 a2 a3 a4 v a6 a7 a8 a9 a10 a11 a12 a13 a14 a15 a16.

Definition set_phase_current_rev_gain_ (v : float32) (m : Motor) : Motor :=
  let 'Build_Motor a1 a2 a3 a4 a5 _ a7 a8 a9 a10 a11 a12 a13 a14 a15 a16 :=
    m in
  Build_Motor a1 a2 a3 a4 a5 v a7 a8 a9 a10 a11 a12 a13 a14 a15 a16.

Definition set_current_meas_ (v : Iph_BC_t) (m : Motor) : Motor :=
  let 'Build_Motor a1 a2 a3 a4 a5 a6 a7 _ a9 a10 a11 a12 a13 a14 a15 a16 :=
    m in
  Build_Motor a1 a2 a3 a4 a5 a6 a7 v a9 a10 a11 a12 a13 a14 a15 a16.

Definition set_next_timings_ (v : Z * Z * Z) (m : Motor) : Motor :=
  let 'Build_Motor a1 a2 a3 a4 a5 a6 a7 a8 _ a10 a11 a12 a13 a14 a15 a16 :=
    m in
  Build_Motor a1 a2 a3 a4 a5 a6 a7 a8 v a10 a11 a12 a13 a14 a15 a16.

Definition set_next_timings_valid_ (v : bool) (m : Motor) : Motor :=
  let 'Build_Motor a1 a2 a3 a4 a5 a6 a7 a8 a9 _ a11 a12 a13 a14 a15 a16 :=
    m in
  Build_Motor a1 a2 a3 a4 a5 a6 a7 a8 a9 v a11 a12 a13 a14 a15 a16.

Definition set_timing_log_ (v : TimingLog_t -> Z) (m : Motor) : Motor :=
  let 'Build_Motor a1 a2 a3 a4 a5 a6 a7 a8 a9 a10 _ a12 a13 a14 a15 a16 :=
    m in
  Build_Motor a1 a2 a3 a4 a5 a6 a7 a8 a9 a10 v a12 a13 a14 a15 a16.

Definition set_axis_error_ (v : Z) (m : Motor) : Motor :=
  let 'Build_Motor a1 a2 a3 a4 a5 a6 a7 a8 a9 a10 a11 _ a13 a14 a15 a16 :=
    m in
  Build_Motor a1 a2 a3 a4 a5 a6 a7 a8 a9 a10 a11 v a13 a14 a15 a16.

Definition set_armed_state_ (v : ArmedState) (m : Motor) : Motor :=
  let 'Build_Motor a1 a2 a3 a4 a5 a6 a7 a8 a9 a10 a11 a12 a13 _ a15 a16 :=
    m in
  Build_Motor a1 a2 a3 a4 a5 a6 a7 a8 a9 a10 a11 a12 a13 v a15 a16.

Definition set_htim13_reads_ (v : Z) (m : Motor) : Motor :=
  let 'Build_Motor a1 a2 a3 a4 a5 a6 a7 a8 a9 a10 a11 a12 a13 a14 a15 _ :=
    m in
  Build_Motor a1 a2 a3 a4 a5 a6 a7 a8 a9 a10 a11 a12 a13 a14 a15 v.

Definition record_call (c : ExternCall) (m : Motor) : Motor :=
  let 'Build_Motor a1 a2 a3 a4 a5 a6 a7 a8 a9 a10 a11 a12 a13 a14 a15 a16 :=
    m in
  Build_Motor a1 a2 a3 a4 a5 a6 a7 a8 a9 a10 a11 a12 a13 a14 (c :: a15) a16.

(** ** What motor.cpp takes from the rest of the firmware

    Constants, tables and collaborators that are declared outside motor.cpp:
    board timing constants, the numeric values of the error enumerators, the
    trigonometric tables, the space-vector modulator, and the answers of the
    gate driver, the current-sense amplifier and the thermistors. *)
Class Env := {
  current_meas_period : float32;
  current_meas_hz : Z;
  TIM_1_8_PERIOD_CLOCKS : Z;
  SVM : float32 -> float32 -> float32 * float32 * float32 * bool;
  our_arm_cos_f32 : float32 -> float32;
  our_arm_sin_f32 : float32 -> float32;
  wrap_pm_pi : float32 -> float32;
  error_code : Error -> Z;
  AXIS_ERROR_MOTOR_FAILED : Z;
  AXIS_ERROR_CURRENT_MEASUREMENT_TIMEOUT : Z;
  gate_driver_init : bool;
  gate_driver_check_fault : bool;
  (* [set_gain(requested, &actual)]: the second argument is the value held by
     [actual] before the call, the second result its value afterwards. *)
  opamp_set_gain : float32 -> float32 -> bool * float32;
  motor_thermistor_do_checks : bool;
  fet_thermistor_do_checks : bool;
  motor_thermistor_get_current_limit : float32 -> float32;
  fet_thermistor_get_current_limit : float32 -> float32;
  clocks_per_cnt : Z;
  (* [htim13.Instance->CNT] is a free-running hardware counter:
     [htim13_CNT n] is the value its read number [n] finds. *)
  htim13_CNT : Z -> Z
}.

Definition AXIS_ERROR_NONE : Z := 0.

(** ** The operations of motor.cpp *)

Section MotorOps.

Context {env : Env}.

(** Modelled from the spec: [safety_critical_arm_motor_pwm],
    [safety_critical_disarm_motor_pwm] and [update_brake_current] belong to
    the low-level layer, outside the sources at hand.  §4.F: the arm
    primitive takes the gate to ARMED, the disarm primitive to DISARMED;
    brake-current recomputation touches no field of the motor. *)
Definition safety_critical_arm_motor_pwm (m : Motor) : Motor :=
  set_armed_state_ ARMED (record_call CALL_ARM_MOTOR_PWM m).

Definition safety_critical_disarm_motor_pwm (m : Motor) : Motor :=
  set_armed_state_ DISARMED (record_call CALL_DISARM_MOTOR_PWM m).

Definition update_brake_current (m : Motor) : Motor :=
  record_call CALL_UPDATE_BRAKE_CURRENT m.

Definition reset_current_control (m : Motor) : Motor :=
  let m := with_current_control (set_v_current_control_integral_d zero) m in
  let m := with_current_control (set_v_current_control_integral_q zero) m in
  let m := with_current_control (set_acim_rotor_flux zero) m in
  with_current_control (set_Ibus zero) m.

(** [arm()].  [wait_for_current_meas] is the outcome of the blocking wait
    on the parent axis. *)
Definition arm (wait_for_current_meas : bool) (m : Motor) : bool * Motor :=
  let m := record_call CALL_CONTROLLER_RESET m in
  let m := reset_current_control m in
  if negb wait_for_current_meas then
    (false,
     set_axis_error_
       (Z.lor (axis_error_ m) AXIS_ERROR_CURRENT_MEASUREMENT_TIMEOUT) m)
  else
    let m := set_next_timings_valid_ false m in
    let m := safety_critical_arm_motor_pwm m in
    (true, m).

Definition update_current_controller_gains (m : Motor) : Motor :=
  let m :=
    with_current_control
      (set_p_gain (current_control_bandwidth (config_ m)
                   * phase_inductance (config_ m))) m in
  let plant_pole :=
    phase_resistance (config_ m) / phase_inductance (config_ m) in
  with_current_control
    (set_i_gain (plant_pole * p_gain (current_control_ m))) m.

Definition apply_config (m : Motor) : bool * Motor :=
  let m := set_is_calibrated_ (pre_calibrated (config_ m)) m in
  let m := update_current_controller_gains m in
  (true, m).

Definition set_error (error : Error) (m : Motor) : Motor :=
  let m := set_error_ (Z.lor (error_ m) (error_code error)) m in
  let m := set_axis_error_ (Z.lor (axis_error_ m) AXIS_ERROR_MOTOR_FAILED) m in
  let m := safety_critical_disarm_motor_pwm m in
  update_brake_current m.

Definition setup (m : Motor) : bool * Motor :=
  if negb gate_driver_init then
    (false, set_error ERROR_DRV_FAULT m)
  else
    let kMargin := lit 90 100 in
    let kTripMargin := lit 1 1 in
    let max_output_swing := lit 135 100 in
    let max_unity_gain_current :=
      kMargin * max_output_swing * shunt_conductance_ m in
    let requested_gain :=
      max_unity_gain_current / requested_current_range (config_ m) in
    let '(success, actual_gain) := opamp_set_gain requested_gain nan in
    if negb success then
      (false, m)
    else
      let m := set_phase_current_rev_gain_ (lit 1 1 / actual_gain) m in
      let m :=
        with_current_control
          (set_max_allowed_current
             (max_unity_gain_current * phase_current_rev_gain_ m)) m in
      let m :=
        with_current_control
          (set_overcurrent_trip_level
             ((kTripMargin / kMargin)
              * max_allowed_current (current_control_ m))) m in
      (true, m).

Definition do_checks (m : Motor) : bool * Motor :=
  if negb gate_driver_check_fault then
    (false, set_error ERROR_DRV_FAULT m)
  else if negb motor_thermistor_do_checks then
    let m :=
      set_axis_error_ (Z.lor (axis_error_ m) AXIS_ERROR_MOTOR_FAILED) m in
    (false, set_error ERROR_MOTOR_THERMISTOR_OVER_TEMP m)
  else if negb fet_thermistor_do_checks then
    let m :=
      set_axis_error_ (Z.lor (axis_error_ m) AXIS_ERROR_MOTOR_FAILED) m in
    (false, set_error ERROR_FET_THERMISTOR_OVER_TEMP m)
  else (true, m).

(** [effective_current_lim()]; [axis_->motor_] is this motor. *)
Definition effective_current_lim (m : Motor) : float32 * Motor :=
  let current_lim0 := current_lim (config_ m) in
  let current_lim1 :=
    if MotorType_eqb (motor_type (config_ m)) MOTOR_TYPE_GIMBAL then
      std_min current_lim0 (lit 98 100 * one_by_sqrt3 * vbus_voltage m)
    else
      std_min current_lim0 (max_allowed_current (current_control_ m)) in
  let current_lim2 :=
    std_min current_lim1
      (motor_thermistor_get_current_limit (current_lim (config_ m))) in
  let current_lim3 :=
    std_min current_lim2
      (fet_thermistor_get_current_limit (current_lim (config_ m))) in
  let m := set_effective_current_lim_ current_lim3 m in
  (effective_current_lim_ m, m).

Definition max_available_torque (m : Motor) : float32 :=
  if MotorType_eqb (motor_type (config_ m)) MOTOR_TYPE_ACIM then
    let max_torque :=
      effective_current_lim_ m * torque_constant (config_ m)
      * acim_rotor_flux (current_control_ m) in
    std_clamp max_torque zero (torque_lim (config_ m))
  else
    let max_torque :=
      effective_current_lim_ m * torque_constant (config_ m) in
    std_clamp max_torque zero (torque_lim (config_ m)).

(** [log_timing]: every index used in motor.cpp is below
    [TIMING_LOG_NUM_SLOTS]; the stored value is a [uint16_t].  Each call
    reads the counter anew. *)
Definition log_timing (log_idx : TimingLog_t) (m : Motor) : Motor :=
  let timing :=
    (clocks_per_cnt * htim13_CNT (htim13_reads_ m)) mod 2 ^ 16 in
  let m := set_htim13_reads_ (htim13_reads_ m + 1)%Z m in
  set_timing_log_
    (fun i => if TimingLog_eqb i log_idx then timing else timing_log_ m i) m.

Definition phase_current_from_adcval (ADCValue : Z) (m : Motor) : float32 :=
  let adcval_bal := (ADCValue - 2 ^ 11)%Z in
  let amp_out_volt := (lit 33 10 / of_Z (2 ^ 12)) * of_Z adcval_bal in
  let shunt_volt := amp_out_volt * phase_current_rev_gain_ m in
  shunt_volt * shunt_conductance_ m.

Definition enqueue_modulation_timings (mod_alpha mod_beta : float32)
    (m : Motor) : bool * Motor :=
  if is_nan mod_alpha || is_nan mod_beta then
    (false, set_error ERROR_MODULATION_IS_NAN m)
  else
    let '(tA, tB, tC, success) := SVM mod_alpha mod_beta in
    if negb success then
      (false, set_error ERROR_MODULATION_MAGNITUDE m)
    else
      let m :=
        set_next_timings_
          (to_uint16 (tA * of_Z TIM_1_8_PERIOD_CLOCKS),
           to_uint16 (tB * of_Z TIM_1_8_PERIOD_CLOCKS),
           to_uint16 (tC * of_Z TIM_1_8_PERIOD_CLOCKS)) m in
      let m := set_next_timings_valid_ true m in
      (true, m).

Definition enqueue_voltage_timings (v_alpha v_beta : float32) (m : Motor)
    : bool * Motor :=
  let vfactor := lit 1 1 / ((of_Z 2 / of_Z 3) * vbus_voltage m) in
  let mod_alpha := vfactor * v_alpha in
  let mod_beta := vfactor * v_beta in
  match enqueue_modulation_timings mod_alpha mod_beta m with
  | (false, m) => (false, m)
  | (true, m) => (true, log_timing TIMING_LOG_FOC_VOLTAGE m)
  end.

Definition FOC_voltage (v_d v_q pwm_phase : float32) (m : Motor)
    : bool * Motor :=
  let c := our_arm_cos_f32 pwm_phase in
  let s := our_arm_sin_f32 pwm_phase in
  let v_alpha := c * v_d - s * v_q in
  let v_beta := c * v_q + s * v_d in
  enqueue_voltage_timings v_alpha v_beta m.

(** *** [FOC_current]

    The blocks of the function that later statements refer to are named;
    [FOC_current] below composes them in source order.  The profiling
    timers and the oscilloscope capture at the end of the function write
    only to debug globals and are left out. *)

(** Current-sense saturation test. *)
Definition current_sense_saturated (m : Motor) : bool :=
  (std_abs (phB (current_meas_ m))
     >? overcurrent_trip_level (current_control_ m))
  || (std_abs (phC (current_meas_ m))
        >? overcurrent_trip_level (current_control_ m)).

(** Clarke then Park transform of the sampled phase currents: [(Id, Iq)]. *)
Definition measured_dq (I_phase : float32) (m : Motor) : float32 * float32 :=
  let Ialpha := - phB (current_meas_ m) - phC (current_meas_ m) in
  let Ibeta := one_by_sqrt3 * (phB (current_meas_ m) - phC (current_meas_ m)) in
  let c_I := our_arm_cos_f32 I_phase in
  let s_I := our_arm_sin_f32 I_phase in
  let Id := c_I * Ialpha + s_I * Ibeta in
  let Iq := c_I * Ibeta - s_I * Ialpha in
  (Id, Iq).

Definition I_trip (m : Motor) : float32 :=
  effective_current_lim_ m + current_lim_margin (config_ m).

Definition current_limit_violated (Id Iq : float32) (m : Motor) : bool :=
  SQ Id + SQ Iq >? SQ (I_trip m).

Definition mod_to_V (m : Motor) : float32 :=
  (of_Z 2 / of_Z 3) * vbus_voltage m.

(** PI control with feed-forward, converted to modulation:
    [(mod_d, mod_q)] before the saturation block. *)
Definition pi_modulation (Id_des Iq_des Id Iq phase_vel : float32)
    (m : Motor) : float32 * float32 :=
  let ictrl := current_control_ m in
  let Ierr_d := Id_des - Id in
  let Ierr_q := Iq_des - Iq in
  let Vd := v_current_control_integral_d ictrl + Ierr_d * p_gain ictrl in
  let Vq := v_current_control_integral_q ictrl + Ierr_q * p_gain ictrl in
  let '(Vd, Vq) :=
    if R_wL_FF_enable (config_ m) then
      let Vd := Vd - phase_vel * phase_inductance (config_ m) * Iq_des in
      let Vq := Vq + phase_vel * phase_inductance (config_ m) * Id_des in
      let Vd := Vd + phase_resistance (config_ m) * Id_des in
      let Vq := Vq + phase_resistance (config_ m) * Iq_des in
      (Vd, Vq)
    else (Vd, Vq) in
  let Vq :=
    if bEMF_FF_enable (config_ m) then
      Vq + phase_vel * (of_Z 2 / of_Z 3)
           * (torque_constant (config_ m) / of_Z (pole_pairs (config_ m)))
    else Vq in
  let V_to_mod := one / mod_to_V m in
  (V_to_mod * Vd, V_to_mod * Vq).

Definition mod_scalefactor (mod_d mod_q : float32) : float32 :=
  lit 80 100 * sqrt3_by_2 * one / F32.sqrt (mod_d * mod_d + mod_q * mod_q).

Definition FOC_current (Id_des Iq_des I_phase pwm_phase phase_vel : float32)
    (m : Motor) : bool * Motor :=
  let m := with_current_control (set_Iq_setpoint Iq_des) m in
  if current_sense_saturated m then
    (false, set_error ERROR_CURRENT_SENSE_SATURATION m)
  else
    let '(Id, Iq) := measured_dq I_phase m in
    let m :=
      with_current_control
        (fun ictrl =>
           set_Iq_measured
             (Iq_measured ictrl
              + I_measured_report_filter_k ictrl * (Iq - Iq_measured ictrl))
             ictrl) m in
    let m :=
      with_current_control
        (fun ictrl =>
           set_Id_measured
             (Id_measured ictrl
              + I_measured_report_filter_k ictrl * (Id - Id_measured ictrl))
             ictrl) m in
    if current_limit_violated Id Iq m then
      (false, set_error ERROR_CURRENT_LIMIT_VIOLATION m)
    else
      let Ierr_d := Id_des - Id in
      let Ierr_q := Iq_des - Iq in
      let '(mod_d, mod_q) := pi_modulation Id_des Iq_des Id Iq phase_vel m in
      let scalefactor := mod_scalefactor mod_d mod_q in
      let '(mod_d, mod_q, m) :=
        if scalefactor <? one then
          let m :=
            with_current_control
              (fun ictrl =>
                 set_v_current_control_integral_d
                   (v_current_control_integral_d ictrl * lit 99 100) ictrl)
              m in
          let m :=
            with_current_control
              (fun ictrl =>
                 set_v_current_control_integral_q
                   (v_current_control_integral_q ictrl * lit 99 100) ictrl)
              m in
          (mod_d * scalefactor, mod_q * scalefactor, m)
        else
          let m :=
            with_current_control
              (fun ictrl =>
                 set_v_current_control_integral_d
                   (v_current_control_integral_d ictrl
                    + Ierr_d * (i_gain ictrl * current_meas_period)) ictrl)
              m in
          let m :=
            with_current_control
              (fun ictrl =>
                 set_v_current_control_integral_q
                   (v_current_control_integral_q ictrl
                    + Ierr_q * (i_gain ictrl * current_meas_period)) ictrl)
              m in
          (mod_d, mod_q, m) in
      let m := with_current_control (set_Ibus (mod_d * Id + mod_q * Iq)) m in
      let c_p := our_arm_cos_f32 pwm_phase in
      let s_p := our_arm_sin_f32 pwm_phase in
      let mod_alpha := c_p * mod_d - s_p * mod_q in
      let mod_beta := c_p * mod_q + s_p * mod_d in
      let m :=
        with_current_control
          (set_final_v_alpha (mod_to_V m * mod_alpha)) m in
      let m :=
        with_current_control
          (set_final_v_beta (mod_to_V m * mod_beta)) m in
      match enqueue_modulation_timings mod_alpha mod_beta m with
      | (false, m) => (false, m)
      | (true, m) => (true, log_timing TIMING_LOG_FOC_CURRENT m)
      end.

(** *** [update] *)

(** Torque to current mapping (before clamping). *)
Definition current_setpoint_of_torque (torque_setpoint : float32)
    (m : Motor) : float32 :=
  let current_setpoint :=
    if MotorType_eqb (motor_type (config_ m)) MOTOR_TYPE_ACIM then
      torque_setpoint
      / (torque_constant (config_ m)
         * std_max (acim_rotor_flux (current_control_ m))
                   (acim_gain_min_flux (config_ m)))
    else
      torque_setpoint / torque_constant (config_ m) in
  current_setpoint * of_Z (direction (config_ m)).

(** The slip velocity as computed from the rotor flux, and after the
    small-denominator check. *)
Definition slip_velocity_raw (iq : float32) (m : Motor) : float32 :=
  acim_slip_velocity (config_ m)
  * (iq / acim_rotor_flux (current_control_ m)).

Definition slip_velocity_limit : float32 :=
  lit 1 10 * of_Z current_meas_hz.

Definition slip_velocity_checked (slip_velocity : float32) : float32 :=
  if is_nan slip_velocity
     || (std_abs slip_velocity >? slip_velocity_limit)
  then zero else slip_velocity.

(** The ACIM block of [update]: yields the new [id], [phase], [phase_vel]
    and state. *)
Definition update_acim (id iq phase phase_vel ilim : float32) (m : Motor)
    : float32 * float32 * float32 * Motor :=
  let '(id, m) :=
    if acim_autoflux_enable (config_ m) then
      let abs_iq := std_abs iq in
      let gain :=
        if abs_iq >? id then acim_autoflux_attack_gain (config_ m)
        else acim_autoflux_decay_gain (config_ m) in
      let id := id + gain * (abs_iq - id) * current_meas_period in
      let id := std_clamp id (acim_autoflux_min_Id (config_ m)) ilim in
      (id, with_current_control (set_Id_setpoint id) m)
    else (id, m) in
  let dflux_by_dt :=
    acim_slip_velocity (config_ m)
    * (id - acim_rotor_flux (current_control_ m)) in
  let m :=
    with_current_control
      (fun ictrl =>
         set_acim_rotor_flux
           (acim_rotor_flux ictrl + dflux_by_dt * current_meas_period)
           ictrl) m in
  let slip_velocity := slip_velocity_checked (slip_velocity_raw iq m) in
  let phase_vel := phase_vel + slip_velocity in
  let m := with_current_control (set_async_phase_vel slip_velocity) m in
  let m :=
    with_current_control
      (fun ictrl =>
         set_async_phase_offset
           (async_phase_offset ictrl + slip_velocity * current_meas_period)
           ictrl) m in
  let m :=
    with_current_control
      (fun ictrl =>
         set_async_phase_offset (wrap_pm_pi (async_phase_offset ictrl))
           ictrl) m in
  let phase := phase + async_phase_offset (current_control_ m) in
  let phase := wrap_pm_pi phase in
  (id, phase, phase_vel, m).

Definition update (torque_setpoint phase phase_vel : float32) (m : Motor)
    : bool * Motor :=
  let phase := phase * of_Z (direction (config_ m)) in
  let phase_vel := phase_vel * of_Z (direction (config_ m)) in
  let current_setpoint := current_setpoint_of_torque torque_setpoint m in
  let ilim := effective_current_lim_ m in
  let id := std_clamp (Id_setpoint (current_control_ m)) (- ilim) ilim in
  let iq := std_clamp current_setpoint (- ilim) ilim in
  let '(id, phase, phase_vel, m) :=
    if MotorType_eqb (motor_type (config_ m)) MOTOR_TYPE_ACIM then
      update_acim id iq phase phase_vel ilim m
    else (id, phase, phase_vel, m) in
  let pwm_phase := phase + lit 15 10 * current_meas_period * phase_vel in
  match motor_type (config_ m) with
  | MOTOR_TYPE_HIGH_CURRENT => FOC_current id iq phase pwm_phase phase_vel m
  | MOTOR_TYPE_ACIM => FOC_current id iq phase pwm_phase phase_vel m
  | MOTOR_TYPE_GIMBAL => FOC_voltage id iq pwm_phase m
  | MOTOR_TYPE_UNKNOWN =>
      (false, set_error ERROR_NOT_IMPLEMENTED_MOTOR_TYPE m)
  end.

(** *** Calibration *)

(** Modelled from the spec: [Axis::run_control_loop] is declared with the
    axis, outside the sources at hand.  §9: "a synchronous tick pump where
    body returns continue?"; §5 and §6: the body runs once per control
    period, after the ADC layer has refreshed [current_meas].  [samples]
    holds the measurements of the successive periods; the pump ends when
    the body declines to continue, or when the supervisor leaves the
    sequence (the samples run out).  [L] is the state of the locals the
    body captures by reference. *)
Fixpoint run_control_loop {L : Type}
    (body : L -> Motor -> bool * L * Motor)
    (samples : list Iph_BC_t) (l : L) (m : Motor) : L * Motor :=
  match samples with
  | [] => (l, m)
  | s :: samples' =>
      let m := set_current_meas_ s m in
      let '(continue, l, m) := body l m in
      if continue then run_control_loop body samples' l m else (l, m)
  end.

Definition num_test_cycles : Z :=
  F32.trunc (of_Z 3 / current_meas_period).

(** Loop body of [measure_phase_resistance]; the captured locals are
    [(test_voltage, i)]. *)
Definition measure_phase_resistance_body (test_current max_voltage : float32)
    (l : float32 * Z) (m : Motor) : bool * (float32 * Z) * Motor :=
  let '(test_voltage, i) := l in
  let kI := of_Z 10 in
  let Ialpha := - (phB (current_meas_ m) + phC (current_meas_ m)) in
  let test_voltage :=
    test_voltage + (kI * current_meas_period) * (test_current - Ialpha) in
  if (test_voltage >? max_voltage) || (test_voltage <? - max_voltage) then
    (false, (test_voltage, i), set_error ERROR_PHASE_RESISTANCE_OUT_OF_RANGE m)
  else
    match enqueue_voltage_timings test_voltage zero m with
    | (false, m) => (false, (test_voltage, i), m)
    | (true, m) =>
        let m := log_timing TIMING_LOG_MEAS_R m in
        let i := ((i + 1) mod 2 ^ 32)%Z in
        ((i <? num_test_cycles mod 2 ^ 32)%Z, (test_voltage, i), m)
    end.

Definition measure_phase_resistance (test_current max_voltage : float32)
    (samples : list Iph_BC_t) (m : Motor) : bool * Motor :=
  let '((test_voltage, _), m) :=
    run_control_loop
      (measure_phase_resistance_body test_current max_voltage)
      samples (zero, 0%Z) m in
  if negb (axis_error_ m =? AXIS_ERROR_NONE)%Z then (false, m)
  else
    let R := test_voltage / test_current in
    let m := with_config (set_phase_resistance R) m in
    (true, m).

Definition num_cycles : Z := 5000.

(** Loop body of [measure_phase_inductance]; the captured locals are
    [(Ialphas[0], Ialphas[1], t)]. *)
Definition measure_phase_inductance_body (voltage_low voltage_high : float32)
    (l : float32 * float32 * Z) (m : Motor)
    : bool * (float32 * float32 * Z) * Motor :=
  let '(Ialphas0, Ialphas1, t) := l in
  let i := Z.land t 1 in
  let sample := - phB (current_meas_ m) - phC (current_meas_ m) in
  let '(Ialphas0, Ialphas1) :=
    if (i =? 0)%Z then (Ialphas0 + sample, Ialphas1)
    else (Ialphas0, Ialphas1 + sample) in
  let test_voltage := if (i =? 0)%Z then voltage_low else voltage_high in
  match enqueue_voltage_timings test_voltage zero m with
  | (false, m) => (false, (Ialphas0, Ialphas1, t), m)
  | (true, m) =>
      let m := log_timing TIMING_LOG_MEAS_L m in
      let t := ((t + 1) mod 2 ^ 32)%Z in
      ((t <? Z.shiftl num_cycles 1)%Z, (Ialphas0, Ialphas1, t), m)
  end.

(** The inductance identified from the two accumulated currents. *)
Definition identified_inductance (voltage_low voltage_high : float32)
    (Ialphas0 Ialphas1 : float32) : float32 :=
  let v_L := lit 5 10 * (voltage_high - voltage_low) in
  let dI_by_dt :=
    (Ialphas1 - Ialphas0) / (current_meas_period * of_Z num_cycles) in
  v_L / dI_by_dt.

(** What [measure_phase_inductance] does once its loop has ended with the
    accumulated currents [Ialphas0], [Ialphas1]. *)
Definition measure_phase_inductance_finish
    (voltage_low voltage_high Ialphas0 Ialphas1 : float32) (m : Motor)
    : bool * Motor :=
  if negb (axis_error_ m =? AXIS_ERROR_NONE)%Z then (false, m)
  else
    let L := identified_inductance voltage_low voltage_high
               Ialphas0 Ialphas1 in
    let m := with_config (set_phase_inductance L) m in
    if (L <? lit 2 1000000) || (L >? lit 4000 1000000) then
      (false, set_error ERROR_PHASE_INDUCTANCE_OUT_OF_RANGE m)
    else (true, m).

Definition measure_phase_inductance (voltage_low voltage_high : float32)
    (samples : list Iph_BC_t) (m : Motor) : bool * Motor :=
  let '((Ialphas0, Ialphas1, _), m) :=
    run_control_loop
      (measure_phase_inductance_body voltage_low voltage_high)
      samples (zero, zero, 0%Z) m in
  measure_phase_inductance_finish voltage_low voltage_high
    Ialphas0 Ialphas1 m.

(** [run_calibration()]; the two sample lists feed the resistance and the
    inductance measurement. *)
Definition run_calibration (samples_R samples_L : list Iph_BC_t) (m : Motor)
    : bool * Motor :=
  let R_calib_max_voltage := resistance_calib_max_voltage (config_ m) in
  let measured :=
    match motor_type (config_ m) with
    | MOTOR_TYPE_HIGH_CURRENT | MOTOR_TYPE_ACIM =>
        match measure_phase_resistance (calibration_current (config_ m))
                R_calib_max_voltage samples_R m with
        | (false, m) => (false, m)
        | (true, m) =>
            measure_phase_inductance (- R_calib_max_voltage)
              R_calib_max_voltage samples_L m
        end
    | MOTOR_TYPE_GIMBAL => (true, m)
    | MOTOR_TYPE_UNKNOWN => (false, m)
    end in
  match measured with
  | (false, m) => (false, m)
  | (true, m) =>
      let m := update_current_controller_gains m in
      let m := set_is_calibrated_ true m in
      (true, m)
  end.

End MotorOps.

Arguments F32.add : simpl never.
Arguments F32.sub : simpl never.
Arguments F32.mul : simpl never.
Arguments F32.div : simpl never.
Arguments F32.sqrt : simpl never.
Arguments F32.ltb : simpl never.
Arguments F32.gtb : simpl never.
Arguments F32.of_Z : simpl never.
Arguments F32.lit : simpl never.
Arguments F32.to_uint16 : simpl never.

(** ** A concrete board, for running the model on examples

    None of the statements below depends on these choices; they only serve
    to evaluate the operations on concrete inputs. *)

Module Bench.

Definition two_by_sqrt3 : float32 := lit 115470053838 100000000000.

(** A seven-segment space-vector modulator: sextant selection, the two
    active-vector on-times, and the range check on the three results. *)
Definition sextant (alpha beta : float32) : Z :=
  if F32.geb beta zero then
    if F32.geb alpha zero then
      if one_by_sqrt3 * beta >? alpha then 2 else 1
    else
      if (- one_by_sqrt3) * beta >? alpha then 3 else 2
  else
    if F32.geb alpha zero then
      if (- one_by_sqrt3) * beta >? alpha then 5 else 6
    else
      if one_by_sqrt3 * beta >? alpha then 4 else 5.

Definition svm (alpha beta : float32) : float32 * float32 * float32 * bool :=
  let half := lit 5 10 in
  let '(tA, tB, tC) :=
    match sextant alpha beta with
    | 1%Z =>
        let t1 := alpha - one_by_sqrt3 * beta in
        let t2 := two_by_sqrt3 * beta in
        let tA := (one - t1 - t2) * half in
        let tB := tA + t1 in
        (tA, tB, tB + t2)
    | 2%Z =>
        let t2 := alpha + one_by_sqrt3 * beta in
        let t3 := - alpha + one_by_sqrt3 * beta in
        let tB := (one - t2 - t3) * half in
        let tA := tB + t3 in
        (tA, tB, tA + t2)
    | 3%Z =>
        let t3 := two_by_sqrt3 * beta in
        let t4 := - alpha - one_by_sqrt3 * beta in
        let tB := (one - t3 - t4) * half in
        let tC := tB + t3 in
        (tC + t4, tB, tC)
    | 4%Z =>
        let t4 := - alpha + one_by_sqrt3 * beta in
        let t5 := (- two_by_sqrt3) * beta in
        let tC := (one - t4 - t5) * half in
        let tB := tC + t5 in
        (tB + t4, tB, tC)
    | 5%Z =>
        let t5 := - alpha - one_by_sqrt3 * beta in
        let t6 := alpha - one_by_sqrt3 * beta in
        let tC := (one - t5 - t6) * half in
        let tA := tC + t5 in
        (tA, tA + t6, tC)
    | _ =>
        let t6 := (- two_by_sqrt3) * beta in
        let t1 := alpha + one_by_sqrt3 * beta in
        let tA := (one - t6 - t1) * half in
        let tC := tA + t1 in
        (tA, tC + t6, tC)
    end in
  let in01 t := F32.geb t zero && F32.leb t one in
  (tA, tB, tC, in01 tA && in01 tB && in01 tC).

(** Low-order polynomial stand-ins for the trigonometric tables, exact at
    angle 0, and a single-step wrap to (-π, π]. *)
Definition cos_poly (x : float32) : float32 :=
  let x2 := x * x in
  one - x2 * lit 1 2 + x2 * x2 * lit 1 24.

Definition sin_poly (x : float32) : float32 :=
  let x2 := x * x in
  x - x * x2 * lit 1 6 + x * x2 * x2 * lit 1 120.

Definition pi : float32 := lit 31415926535 10000000000.

Definition wrap_once (x : float32) : float32 :=
  if x >? pi then x - of_Z 2 * pi
  else if x <? - pi then x + of_Z 2 * pi
  else x.

(** One bit per fault kind. *)
Definition error_bit (e : Error) : Z :=
  match e with
  | ERROR_PHASE_RESISTANCE_OUT_OF_RANGE => 0x0001
  | ERROR_PHASE_INDUCTANCE_OUT_OF_RANGE => 0x0002
  | ERROR_DRV_FAULT => 0x0008
  | ERROR_CONTROL_DEADLINE_MISSED => 0x0010
  | ERROR_NOT_IMPLEMENTED_MOTOR_TYPE => 0x0020
  | ERROR_MODULATION_MAGNITUDE => 0x0080
  | ERROR_CURRENT_SENSE_SATURATION => 0x0400
  | ERROR_CURRENT_LIMIT_VIOLATION => 0x1000
  | ERROR_MODULATION_IS_NAN => 0x10000
  | ERROR_MOTOR_THERMISTOR_OVER_TEMP => 0x20000
  | ERROR_FET_THERMISTOR_OVER_TEMP => 0x40000
  end.

(** 8 kHz control rate, 3500 timer counts per PWM period; the collaborators
    answer [gate_ok], [gain_ok]; thermistors do not throttle. *)
Definition board (gate_ok gain_ok : bool) : Env := {|
  current_meas_period := lit 125 1000000;
  current_meas_hz := 8000;
  TIM_1_8_PERIOD_CLOCKS := 3500;
  SVM := svm;
  our_arm_cos_f32 := cos_poly;
  our_arm_sin_f32 := sin_poly;
  wrap_pm_pi := wrap_once;
  error_code := error_bit;
  AXIS_ERROR_MOTOR_FAILED := 0x40;
  AXIS_ERROR_CURRENT_MEASUREMENT_TIMEOUT := 0x400;
  gate_driver_init := gate_ok;
  gate_driver_check_fault := gate_ok;
  opamp_set_gain := fun requested actual =>
    if gain_ok then (true, of_Z 10) else (false, actual);
  motor_thermistor_do_checks := true;
  fet_thermistor_do_checks := true;
  motor_thermistor_get_current_limit := fun cap => cap;
  fet_thermistor_get_current_limit := fun cap => cap;
  clocks_per_cnt := 2;
  htim13_CNT := fun n => (100 + 37 * n)%Z
|}.

Definition config (mt : MotorType) : Config_t := {|
  motor_type := mt;
  pre_calibrated := false;
  pole_pairs := 7;
  direction := 1;
  calibration_current := of_Z 10;
  resistance_calib_max_voltage := of_Z 2;
  phase_inductance := lit 1 10000;
  phase_resistance := lit 1 10;
  torque_constant := lit 1 10;
  current_lim := of_Z 10;
  current_lim_margin := of_Z 8;
  torque_lim := of_Z 100;
  requested_current_range := of_Z 60;
  current_control_bandwidth := of_Z 1000;
  R_wL_FF_enable := false;
  bEMF_FF_enable := false;
  acim_slip_velocity := lit 145 10;
  acim_gain_min_flux := of_Z 10;
  acim_autoflux_enable := false;
  acim_autoflux_min_Id := of_Z 10;
  acim_autoflux_attack_gain := of_Z 10;
  acim_autoflux_decay_gain := of_Z 1
|}.

Definition current_control : CurrentControl_t := {|
  p_gain := lit 1 10;
  i_gain := of_Z 100;
  v_current_control_integral_d := lit 1 2;
  v_current_control_integral_q := - lit 3 4;
  Ibus := zero;
  final_v_alpha := zero;
  final_v_beta := zero;
  Id_setpoint := zero;
  Iq_setpoint := zero;
  Iq_measured := zero;
  Id_measured := zero;
  I_measured_report_filter_k := one;
  max_allowed_current := of_Z 60;
  overcurrent_trip_level := of_Z 66;
  acim_rotor_flux := zero;
  async_phase_vel := zero;
  async_phase_offset := zero
|}.

(** A disarmed, error-free motor on a 24 V bus with the given phase-current
    samples. *)
Definition motor (mt : MotorType) (iB iC : float32) : Motor := {|
  config_ := config mt;
  current_control_ := current_control;
  error_ := 0;
  is_calibrated_ := false;
  effective_current_lim_ := of_Z 10;
  phase_current_rev_gain_ := lit 1 10;
  shunt_conductance_ := of_Z 2000;
  current_meas_ := {| phB := iB; phC := iC |};
  next_timings_ := (0, 0, 0);
  next_timings_valid_ := false;
  timing_log_ := fun _ => 0;
  axis_error_ := 0;
  vbus_voltage := of_Z 24;
  armed_state_ := DISARMED;
  extern_calls_ := [];
  htim13_reads_ := 0
|}.

(** Phase-current samples of a calibration run: [n] pairs of control
    periods in which both sensed phases read [d], then [-d]. *)
Definition alternating_samples (d : float32) (n : nat) : list Iph_BC_t :=
  flat_map
    (fun _ => [ {| phB := d; phC := d |}; {| phB := - d; phC := - d |} ])
    (seq 0 n).

(** The motor [m] after the ADC layer has refreshed the bus voltage
    reading to [v]. *)
Definition on_bus (v : float32) (m : Motor) : Motor :=
  let 'Build_Motor a1 a2 a3 a4 a5 a6 a7 a8 a9 a10 a11 a12 _ a14 a15 a16 :=
    m in
  Build_Motor a1 a2 a3 a4 a5 a6 a7 a8 a9 a10 a11 a12 v a14 a15 a16.

(** Phase-current samples of a run in which both sensed phases read [d]
    in each of [n] control periods. *)
Definition constant_samples (d : float32) (n : nat) : list Iph_BC_t :=
  repeat {| phB := d; phC := d |} n.

(** An induction machine with automatic flux control, asking for at least
    2 A of magnetising current. *)
Definition autoflux_config : Config_t := {|
  motor_type := MOTOR_TYPE_ACIM;
  pre_calibrated := false;
  pole_pairs := 7;
  direction := 1;
  calibration_current := of_Z 10;
  resistance_calib_max_voltage := of_Z 2;
  phase_inductance := lit 1 10000;
  phase_resistance := lit 1 10;
  torque_constant := lit 1 10;
  current_lim := of_Z 10;
  current_lim_margin := of_Z 8;
  torque_lim := of_Z 100;
  requested_current_range := of_Z 60;
  current_control_bandwidth := of_Z 1000;
  R_wL_FF_enable := false;
  bEMF_FF_enable := false;
  acim_slip_velocity := lit 145 10;
  acim_gain_min_flux := of_Z 10;
  acim_autoflux_enable := true;
  acim_autoflux_min_Id := of_Z 2;
  acim_autoflux_attack_gain := of_Z 10;
  acim_autoflux_decay_gain := of_Z 1
|}.

Definition autoflux_motor (iB iC : float32) : Motor :=
  with_config (fun _ => autoflux_config) (motor MOTOR_TYPE_ACIM iB iC).

End Bench.

(** * Vocabulary of the statements *)

(** Two sentences of the specification do not hold of the code as they are
    worded; they are stated here ([limit_violation_always_reported],
    [duty_counts_are_rounded]) and refuted below. *)

(** Nearest integer to a rational (halves round up). *)
Definition nearest_integer (q : Q) : Z := Qfloor (q + (1 # 2)).

(** [k]'s bit(s) are set in the mask [mask]. *)
Definition error_set {env : Env} (k : Error) (mask : Z) : Prop :=
  Z.land mask (error_code k) = error_code k.

(** "Whenever the measured d/q currents exceed the trip level, [FOC_current]
    reports CURRENT_LIMIT_VIOLATION", with no proviso. *)
Definition limit_violation_always_reported : Prop :=
  forall (env : Env) (Id_des Iq_des I_phase pwm_phase phase_vel : float32)
         (m : Motor),
    current_limit_violated (fst (measured_dq I_phase m))
      (snd (measured_dq I_phase m)) m = true ->
    let r := FOC_current Id_des Iq_des I_phase pwm_phase phase_vel m in
    fst r = false
    /\ error_set ERROR_CURRENT_LIMIT_VIOLATION (error_ (snd r))
    /\ armed_state_ (snd r) = DISARMED
    /\ next_timings_ (snd r) = next_timings_ m
    /\ next_timings_valid_ (snd r) = next_timings_valid_ m.

(** On-times inside [0,1]. *)
Definition on_time (t : float32) : bool :=
  F32.valid t && F32.leb zero t && F32.leb t one.

(** "Each stored duty count is the nearest integer to
    t · TIM_1_8_PERIOD_CLOCKS." *)
Definition duty_counts_are_rounded : Prop :=
  forall (env : Env) (mod_alpha mod_beta tA tB tC : float32) (m : Motor),
    is_nan mod_alpha || is_nan mod_beta = false ->
    SVM mod_alpha mod_beta = (tA, tB, tC, true) ->
    on_time tA = true -> on_time tB = true -> on_time tC = true ->
    next_timings_ (snd (enqueue_modulation_timings mod_alpha mod_beta m))
    = (nearest_integer (to_Q tA * inject_Z TIM_1_8_PERIOD_CLOCKS),
       nearest_integer (to_Q tB * inject_Z TIM_1_8_PERIOD_CLOCKS),
       nearest_integer (to_Q tC * inject_Z TIM_1_8_PERIOD_CLOCKS)).

(** The hardware cap of the limit supervisor (§4.E): the amplifier's usable
    range for current-controlled motors, 0.98·(1/√3)·Vbus for the
    voltage-controlled gimbal motor. *)
Definition hw_cap (m : Motor) : float32 :=
  match motor_type (config_ m) with
  | MOTOR_TYPE_GIMBAL => lit 98 100 * one_by_sqrt3 * vbus_voltage m
  | _ => max_allowed_current (current_control_ m)
  end.

(** *** Auxiliary notions for the rounding arguments *)

(** Number of low bits that rounding the mantissa [m] at exponent [e]
    discards. *)
Definition shift_of (m e : Z) : Z :=
  Z.max 0 (fexp prec emax (Zdigits2 m + e) - e).

(** Neither negative nor minus infinity (NaN and both zeros pass). *)
Definition not_negative (x : float32) : bool :=
  match x with
  | S754_finite true _ _ | S754_infinity true => false
  | _ => true
  end.

(** [f] holds of every positive number of at most [k+1] binary digits. *)
Fixpoint forall_bits (k : nat) (f : positive -> bool) : bool :=
  f xH
  && match k with
     | O => true
     | S k' =>
         forall_bits k' (fun p => f (xO p))
         && forall_bits k' (fun p => f (xI p))
     end.

(** [(float)n] is exactly [n], with a full-width mantissa, for a positive
    16-bit [n]. *)
Definition exact_small_int (n : Z) : bool :=
  match of_Z n with
  | S754_finite false m e =>
      ((-23 <=? e) && (e <=? -8) && (Zpos m =? n * 2 ^ (- e)))%Z
  | _ => false
  end.

(** *** Notions for the frame and safety properties *)

(** Every bit of the mask [a] is set in the mask [b]. *)
Definition mask_subset (a b : Z) : Prop := Z.land b a = a.

(** Going from [m] to [m'] clears no error bit, neither on the motor nor on
    the axis, and does not open the PWM gate. *)
Definition no_unsafe_effect (m m' : Motor) : Prop :=
  mask_subset (error_ m) (error_ m')
  /\ mask_subset (axis_error_ m) (axis_error_ m')
  /\ (armed_state_ m' = armed_state_ m \/ armed_state_ m' = DISARMED).

(** [x] is neither below [lo] nor above [hi] (binary32 comparisons, so a NaN
    passes). *)
Definition not_outside (lo hi x : float32) : Prop :=
  (x <? lo) = false /\ (hi <? x) = false.

(** [m'] has the configuration, the calibration flag, the controller gains,
    the current limits and the amplifier scaling of [m]. *)
Definition same_tuning (m m' : Motor) : Prop :=
  config_ m' = config_ m
  /\ is_calibrated_ m' = is_calibrated_ m
  /\ p_gain (current_control_ m') = p_gain (current_control_ m)
  /\ i_gain (current_control_ m') = i_gain (current_control_ m)
  /\ max_allowed_current (current_control_ m')
     = max_allowed_current (current_control_ m)
  /\ overcurrent_trip_level (current_control_ m')
     = overcurrent_trip_level (current_control_ m)
  /\ I_measured_report_filter_k (current_control_ m')
     = I_measured_report_filter_k (current_control_ m)
  /\ phase_current_rev_gain_ m' = phase_current_rev_gain_ m
  /\ shunt_conductance_ m' = shunt_conductance_ m.

(** [m'] differs from [m], as far as configuration and calibration flag go,
    at most in the two identified phase parameters. *)
Definition only_phase_parameters_written (m m' : Motor) : Prop :=
  (exists R L,
     config_ m'
     = set_phase_resistance R (set_phase_inductance L (config_ m)))
  /\ is_calibrated_ m' = is_calibrated_ m.

(** Fresh timings have been handed over and nothing else of the safety
    state has moved. *)
Definition published_cleanly (m m' : Motor) : Prop :=
  next_timings_valid_ m' = true
  /\ error_ m' = error_ m
  /\ axis_error_ m' = axis_error_ m
  /\ armed_state_ m' = armed_state_ m
  /\ extern_calls_ m' = extern_calls_ m.

(** Going from [m] to [m'], every slot of the timing log either keeps its
    value, or is one of [slots] and holds, reduced to 16 bits, a reading of
    the profiling counter taken on the way. *)
Definition timing_slots_written {env : Env} (slots : list TimingLog_t)
    (m m' : Motor) : Prop :=
  (htim13_reads_ m <= htim13_reads_ m')%Z
  /\ forall idx : TimingLog_t,
       timing_log_ m' idx = timing_log_ m idx
       \/ (In idx slots
           /\ exists n : Z,
                (htim13_reads_ m <= n < htim13_reads_ m')%Z
                /\ timing_log_ m' idx
                   = ((clocks_per_cnt * htim13_CNT n) mod 2 ^ 16)%Z).

(** The state [m'] is the result of a [set_error] call. *)
Inductive went_through_set_error {env : Env} (m' : Motor) : Prop :=
| through_set_error (kind : Error) (m0 : Motor) :
    m' = set_error kind m0 -> went_through_set_error m'.

(** * Properties *)

(** ** Fault reporting *)

Section FaultReporting.

Context {env : Env}.

Lemma lor_land_same (a b : Z) : Z.land (Z.lor a b) b = b.
Proof.
  apply Z.bits_inj'. intros n _.
  rewrite Z.land_spec, Z.lor_spec.
  destruct (Z.testbit a n), (Z.testbit b n); reflexivity.
Qed.

Lemma set_error_effects (kind : Error) (m : Motor) :
  error_ (set_error kind m) = Z.lor (error_ m) (error_code kind)
  /\ axis_error_ (set_error kind m)
     = Z.lor (axis_error_ m) AXIS_ERROR_MOTOR_FAILED
  /\ armed_state_ (set_error kind m) = DISARMED
  /\ extern_calls_ (set_error kind m)
     = CALL_UPDATE_BRAKE_CURRENT :: CALL_DISARM_MOTOR_PWM :: extern_calls_ m
  /\ next_timings_ (set_error kind m) = next_timings_ m
  /\ next_timings_valid_ (set_error kind m) = next_timings_valid_ m
  /\ config_ (set_error kind m) = config_ m
  /\ current_control_ (set_error kind m) = current_control_ m.
Proof. repeat split. Qed.

Lemma went_through_set_error_visible (m' : Motor) :
  went_through_set_error m' ->
  exists kind,
    error_set kind (error_ m')
    /\ Z.land (axis_error_ m') AXIS_ERROR_MOTOR_FAILED
       = AXIS_ERROR_MOTOR_FAILED
    /\ armed_state_ m' = DISARMED.
Proof.
  intros [kind m0 ->]. exists kind. unfold error_set. cbn.
  split; [apply lor_land_same|]. split; [apply lor_land_same|reflexivity].
Qed.

Lemma enqueue_modulation_timings_failure (mod_alpha mod_beta : float32)
    (m : Motor) :
  fst (enqueue_modulation_timings mod_alpha mod_beta m) = false ->
  went_through_set_error
    (snd (enqueue_modulation_timings mod_alpha mod_beta m)).
Proof.
  unfold enqueue_modulation_timings.
  destruct (is_nan mod_alpha || is_nan mod_beta).
  - intros _. now eapply through_set_error.
  - destruct (SVM mod_alpha mod_beta) as [[[tA tB] tC] success].
    destruct success; cbn; [discriminate|].
    intros _. now eapply through_set_error.
Qed.

Lemma enqueue_voltage_timings_failure (v_alpha v_beta : float32)
    (m : Motor) :
  fst (enqueue_voltage_timings v_alpha v_beta m) = false ->
  went_through_set_error (snd (enqueue_voltage_timings v_alpha v_beta m)).
Proof.
  unfold enqueue_voltage_timings.
  match goal with
  | |- context [enqueue_modulation_timings ?a ?b m] =>
      pose proof (enqueue_modulation_timings_failure a b m) as H;
      destruct (enqueue_modulation_timings a b m) as [[|] m1]
  end; cbn in *; [discriminate|exact H].
Qed.

Lemma FOC_voltage_failure (v_d v_q pwm_phase : float32) (m : Motor) :
  fst (FOC_voltage v_d v_q pwm_phase m) = false ->
  went_through_set_error (snd (FOC_voltage v_d v_q pwm_phase m)).
Proof. apply enqueue_voltage_timings_failure. Qed.

Lemma FOC_current_failure
    (Id_des Iq_des I_phase pwm_phase phase_vel : float32) (m : Motor) :
  fst (FOC_current Id_des Iq_des I_phase pwm_phase phase_vel m) = false ->
  went_through_set_error
    (snd (FOC_current Id_des Iq_des I_phase pwm_phase phase_vel m)).
Proof.
  unfold FOC_current.
  destruct (current_sense_saturated _);
    [intros _; now eapply through_set_error|].
  destruct (measured_dq _ _) as [Id Iq].
  destruct (current_limit_violated _ _ _);
    [intros _; now eapply through_set_error|].
  destruct (pi_modulation _ _ _ _ _ _) as [mod_d mod_q].
  destruct (mod_scalefactor mod_d mod_q <? one);
    match goal with
    | |- context [enqueue_modulation_timings ?a ?b ?m1] =>
        pose proof (enqueue_modulation_timings_failure a b m1) as H;
        destruct (enqueue_modulation_timings a b m1) as [[|] m2]
    end; cbn in *; solve [discriminate | exact H].
Qed.

Lemma update_acim_config (id iq phase phase_vel ilim : float32) (m : Motor) :
  config_ (snd (update_acim id iq phase phase_vel ilim m)) = config_ m.
Proof.
  unfold update_acim. destruct (acim_autoflux_enable (config_ m)); reflexivity.
Qed.

Lemma update_failure (torque_setpoint phase phase_vel : float32)
    (m : Motor) :
  fst (update torque_setpoint phase phase_vel m) = false ->
  went_through_set_error (snd (update torque_setpoint phase phase_vel m)).
Proof.
  unfold update.
  destruct (motor_type (config_ m)) eqn:Hmt; cbn; rewrite ?Hmt.
  - apply FOC_current_failure.
  - apply FOC_voltage_failure.
  - match goal with
    | |- context [update_acim ?a ?b ?c ?d ?e m] =>
        pose proof (update_acim_config a b c d e m) as Hcfg;
        destruct (update_acim a b c d e m) as [[[id ph] pv] m1]
    end.
    cbn in Hcfg. rewrite Hcfg, Hmt. apply FOC_current_failure.
  - intros _. now eapply through_set_error.
Qed.

End FaultReporting.

(** ** The modulation hand-off *)

Section Enqueue.

Context {env : Env}.

(** C3.  [enqueue_modulation_timings] has exactly three outcomes.  A NaN
    input: MODULATION_IS_NAN is OR-ed into the error mask, PWM is disarmed,
    the result is false.  Otherwise a failing SVM: the same with
    MODULATION_MAGNITUDE.  Otherwise: the three duty counts are written,
    [next_timings_valid_] becomes true, the result is true and no error is
    raised.  In the two failing outcomes [next_timings_] and
    [next_timings_valid_] keep their previous values. *)
Theorem enqueue_modulation_timings_outcomes
    (mod_alpha mod_beta : float32) (m : Motor) :
  let r := enqueue_modulation_timings mod_alpha mod_beta m in
  let failed_with kind :=
    fst r = false
    /\ snd r = set_error kind m
    /\ error_ (snd r) = Z.lor (error_ m) (error_code kind)
    /\ armed_state_ (snd r) = DISARMED
    /\ next_timings_valid_ (snd r) = next_timings_valid_ m
    /\ next_timings_ (snd r) = next_timings_ m in
  match is_nan mod_alpha || is_nan mod_beta, SVM mod_alpha mod_beta with
  | true, _ => failed_with ERROR_MODULATION_IS_NAN
  | false, (_, _, _, false) => failed_with ERROR_MODULATION_MAGNITUDE
  | false, (tA, tB, tC, true) =>
      fst r = true
      /\ next_timings_ (snd r)
         = (to_uint16 (tA * of_Z TIM_1_8_PERIOD_CLOCKS),
            to_uint16 (tB * of_Z TIM_1_8_PERIOD_CLOCKS),
            to_uint16 (tC * of_Z TIM_1_8_PERIOD_CLOCKS))
      /\ next_timings_valid_ (snd r) = true
      /\ error_ (snd r) = error_ m
      /\ armed_state_ (snd r) = armed_state_ m
  end.
Proof.
  unfold enqueue_modulation_timings.
  destruct (is_nan mod_alpha || is_nan mod_beta).
  - cbn. repeat split.
  - destruct (SVM mod_alpha mod_beta) as [[[tA tB] tC] [|]];
      cbn; repeat split.
Qed.

Lemma enqueue_modulation_timings_Id_setpoint (mod_alpha mod_beta : float32)
    (m : Motor) :
  Id_setpoint
    (current_control_ (snd (enqueue_modulation_timings mod_alpha mod_beta m)))
  = Id_setpoint (current_control_ m).
Proof.
  unfold enqueue_modulation_timings.
  destruct (is_nan mod_alpha || is_nan mod_beta); [reflexivity|].
  destruct (SVM mod_alpha mod_beta) as [[[tA tB] tC] [|]]; reflexivity.
Qed.

Lemma FOC_voltage_Id_setpoint (v_d v_q pwm_phase : float32) (m : Motor) :
  Id_setpoint (current_control_ (snd (FOC_voltage v_d v_q pwm_phase m)))
  = Id_setpoint (current_control_ m).
Proof.
  unfold FOC_voltage, enqueue_voltage_timings.
  match goal with
  | |- context [enqueue_modulation_timings ?a ?b m] =>
      pose proof (enqueue_modulation_timings_Id_setpoint a b m) as H;
      destruct (enqueue_modulation_timings a b m) as [[|] m1]
  end; exact H.
Qed.

Lemma FOC_current_Id_setpoint
    (Id_des Iq_des I_phase pwm_phase phase_vel : float32) (m : Motor) :
  Id_setpoint
    (current_control_
       (snd (FOC_current Id_des Iq_des I_phase pwm_phase phase_vel m)))
  = Id_setpoint (current_control_ m).
Proof.
  unfold FOC_current.
  destruct (current_sense_saturated _); [reflexivity|].
  destruct (measured_dq _ _) as [Id Iq].
  destruct (current_limit_violated _ _ _); [reflexivity|].
  destruct (pi_modulation _ _ _ _ _ _) as [mod_d mod_q].
  destruct (mod_scalefactor mod_d mod_q <? one);
    match goal with
    | |- context [enqueue_modulation_timings ?a ?b ?m1] =>
        pose proof (enqueue_modulation_timings_Id_setpoint a b m1) as H;
        destruct (enqueue_modulation_timings a b m1) as [[|] m2]
    end; exact H.
Qed.

End Enqueue.

(** ** Arming *)

(** C7.  Whatever [arm()] returns, it leaves both integrators, the rotor
    flux estimate and the bus-current estimate at zero: the reset happens
    before the wait for a current measurement and before PWM is unlocked. *)
Theorem arm_resets_current_control {env : Env}
    (wait_for_current_meas : bool) (m : Motor) :
  let m' := snd (arm wait_for_current_meas m) in
  v_current_control_integral_d (current_control_ m') = zero
  /\ v_current_control_integral_q (current_control_ m') = zero
  /\ acim_rotor_flux (current_control_ m') = zero
  /\ Ibus (current_control_ m') = zero.
Proof. destruct wait_for_current_meas; repeat split. Qed.

(** ** The current limit check of [FOC_current] *)

Section CurrentLimit.

Context {env : Env}.

Lemma FOC_current_sense_saturation
    (Id_des Iq_des I_phase pwm_phase phase_vel : float32) (m : Motor) :
  current_sense_saturated m = true ->
  FOC_current Id_des Iq_des I_phase pwm_phase phase_vel m
  = (false,
     set_error ERROR_CURRENT_SENSE_SATURATION
       (with_current_control (set_Iq_setpoint Iq_des) m)).
Proof.
  intros Hsat. unfold FOC_current.
  change (current_sense_saturated
            (with_current_control (set_Iq_setpoint Iq_des) m))
    with (current_sense_saturated m).
  now rewrite Hsat.
Qed.

(** C1 (amended).  When the phase-current samples pass the current-sense
    saturation check and the measured d/q currents satisfy
    Id² + Iq² > (effective_current_lim + current_lim_margin)², the call
    ORs CURRENT_LIMIT_VIOLATION into the error mask, disarms PWM, returns
    false, and leaves [next_timings_] and [next_timings_valid_] as they
    were. *)
Theorem FOC_current_limit_violation
    (Id_des Iq_des I_phase pwm_phase phase_vel : float32) (m : Motor) :
  current_sense_saturated m = false ->
  current_limit_violated (fst (measured_dq I_phase m))
    (snd (measured_dq I_phase m)) m = true ->
  let r := FOC_current Id_des Iq_des I_phase pwm_phase phase_vel m in
  fst r = false
  /\ error_ (snd r)
     = Z.lor (error_ m) (error_code ERROR_CURRENT_LIMIT_VIOLATION)
  /\ error_set ERROR_CURRENT_LIMIT_VIOLATION (error_ (snd r))
  /\ armed_state_ (snd r) = DISARMED
  /\ next_timings_ (snd r) = next_timings_ m
  /\ next_timings_valid_ (snd r) = next_timings_valid_ m.
Proof.
  intros Hsat Hviol. unfold FOC_current.
  change (current_sense_saturated
            (with_current_control (set_Iq_setpoint Iq_des) m))
    with (current_sense_saturated m).
  rewrite Hsat.
  change (measured_dq I_phase
            (with_current_control (set_Iq_setpoint Iq_des) m))
    with (measured_dq I_phase m).
  destruct (measured_dq I_phase m) as [Id Iq]. cbn in Hviol.
  match goal with
  | |- context [current_limit_violated Id Iq ?m1] =>
      change (current_limit_violated Id Iq m1)
        with (current_limit_violated Id Iq m)
  end.
  rewrite Hviol. cbn.
  repeat split. unfold error_set. cbn. apply lor_land_same.
Qed.

End CurrentLimit.

(** C1 (as worded, refuted).  With a phase-B sample of 100 A against a trip
    level of 66 A, the measured d/q currents are far beyond the current
    limit, yet the call stops at the earlier current-sense saturation check:
    the error mask holds CURRENT_SENSE_SATURATION only. *)
Lemma FOC_current_saturation_masks_limit_violation :
  (let env := Bench.board true true in
   let m := Bench.motor MOTOR_TYPE_HIGH_CURRENT (of_Z 100) (of_Z 1) in
   let r := FOC_current zero zero zero zero zero m in
   current_limit_violated (fst (measured_dq zero m))
     (snd (measured_dq zero m)) m = true
   /\ fst r = false
   /\ error_ (snd r) = error_code ERROR_CURRENT_SENSE_SATURATION
   /\ ~ error_set ERROR_CURRENT_LIMIT_VIOLATION (error_ (snd r)))
  /\ ~ limit_violation_always_reported.
Proof.
  assert (Hlocal :
    let env := Bench.board true true in
    let m := Bench.motor MOTOR_TYPE_HIGH_CURRENT (of_Z 100) (of_Z 1) in
    let r := FOC_current zero zero zero zero zero m in
    current_limit_violated (fst (measured_dq zero m))
      (snd (measured_dq zero m)) m = true
    /\ fst r = false
    /\ error_ (snd r) = error_code ERROR_CURRENT_SENSE_SATURATION
    /\ ~ error_set ERROR_CURRENT_LIMIT_VIOLATION (error_ (snd r))).
  { vm_compute. repeat split. discriminate. }
  split; [exact Hlocal|].
  intros Hall. cbv zeta in Hlocal.
  destruct Hlocal as (Hviol & _ & _ & Hnot).
  apply Hnot.
  exact (proj1 (proj2 (Hall (Bench.board true true) zero zero zero zero zero
                         (Bench.motor MOTOR_TYPE_HIGH_CURRENT (of_Z 100)
                            (of_Z 1)) Hviol))).
Qed.

(** Both phase samples at 10 A: below the 66 A trip level, beyond the 18 A
    current limit. *)
Lemma FOC_current_limit_violation_witness :
  let env := Bench.board true true in
  let m := Bench.motor MOTOR_TYPE_HIGH_CURRENT (of_Z 10) (of_Z 10) in
  let r := FOC_current zero zero zero zero zero m in
  current_sense_saturated m = false
  /\ current_limit_violated (fst (measured_dq zero m))
       (snd (measured_dq zero m)) m = true
  /\ fst r = false
  /\ error_ (snd r)
     = Z.lor (error_ m) (error_code ERROR_CURRENT_LIMIT_VIOLATION)
  /\ error_set ERROR_CURRENT_LIMIT_VIOLATION (error_ (snd r))
  /\ armed_state_ (snd r) = DISARMED
  /\ next_timings_ (snd r) = next_timings_ m
  /\ next_timings_valid_ (snd r) = next_timings_valid_ m.
Proof.
  cbv zeta.
  assert (Hsat : current_sense_saturated
                   (Bench.motor MOTOR_TYPE_HIGH_CURRENT (of_Z 10) (of_Z 10))
                 = false) by (vm_compute; reflexivity).
  assert (Hviol :
    current_limit_violated
      (fst (@measured_dq (Bench.board true true) zero
              (Bench.motor MOTOR_TYPE_HIGH_CURRENT (of_Z 10) (of_Z 10))))
      (snd (@measured_dq (Bench.board true true) zero
              (Bench.motor MOTOR_TYPE_HIGH_CURRENT (of_Z 10) (of_Z 10))))
      (Bench.motor MOTOR_TYPE_HIGH_CURRENT (of_Z 10) (of_Z 10)) = true)
    by (vm_compute; reflexivity).
  split; [exact Hsat|]. split; [exact Hviol|].
  exact (@FOC_current_limit_violation (Bench.board true true)
           zero zero zero zero zero
           (Bench.motor MOTOR_TYPE_HIGH_CURRENT (of_Z 10) (of_Z 10))
           Hsat Hviol).
Defined.

(** ** [setup] and calibration: failures that bypass [set_error] *)

Section SilentFailures.

Context {env : Env}.

Lemma setup_gate_driver_failure (m : Motor) :
  gate_driver_init = false ->
  setup m = (false, set_error ERROR_DRV_FAULT m).
Proof. intros H. unfold setup. now rewrite H. Qed.

Lemma setup_gain_failure (m : Motor) :
  gate_driver_init = true ->
  fst (opamp_set_gain
         (lit 90 100 * lit 135 100 * shunt_conductance_ m
          / requested_current_range (config_ m)) nan) = false ->
  setup m = (false, m).
Proof.
  intros Hgate Hgain. unfold setup. rewrite Hgate. cbn.
  destruct (opamp_set_gain _ _) as [success actual_gain].
  cbn in Hgain. now subst success.
Qed.

Lemma run_calibration_unknown_type (samples_R samples_L : list Iph_BC_t)
    (m : Motor) :
  motor_type (config_ m) = MOTOR_TYPE_UNKNOWN ->
  run_calibration samples_R samples_L m = (false, m).
Proof. intros H. unfold run_calibration. now rewrite H. Qed.

(** Once the accumulation loop has ended without an axis error, the
    identified inductance is stored before it is validated. *)
Lemma measure_phase_inductance_finish_stores_first
    (voltage_low voltage_high Ialphas0 Ialphas1 : float32) (m : Motor) :
  axis_error_ m = AXIS_ERROR_NONE ->
  phase_inductance
    (config_
       (snd (measure_phase_inductance_finish voltage_low voltage_high
               Ialphas0 Ialphas1 m)))
  = identified_inductance voltage_low voltage_high Ialphas0 Ialphas1.
Proof.
  intros Hax. unfold measure_phase_inductance_finish. rewrite Hax. cbn.
  destruct (_ || _); reflexivity.
Qed.

(** An out-of-range identification is reported, with the rejected value
    already in the configuration. *)
Lemma measure_phase_inductance_finish_out_of_range
    (voltage_low voltage_high Ialphas0 Ialphas1 : float32) (m : Motor) :
  axis_error_ m = AXIS_ERROR_NONE ->
  let L := identified_inductance voltage_low voltage_high Ialphas0 Ialphas1 in
  (L <? lit 2 1000000) || (L >? lit 4000 1000000) = true ->
  measure_phase_inductance_finish voltage_low voltage_high Ialphas0 Ialphas1 m
  = (false,
     set_error ERROR_PHASE_INDUCTANCE_OUT_OF_RANGE
       (with_config (set_phase_inductance L) m)).
Proof.
  intros Hax L Hout. unfold measure_phase_inductance_finish.
  rewrite Hax. cbn [Z.eqb AXIS_ERROR_NONE negb]. fold L. now rewrite Hout.
Qed.

End SilentFailures.

(** C2 (failing input).  Gate driver initialised, amplifier gain rejected:
    [setup] returns false and the motor is exactly as before; no error bit,
    no axis notification, no disarm call. *)
Theorem setup_gain_failure_is_silent :
  let env := Bench.board true false in
  let m := Bench.motor MOTOR_TYPE_HIGH_CURRENT zero zero in
  setup m = (false, m)
  /\ error_ (snd (setup m)) = 0
  /\ axis_error_ (snd (setup m)) = 0
  /\ extern_calls_ (snd (setup m)) = []
  /\ ~ went_through_set_error (snd (setup m)).
Proof.
  cbv zeta.
  assert (H : @setup (Bench.board true false)
                (Bench.motor MOTOR_TYPE_HIGH_CURRENT zero zero)
              = (false, Bench.motor MOTOR_TYPE_HIGH_CURRENT zero zero))
    by (apply setup_gain_failure; reflexivity).
  rewrite H. repeat split.
  intros [kind m0 Heq]. apply (f_equal extern_calls_) in Heq. discriminate.
Qed.

(** C4 (failing input).  A full run of 5000 test-voltage pairs at ±1 V on a
    winding of about 10 mH: the call raises PHASE_INDUCTANCE_OUT_OF_RANGE and
    returns false, and [config_.phase_inductance] holds the rejected value
    (10736961·2^-30 H, above 4 mH).  With equal test voltages and no current
    the identified value is NaN, which passes the range test: the call
    returns true with NaN stored. *)
Theorem measure_phase_inductance_keeps_rejected_value :
  let env := Bench.board true true in
  let m := Bench.motor MOTOR_TYPE_HIGH_CURRENT zero zero in
  let r :=
    measure_phase_inductance (- of_Z 1) (of_Z 1)
      (Bench.alternating_samples (lit 3125 1000000) 5000) m in
  let r0 :=
    measure_phase_inductance (- zero) zero
      (Bench.alternating_samples zero 5000) m in
  (fst r = false
   /\ error_ (snd r) = error_code ERROR_PHASE_INDUCTANCE_OUT_OF_RANGE
   /\ armed_state_ (snd r) = DISARMED
   /\ phase_inductance (config_ (snd r)) = S754_finite false 10736961 (-30)
   /\ (phase_inductance (config_ (snd r)) >? lit 4000 1000000) = true)
  /\ (fst r0 = true
      /\ error_ (snd r0) = 0
      /\ phase_inductance (config_ (snd r0)) = S754_nan).
Proof. vm_compute. repeat split. Qed.

(** ** Facts about binary32 arithmetic *)

Section Order.

Local Open Scope Z_scope.
(** *** The order of binary32 comparisons *)

Ltac order_cases :=
  repeat match goal with
         | |- context [Z.compare ?a ?b] =>
             let H := fresh in destruct (Z.compare_spec a b) as [H|H|H]
         | H : context [Z.compare ?a ?b] |- _ =>
             let H' := fresh in destruct (Z.compare_spec a b) as [H'|H'|H']
         | |- context [Pos.compare ?a ?b] =>
             let H := fresh in destruct (Pos.compare_spec a b) as [H|H|H]
         | H : context [Pos.compare ?a ?b] |- _ =>
             let H' := fresh in destruct (Pos.compare_spec a b) as [H'|H'|H']
         end;
  cbn in *; try discriminate; try reflexivity; try lia.

Lemma ltb_irrefl (a : float32) : F32.ltb a a = false.
Proof.
  unfold F32.ltb, SFltb.
  destruct a as [[|]|[|]| |[|] m e]; cbn; try reflexivity;
    change (Pos.compare_cont Eq m m) with (Pos.compare m m);
    rewrite Z.compare_refl, Pos.compare_refl; reflexivity.
Qed.

Lemma ltb_trans (a b c : float32) :
  F32.ltb a b = true -> F32.ltb b c = true -> F32.ltb a c = true.
Proof.
  unfold F32.ltb, SFltb.
  destruct a as [[|]|[|]| |[|] ma ea], b as [[|]|[|]| |[|] mb eb],
           c as [[|]|[|]| |[|] mc ec];
    cbn; try discriminate; try reflexivity;
    change (Pos.compare_cont Eq) with Pos.compare;
    order_cases.
Qed.

Lemma ltb_asym (a b : float32) :
  F32.ltb a b = true -> F32.ltb b a = false.
Proof.
  intros Hab. destruct (F32.ltb b a) eqn:Hba; [|reflexivity].
  rewrite <- (ltb_irrefl a). symmetry. now apply ltb_trans with b.
Qed.
End Order.

Section Rounding.

Local Open Scope Z_scope.

Lemma digits2_pos_bounds (m : positive) :
  2 ^ (Zpos (digits2_pos m) - 1) <= Zpos m < 2 ^ Zpos (digits2_pos m).
Proof.
  induction m as [p IH|p IH|]; cbn [digits2_pos].
  - rewrite Pos2Z.inj_succ, Z.pow_succ_r by lia.
    replace (Z.succ (Zpos (digits2_pos p)) - 1)
      with (Z.succ (Zpos (digits2_pos p) - 1)) by lia.
    rewrite Z.pow_succ_r by lia. lia.
  - rewrite Pos2Z.inj_succ, Z.pow_succ_r by lia.
    replace (Z.succ (Zpos (digits2_pos p)) - 1)
      with (Z.succ (Zpos (digits2_pos p) - 1)) by lia.
    rewrite Z.pow_succ_r by lia. lia.
  - cbn. lia.
Qed.

Lemma Zdigits2_bounds (m : Z) :
  0 < m -> 2 ^ (Zdigits2 m - 1) <= m < 2 ^ Zdigits2 m.
Proof.
  destruct m as [|p|p]; try lia. intros _. apply digits2_pos_bounds.
Qed.

Lemma Zdigits2_nonneg (m : Z) : 0 <= Zdigits2 m.
Proof. destruct m; cbn; lia. Qed.

(** A number below [2^k] has at most [k] digits; one from [2^k] on has
    more than [k]. *)
Lemma Zdigits2_le (m k : Z) : 0 < m -> 0 <= k -> m < 2 ^ k -> Zdigits2 m <= k.
Proof.
  intros Hm Hk Hlt. pose proof (Zdigits2_bounds m Hm) as [Hlo _].
  destruct (Z_le_gt_dec (Zdigits2 m) k) as [|Hgt]; [assumption|].
  assert (2 ^ k <= 2 ^ (Zdigits2 m - 1)) by (apply Z.pow_le_mono_r; lia).
  lia.
Qed.

Lemma Zdigits2_gt (m k : Z) : 0 <= k -> 2 ^ k <= m -> k < Zdigits2 m.
Proof.
  intros Hk Hle.
  assert (Hm : 0 < m) by (pose proof (Z.pow_pos_nonneg 2 k); lia).
  pose proof (Zdigits2_bounds m Hm) as [_ Hhi].
  destruct (Z_lt_le_dec k (Zdigits2 m)) as [|Hge]; [assumption|].
  assert (2 ^ Zdigits2 m <= 2 ^ k)
    by (apply Z.pow_le_mono_r; [lia|assumption]).
  lia.
Qed.

Lemma shr_1_m (r : shr_record) :
  0 <= shr_m r -> shr_m (shr_1 r) = shr_m r / 2.
Proof.
  destruct r as [m r s]. cbn [shr_m]. intros Hm.
  destruct m as [|[p|p|]|p]; cbn [shr_1 shr_m]; try lia;
    first [ reflexivity
          | apply Z.div_unique with 1; lia
          | apply Z.div_unique with 0; lia ].
Qed.

Lemma pow2_xI (p : positive) : 2 ^ Zpos p~1 = 2 * 2 ^ Zpos p * 2 ^ Zpos p.
Proof.
  change (Zpos p~1) with (2 * Zpos p + 1).
  replace (2 * Zpos p + 1) with (1 + Zpos p + Zpos p) by lia.
  rewrite Z.pow_add_r, Z.pow_add_r by lia. lia.
Qed.

Lemma pow2_xO (p : positive) : 2 ^ Zpos p~0 = 2 ^ Zpos p * 2 ^ Zpos p.
Proof.
  change (Zpos p~0) with (2 * Zpos p).
  replace (2 * Zpos p) with (Zpos p + Zpos p) by lia.
  rewrite Z.pow_add_r by lia. lia.
Qed.

Lemma iter_pos_shr_1_m (p : positive) (r : shr_record) :
  0 <= shr_m r ->
  shr_m (iter_pos shr_1 p r) = shr_m r / 2 ^ Zpos p.
Proof.
  revert r. induction p as [p IH|p IH|]; intros r Hr; cbn [iter_pos].
  - assert (Hp : 0 < 2 ^ Zpos p) by (apply Z.pow_pos_nonneg; lia).
    assert (H1 : 0 <= shr_m (shr_1 r))
      by (rewrite shr_1_m by assumption; apply Z.div_pos; lia).
    assert (H2 : 0 <= shr_m (iter_pos shr_1 p (shr_1 r)))
      by (rewrite IH by assumption; apply Z.div_pos; assumption).
    rewrite IH, IH, shr_1_m by assumption.
    rewrite !Z.div_div, pow2_xI by lia. f_equal. lia.
  - assert (Hp : 0 < 2 ^ Zpos p) by (apply Z.pow_pos_nonneg; lia).
    assert (H2 : 0 <= shr_m (iter_pos shr_1 p r))
      by (rewrite IH by assumption; apply Z.div_pos; assumption).
    rewrite IH, IH by assumption.
    rewrite !Z.div_div, pow2_xO by lia. f_equal.
  - rewrite shr_1_m by assumption. reflexivity.
Qed.

Lemma shr_fexp_m (m e : Z) (l : location) :
  0 <= m ->
  shr_m (fst (shr_fexp prec emax m e l)) = m / 2 ^ shift_of m e
  /\ snd (shr_fexp prec emax m e l) = e + shift_of m e.
Proof.
  intros Hm. unfold shr_fexp, shr, shift_of.
  assert (Hrec : shr_m (shr_record_of_loc m l) = m)
    by (destruct l as [|[| |]]; reflexivity).
  destruct (fexp prec emax (Zdigits2 m + e) - e) as [|p|p] eqn:Hn;
    cbn [fst snd].
  - rewrite Hrec, Z.max_id, Z.pow_0_r, Z.div_1_r. lia.
  - rewrite iter_pos_shr_1_m, Hrec by (rewrite Hrec; assumption).
    replace (Z.max 0 (Zpos p)) with (Zpos p) by lia. lia.
  - rewrite Hrec. replace (Z.max 0 (Zneg p)) with 0 by lia.
    rewrite Z.pow_0_r, Z.div_1_r. lia.
Qed.

Lemma round_nearest_even_bounds (m : Z) (l : location) :
  m <= round_nearest_even m l <= m + 1.
Proof.
  destruct l as [|[| |]]; cbn; try lia. destruct (Z.even m); lia.
Qed.

(** Rounding a non-negative integer mantissa: one shift to the target
    exponent, at most one unit added, and a renormalising shift. *)
Lemma binary_round_aux_spec (s : bool) (m e : Z) (l : location) :
  0 <= m ->
  exists m2,
    m / 2 ^ shift_of m e <= m2 <= m / 2 ^ shift_of m e + 1
    /\ binary_round_aux prec emax s m e l
       = let e1 := e + shift_of m e in
         let e2 := e1 + shift_of m2 e1 in
         match m2 / 2 ^ shift_of m2 e1 with
         | 0 => S754_zero s
         | Zpos p =>
             if e2 <=? emax - prec then S754_finite s p e2
             else S754_infinity s
         | Zneg _ => S754_nan
         end.
Proof.
  intros Hm. unfold binary_round_aux.
  pose proof (shr_fexp_m m e l Hm) as [Hm1 He1].
  destruct (shr_fexp prec emax m e l) as [mrs' e'].
  cbn [fst snd] in Hm1, He1.
  set (m2 := round_nearest_even (shr_m mrs') (loc_of_shr_record mrs')).
  assert (Hm2 : shr_m mrs' <= m2 <= shr_m mrs' + 1)
    by apply round_nearest_even_bounds.
  assert (H0 : 0 <= shr_m mrs')
    by (rewrite Hm1; apply Z.div_pos; [assumption|];
        apply Z.pow_pos_nonneg; unfold shift_of; lia).
  pose proof (shr_fexp_m m2 e' loc_Exact ltac:(lia)) as [Hm3 He3].
  destruct (shr_fexp prec emax m2 e' loc_Exact) as [mrs'' e''].
  cbn [fst snd] in Hm3, He3.
  exists m2. split; [rewrite <- Hm1; exact Hm2|].
  cbv zeta. rewrite <- He1, <- He3, <- Hm3. reflexivity.
Qed.

End Rounding.

Section Decay.

Local Open Scope Z_scope.

Lemma valid_finite (s : bool) (mx : positive) (ex : Z) :
  F32.valid (S754_finite s mx ex) = true ->
  Z.max (Zpos (digits2_pos mx) + ex - 24) (-149) = ex /\ ex <= 104.
Proof.
  unfold F32.valid, valid_binary, bounded, canonical_mantissa, fexp, emin,
    prec, emax.
  intros H. apply andb_prop in H as [H1 H2].
  apply Z.eqb_eq in H1. apply Z.leb_le in H2. lia.
Qed.

Lemma ltb_finite_same_exp (mx p : positive) (e : Z) :
  (p <= mx)%positive ->
  F32.ltb (S754_finite false mx e) (S754_finite false p e) = false.
Proof.
  intros Hle. unfold F32.ltb, SFltb, SFcompare.
  rewrite Z.compare_refl.
  change (Pos.compare_cont Eq mx p) with (Pos.compare mx p).
  destruct (Pos.compare_spec mx p); try reflexivity. lia.
Qed.

Lemma ltb_finite_lower_exp (mx p : positive) (e e' : Z) :
  e' < e ->
  F32.ltb (S754_finite false mx e) (S754_finite false p e') = false.
Proof.
  intros Hlt. unfold F32.ltb, SFltb, SFcompare.
  destruct (Z.compare_spec e e'); try reflexivity; lia.
Qed.

(** Multiplying a well-formed datum by [0.99f] never yields a larger
    magnitude. *)
Lemma mul_099_magnitude (x : float32) :
  F32.valid x = true ->
  (F32.abs (x * lit 99 100) >? F32.abs x)%f32 = false.
Proof.
  intros Hvalid.
  change (lit 99 100) with (S754_finite false 16609444 (-24)).
  unfold F32.gtb.
  destruct x as [s|s| |s mx ex]; try reflexivity.
  apply valid_finite in Hvalid as [Hcanon Hmax].
  unfold F32.mul, SFmul.
  change (Zpos (mx * 16609444)) with (Zpos mx * 16609444).
  set (m := Zpos mx * 16609444). set (e := ex + -24).
  set (d := Zpos (digits2_pos mx)) in *.
  pose proof (digits2_pos_bounds mx) as [Hlo Hhi]. fold d in Hlo, Hhi.
  assert (Hd : 1 <= d) by (unfold d; lia).
  assert (Hm : 0 < m) by (unfold m; lia).
  (* the product has d+23 or d+24 digits *)
  assert (HD : d + 23 <= Zdigits2 m <= d + 24).
  { split.
    - enough (d + 22 < Zdigits2 m) by lia.
      apply Zdigits2_gt; [lia|].
      replace (d + 22) with ((d - 1) + 23) by lia.
      rewrite Z.pow_add_r by lia. change (2 ^ 23) with 8388608.
      unfold m. nia.
    - apply Zdigits2_le; [assumption|lia|].
      rewrite Z.pow_add_r by lia. change (2 ^ 24) with 16777216.
      unfold m. nia. }
  pose proof (Zdigits2_bounds m Hm) as [HmLo HmHi].
  destruct (binary_round_aux_spec (xorb s false) m e loc_Exact
              ltac:(lia)) as (m2 & Hm2 & ->).
  cbv zeta.
  assert (Hshift : shift_of m e = 24
                   \/ (shift_of m e = 23 /\ d = 24 /\ -149 < ex
                       /\ Zdigits2 m = 47)).
  { unfold shift_of, fexp, emin, prec, emax, e. lia. }
  destruct Hshift as [Hn1 | (Hn1 & Hd24 & Hex & HD47)]; rewrite Hn1 in *.
  - (* same exponent as x *)
    change (2 ^ 24) with 16777216 in Hm2.
    assert (Hq : m / 16777216 < Zpos mx)
      by (apply Z.div_lt_upper_bound; unfold m; lia).
    assert (Hq0 : 0 <= m / 16777216) by (apply Z.div_pos; lia).
    replace (e + 24) with ex by (unfold e; lia).
    assert (Hn2 : shift_of m2 ex = 0).
    { unfold shift_of, fexp, emin, prec, emax.
      destruct (Z.eq_dec m2 0) as [->|Hnz]; [cbn; lia|].
      assert (Zdigits2 m2 <= d).
      { apply Zdigits2_le; [lia|lia|]. lia. }
      lia. }
    rewrite Hn2, Z.pow_0_r, Z.div_1_r, Z.add_0_r.
    destruct m2 as [|p|p]; [reflexivity| |lia].
    replace (ex <=? emax - prec) with true
      by (symmetry; apply Z.leb_le; unfold emax, prec; lia).
    cbn [F32.abs SFabs]. apply ltb_finite_same_exp. lia.
  - (* one exponent below x, unless rounding carries *)
    change (2 ^ 23) with 8388608 in Hm2.
    rewrite HD47 in HmLo, HmHi.
    change (2 ^ (47 - 1)) with 70368744177664 in HmLo.
    change (2 ^ 47) with 140737488355328 in HmHi.
    assert (Hq : 8388608 <= m / 8388608 < 16777216).
    { split; [apply Z.div_le_lower_bound; lia
             |apply Z.div_lt_upper_bound; lia]. }
    replace (e + 23) with (ex - 1) by (unfold e; lia).
    assert (Hdig : 23 < Zdigits2 m2 <= 25).
    { split; [apply Zdigits2_gt; [lia|change (2 ^ 23) with 8388608; lia]|].
      apply Zdigits2_le; [lia|lia|]. change (2 ^ 25) with 33554432. lia. }
    rewrite Hd24 in *. change (2 ^ (24 - 1)) with 8388608 in Hlo.
    destruct (Z.eq_dec (Zdigits2 m2) 25) as [H25|H25].
    + assert (Hn2 : shift_of m2 (ex - 1) = 1)
        by (unfold shift_of, fexp, emin, prec, emax; lia).
      rewrite Hn2. change (2 ^ 1) with 2.
      assert (Hhalf : 0 < m2 / 2 <= 8388608).
      { split; [apply Z.div_str_pos; lia|].
        apply Z.div_le_upper_bound; lia. }
      replace (ex - 1 + 1) with ex by lia.
      destruct (m2 / 2) as [|p|p]; [lia| |lia].
      replace (ex <=? emax - prec) with true
        by (symmetry; apply Z.leb_le; unfold emax, prec; lia).
      cbn [F32.abs SFabs]. apply ltb_finite_same_exp. lia.
    + assert (Hn2 : shift_of m2 (ex - 1) = 0)
        by (unfold shift_of, fexp, emin, prec, emax; lia).
      rewrite Hn2, Z.pow_0_r, Z.div_1_r, Z.add_0_r.
      destruct m2 as [|p|p]; [lia| |lia].
      replace (ex - 1 <=? emax - prec) with true
        by (symmetry; apply Z.leb_le; unfold emax, prec; lia).
      cbn [F32.abs SFabs]. apply ltb_finite_lower_exp. lia.
Qed.

End Decay.

Section DutyCount.

Local Open Scope Z_scope.

Lemma forall_bits_spec (k : nat) :
  forall f, forall_bits k f = true ->
  forall p, Zpos (digits2_pos p) <= Z.of_nat (S k) -> f p = true.
Proof.
  induction k as [|k IH]; intros f H p Hp; cbn [forall_bits] in H;
    apply andb_prop in H as [H1 H].
  - destruct p as [p|p|]; cbn [digits2_pos] in Hp; [lia|lia|exact H1].
  - apply andb_prop in H as [H2 H3].
    destruct p as [p|p|]; cbn [digits2_pos] in Hp.
    + apply (IH _ H3). lia.
    + apply (IH _ H2). lia.
    + exact H1.
Qed.

Lemma small_ints_exact :
  forall_bits 15 (fun p => exact_small_int (Zpos p)) = true.
Proof. vm_compute. reflexivity. Qed.

Lemma of_Z_small (n : Z) :
  0 < n < 2 ^ 16 ->
  exists m e,
    of_Z n = S754_finite false m e
    /\ -23 <= e <= -8 /\ Zpos m = n * 2 ^ (- e).
Proof.
  intros Hn. destruct n as [|p|p]; try lia.
  assert (Hp : exact_small_int (Zpos p) = true).
  { apply (forall_bits_spec 15 (fun p => exact_small_int (Zpos p))
             small_ints_exact).
    change (Zpos (digits2_pos p)) with (Zdigits2 (Zpos p)).
    change (Z.of_nat 16) with 16. apply Zdigits2_le; lia. }
  unfold exact_small_int in Hp.
  destruct (of_Z (Zpos p)) as [| | |[|] m e]; try discriminate.
  exists m, e. split; [reflexivity|].
  apply andb_prop in Hp as [Hp H3]. apply andb_prop in Hp as [H1 H2].
  apply Z.leb_le in H1, H2. apply Z.eqb_eq in H3. lia.
Qed.

Lemma leb_finite_cases (mt mc : positive) (et ec : Z) :
  F32.leb (S754_finite false mt et) (S754_finite false mc ec) = true ->
  et < ec \/ (et = ec /\ Zpos mt <= Zpos mc).
Proof.
  unfold F32.leb, SFleb, SFcompare.
  change (Pos.compare_cont Eq) with Pos.compare.
  destruct (Z.compare_spec et ec) as [Heq|Hlt|Hgt];
    [right|left; lia|discriminate].
  split; [assumption|].
  destruct (Pos.compare_spec mt mc); try discriminate; lia.
Qed.

Lemma leb_one_cases (mt : positive) (et : Z) :
  F32.leb (S754_finite false mt et) one = true ->
  et < -23 \/ (et = -23 /\ Zpos mt <= 8388608).
Proof. exact (leb_finite_cases mt 8388608 et (-23)). Qed.

Lemma on_time_cases (t : float32) :
  on_time t = true ->
  (exists s, t = S754_zero s)
  \/ (exists mt et,
        t = S754_finite false mt et
        /\ -149 <= et /\ Zpos mt <= 2 ^ (- et) /\ et <= -23).
Proof.
  unfold on_time. intros H.
  apply andb_prop in H as [H Hle1]. apply andb_prop in H as [Hv Hle0].
  destruct t as [s|s| |s mt et].
  - left. now exists s.
  - destruct s; discriminate.
  - discriminate.
  - destruct s; [discriminate|]. right. exists mt, et.
    split; [reflexivity|].
    apply valid_finite in Hv as [Hcanon _].
    pose proof (digits2_pos_bounds mt) as [_ Hhi].
    apply leb_one_cases in Hle1 as [Hlt|[-> Hmt]].
    + split; [lia|]. split; [|lia].
      assert (2 ^ Zpos (digits2_pos mt) <= 2 ^ (- et))
        by (apply Z.pow_le_mono_r; lia).
      lia.
    + change (2 ^ (- -23)) with 8388608. lia.
Qed.

Lemma trunc_Qfloor (m : positive) (e : Z) :
  F32.trunc (S754_finite false m e) = Qfloor (to_Q (S754_finite false m e)).
Proof.
  unfold F32.trunc, to_Q. destruct e as [|p|p].
  - rewrite Qfloor_Z. reflexivity.
  - rewrite Qfloor_Z. reflexivity.
  - unfold Qfloor. rewrite Pos2Z.inj_pow. reflexivity.
Qed.

(** The product of an on-time and a 16-bit period count converts to
    [uint16_t] without wrap-around: the stored count is the integer part
    of the product. *)
Lemma duty_count_truncates (t : float32) (period : Z) :
  on_time t = true -> 0 <= period < 2 ^ 16 ->
  to_uint16 (t * of_Z period)%f32 = Qfloor (to_Q (t * of_Z period)%f32).
Proof.
  intros Ht Hperiod.
  destruct (Z.eq_dec period 0) as [->|Hnz].
  { change (of_Z 0) with (S754_zero false).
    destruct (on_time_cases t Ht) as [[s ->]|(mt & et & -> & _)];
      reflexivity. }
  destruct (of_Z_small period ltac:(lia)) as (mP & eP & -> & HeP & HmP).
  destruct (on_time_cases t Ht)
    as [[s ->]|(mt & et & -> & Het & Hmt & Het')]; [reflexivity|].
  unfold F32.mul, SFmul.
  change (Zpos (mt * mP)) with (Zpos mt * Zpos mP).
  set (m := Zpos mt * Zpos mP). set (e := et + eP).
  assert (Hm : 0 < m) by (unfold m; lia).
  assert (He : e <= -31) by (unfold e; lia).
  (* the exact product is at most [period] *)
  assert (Hle : m <= period * 2 ^ (- e)).
  { unfold m, e. replace (- (et + eP)) with (- et + - eP) by lia.
    rewrite Z.pow_add_r by lia.
    pose proof (Z.pow_pos_nonneg 2 (- eP)) as HpP.
    rewrite HmP. nia. }
  change (2 ^ 16) with 65536 in Hperiod.
  set (D := Zdigits2 m).
  assert (HD : D <= 16 - e).
  { apply Zdigits2_le; [assumption|lia|].
    replace (16 - e) with (16 + - e) by lia.
    rewrite Z.pow_add_r by lia. change (2 ^ 16) with 65536.
    pose proof (Z.pow_pos_nonneg 2 (- e)). nia. }
  pose proof (Zdigits2_bounds m Hm) as [_ HmHi]. fold D in HmHi.
  assert (HD0 : 0 <= D) by apply Zdigits2_nonneg.
  destruct (binary_round_aux_spec (xorb false false) m e loc_Exact
              ltac:(lia)) as (m2 & Hm2 & ->).
  cbv zeta. cbn [xorb].
  set (n1 := shift_of m e) in *.
  assert (Hn1 : 0 <= n1 /\ D - 24 <= n1 /\ -149 <= e + n1 <= -8).
  { unfold n1, shift_of, fexp, emin, prec, emax. fold D. lia. }
  set (E1 := e + n1) in *.
  assert (Hpn1 : 0 < 2 ^ n1) by (apply Z.pow_pos_nonneg; lia).
  assert (HpE1 : 256 <= 2 ^ (- E1)).
  { change 256 with (2 ^ 8). apply Z.pow_le_mono_r; lia. }
  assert (Hsplit : 2 ^ (- e) = 2 ^ n1 * 2 ^ (- E1)).
  { rewrite <- Z.pow_add_r by lia. f_equal. unfold E1. lia. }
  assert (Hm1 : 0 <= m / 2 ^ n1 <= period * 2 ^ (- E1)).
  { split; [apply Z.div_pos; lia|].
    apply Z.div_le_upper_bound; [lia|]. rewrite Hle, Hsplit. lia. }
  assert (Hm1' : m / 2 ^ n1 < 2 ^ 24).
  { apply Z.div_lt_upper_bound; [lia|].
    rewrite <- Z.pow_add_r by lia.
    assert (2 ^ D <= 2 ^ (n1 + 24)) by (apply Z.pow_le_mono_r; lia).
    lia. }
  change (2 ^ 24) with 16777216 in Hm1'.
  set (n2 := shift_of m2 E1).
  assert (Hn2 : 0 <= n2 <= 1).
  { unfold n2, shift_of, fexp, emin, prec, emax.
    destruct (Z.eq_dec m2 0) as [->|Hm2nz]; [cbn; lia|].
    assert (Zdigits2 m2 <= 25).
    { apply Zdigits2_le; [lia|lia|]. change (2 ^ 25) with 33554432. lia. }
    lia. }
  assert (Hpn2 : 0 < 2 ^ n2) by (apply Z.pow_pos_nonneg; lia).
  assert (Hm3 : 0 <= m2 / 2 ^ n2) by (apply Z.div_pos; lia).
  destruct (m2 / 2 ^ n2) as [|q|q] eqn:Hq; [reflexivity| |lia].
  replace (E1 + n2 <=? emax - prec) with true
    by (symmetry; apply Z.leb_le; unfold emax, prec; lia).
  rewrite <- trunc_Qfloor.
  unfold to_uint16, F32.trunc.
  destruct (E1 + n2) as [|k|k] eqn:Hk; try lia.
  assert (Hsplit2 : 2 ^ (- E1) = 2 ^ n2 * 2 ^ Zpos k).
  { rewrite <- Z.pow_add_r by lia. f_equal. lia. }
  assert (Hpk : 0 < 2 ^ Zpos k) by (apply Z.pow_pos_nonneg; lia).
  assert (Hbound : 0 <= Zpos q / 2 ^ Zpos k < 65536).
  { split; [apply Z.div_pos; lia|].
    rewrite <- Hq, Z.div_div, <- Hsplit2 by lia.
    apply Z.div_lt_upper_bound; [lia|]. nia. }
  rewrite Z.min_l by lia. apply Z.mod_small.
  change (2 ^ 16) with 65536. lia.
Qed.

End DutyCount.

Section Signs.

Local Open Scope Z_scope.

Lemma binary_round_aux_not_negative (m e : Z) (l : location) :
  0 <= m -> not_negative (binary_round_aux prec emax false m e l) = true.
Proof.
  intros Hm.
  destruct (binary_round_aux_spec false m e l Hm) as (m2 & _ & ->).
  cbv zeta.
  destruct (m2 / 2 ^ shift_of m2 (e + shift_of m e)); try reflexivity.
  destruct (_ <=? _); reflexivity.
Qed.

Lemma of_Z_not_negative (n : Z) : 0 <= n -> not_negative (of_Z n) = true.
Proof.
  intros Hn. unfold of_Z, binary_normalize.
  destruct n as [|p|p]; [reflexivity| |lia].
  unfold binary_round.
  destruct (shl_align p 0 _) as [mz ez].
  apply binary_round_aux_not_negative. lia.
Qed.

Lemma mul_not_negative (x y : float32) :
  not_negative x = true -> not_negative y = true ->
  not_negative (x * y)%f32 = true.
Proof.
  destruct x as [sx|[|]| |[|] mx ex], y as [sy|[|]| |[|] my ey];
    try discriminate; try reflexivity; intros _ _.
  unfold F32.mul, SFmul. apply binary_round_aux_not_negative. lia.
Qed.

Lemma not_negative_ltb_zero (x : float32) :
  not_negative x = true -> F32.ltb x zero = false.
Proof. destruct x as [s|[|]| |[|] m e]; try discriminate; reflexivity. Qed.

(** With a non-negative control rate, zero does not exceed the slip
    velocity limit. *)
Lemma zero_within_slip_limit {env : Env} :
  0 <= current_meas_hz ->
  (std_abs zero >? slip_velocity_limit)%f32 = false.
Proof.
  intros Hhz. unfold slip_velocity_limit.
  change (std_abs zero >? ?x)%f32 with (F32.ltb x zero).
  apply not_negative_ltb_zero, mul_not_negative;
    [reflexivity|now apply of_Z_not_negative].
Qed.

Lemma leb_ltb_false (a b : float32) :
  F32.leb a b = true -> F32.ltb b a = false.
Proof.
  unfold F32.leb, F32.ltb, SFleb, SFltb.
  destruct a as [[|]|[|]| |[|] ma ea], b as [[|]|[|]| |[|] mb eb];
    cbn; try discriminate; try reflexivity;
    change (Pos.compare_cont Eq) with Pos.compare;
    destruct (Z.compare_spec ea eb), (Z.compare_spec eb ea);
    try discriminate; try reflexivity; try lia;
    destruct (Pos.compare_spec ma mb), (Pos.compare_spec mb ma);
    cbn; try discriminate; try reflexivity; lia.
Qed.

End Signs.

(** ** The limit supervisor *)

Section LimitSupervisor.

Context {env : Env}.

Lemma std_min_cases (a b : float32) : std_min a b = a \/ std_min a b = b.
Proof. unfold std_min. destruct (b <? a); auto. Qed.

Lemma gtb_ltb (a b : float32) : (a >? b) = (b <? a).
Proof. reflexivity. Qed.

Lemma std_min_not_above_l (a b : float32) : (std_min a b >? a) = false.
Proof.
  rewrite gtb_ltb. unfold std_min.
  destruct (b <? a) eqn:Hba.
  - now apply ltb_asym.
  - apply ltb_irrefl.
Qed.

Lemma std_min_not_above_r (a b : float32) : (std_min a b >? b) = false.
Proof.
  rewrite gtb_ltb. unfold std_min.
  destruct (b <? a) eqn:Hba.
  - apply ltb_irrefl.
  - exact Hba.
Qed.

Lemma std_min_not_above_mono (x a b : float32) :
  (a >? x) = false -> (std_min a b >? x) = false.
Proof.
  rewrite !gtb_ltb. unfold std_min. intros Hxa.
  destruct (b <? a) eqn:Hba; [|exact Hxa].
  destruct (x <? b) eqn:Hxb; [|reflexivity].
  rewrite (ltb_trans x b a Hxb Hba) in Hxa. discriminate.
Qed.

(** C5.  [effective_current_lim()] returns, and stores in
    [effective_current_lim_], the minimum (taken with [std::min], left to
    right) of the configured limit, the hardware cap and the two thermistor
    caps; the result is one of the four, and none of the four is exceeded
    by it. *)
Theorem effective_current_lim_is_min_of_caps (m : Motor) :
  let cap0 := current_lim (config_ m) in
  let cap1 := hw_cap m in
  let cap2 := motor_thermistor_get_current_limit (current_lim (config_ m)) in
  let cap3 := fet_thermistor_get_current_limit (current_lim (config_ m)) in
  let r := fst (effective_current_lim m) in
  r = std_min (std_min (std_min cap0 cap1) cap2) cap3
  /\ effective_current_lim_ (snd (effective_current_lim m)) = r
  /\ In r [cap0; cap1; cap2; cap3]
  /\ Forall (fun cap => (r >? cap) = false) [cap0; cap1; cap2; cap3].
Proof.
  cbv zeta.
  assert (Hr : fst (effective_current_lim m)
               = std_min
                   (std_min (std_min (current_lim (config_ m)) (hw_cap m))
                      (motor_thermistor_get_current_limit
                         (current_lim (config_ m))))
                   (fet_thermistor_get_current_limit
                      (current_lim (config_ m)))).
  { unfold effective_current_lim, hw_cap.
    destruct (motor_type (config_ m)); reflexivity. }
  split; [exact Hr|]. split; [reflexivity|]. rewrite Hr.
  set (a := current_lim (config_ m)). set (b := hw_cap m).
  set (c := motor_thermistor_get_current_limit a).
  set (d := fet_thermistor_get_current_limit a).
  split.
  - destruct (std_min_cases (std_min (std_min a b) c) d) as [-> | ->];
      [|cbn; tauto].
    destruct (std_min_cases (std_min a b) c) as [-> | ->]; [|cbn; tauto].
    destruct (std_min_cases a b) as [-> | ->]; cbn; tauto.
  - repeat constructor.
    + do 2 apply std_min_not_above_mono. apply std_min_not_above_l.
    + do 2 apply std_min_not_above_mono. apply std_min_not_above_r.
    + apply std_min_not_above_mono, std_min_not_above_r.
    + apply std_min_not_above_r.
Qed.

End LimitSupervisor.

(** ** Anti-windup in [FOC_current] *)

Section AntiWindup.

Context {env : Env}.

Lemma enqueue_modulation_timings_current_control
    (mod_alpha mod_beta : float32) (m : Motor) :
  current_control_ (snd (enqueue_modulation_timings mod_alpha mod_beta m))
  = current_control_ m.
Proof.
  unfold enqueue_modulation_timings.
  destruct (is_nan mod_alpha || is_nan mod_beta); [reflexivity|].
  destruct (SVM mod_alpha mod_beta) as [[[tA tB] tC] [|]]; reflexivity.
Qed.

(** C6.  Past the saturation and current-limit checks, with
    s = 0.80·(√3/2)/√(mod_d² + mod_q²):  if s < 1, each integrator is
    multiplied by 0.99 (no error is integrated, and its magnitude does not
    grow) and the bus-current estimate and the reported output voltage are
    computed from (mod_d·s, mod_q·s);  otherwise, and in particular when
    s ≥ 1, each integrator gains err·(i_gain·Ts) and the modulation vector
    is used unscaled. *)
Theorem FOC_current_anti_windup
    (Id_des Iq_des I_phase pwm_phase phase_vel : float32) (m : Motor) :
  current_sense_saturated m = false ->
  current_limit_violated (fst (measured_dq I_phase m))
    (snd (measured_dq I_phase m)) m = false ->
  F32.valid (v_current_control_integral_d (current_control_ m)) = true ->
  F32.valid (v_current_control_integral_q (current_control_ m)) = true ->
  let Id := fst (measured_dq I_phase m) in
  let Iq := snd (measured_dq I_phase m) in
  let mod_d := fst (pi_modulation Id_des Iq_des Id Iq phase_vel m) in
  let mod_q := snd (pi_modulation Id_des Iq_des Id Iq phase_vel m) in
  let s := mod_scalefactor mod_d mod_q in
  let c_p := our_arm_cos_f32 pwm_phase in
  let s_p := our_arm_sin_f32 pwm_phase in
  let Vd_int := v_current_control_integral_d (current_control_ m) in
  let Vq_int := v_current_control_integral_q (current_control_ m) in
  let ictrl' :=
    current_control_
      (snd (FOC_current Id_des Iq_des I_phase pwm_phase phase_vel m)) in
  (if s <? one then
     v_current_control_integral_d ictrl' = Vd_int * lit 99 100
     /\ v_current_control_integral_q ictrl' = Vq_int * lit 99 100
     /\ (F32.abs (v_current_control_integral_d ictrl') >? F32.abs Vd_int)
        = false
     /\ (F32.abs (v_current_control_integral_q ictrl') >? F32.abs Vq_int)
        = false
     /\ Ibus ictrl' = mod_d * s * Id + mod_q * s * Iq
     /\ final_v_alpha ictrl'
        = mod_to_V m * (c_p * (mod_d * s) - s_p * (mod_q * s))
     /\ final_v_beta ictrl'
        = mod_to_V m * (c_p * (mod_q * s) + s_p * (mod_d * s))
   else
     v_current_control_integral_d ictrl'
     = Vd_int
       + (Id_des - Id) * (i_gain (current_control_ m) * current_meas_period)
     /\ v_current_control_integral_q ictrl'
        = Vq_int
          + (Iq_des - Iq)
            * (i_gain (current_control_ m) * current_meas_period)
     /\ Ibus ictrl' = mod_d * Id + mod_q * Iq
     /\ final_v_alpha ictrl' = mod_to_V m * (c_p * mod_d - s_p * mod_q)
     /\ final_v_beta ictrl' = mod_to_V m * (c_p * mod_q + s_p * mod_d))
  /\ (F32.geb s one = true -> (s <? one) = false).
Proof.
  intros Hsat Hlim HvalidD HvalidQ. cbv zeta.
  split; [|apply leb_ltb_false].
  unfold FOC_current.
  change (current_sense_saturated
            (with_current_control (set_Iq_setpoint Iq_des) m))
    with (current_sense_saturated m).
  rewrite Hsat.
  change (measured_dq I_phase
            (with_current_control (set_Iq_setpoint Iq_des) m))
    with (measured_dq I_phase m).
  destruct (measured_dq I_phase m) as [Id Iq]. cbn [fst snd] in *.
  match goal with
  | |- context [current_limit_violated Id Iq ?m1] =>
      change (current_limit_violated Id Iq m1)
        with (current_limit_violated Id Iq m)
  end.
  rewrite Hlim.
  change (pi_modulation Id_des Iq_des Id Iq phase_vel
            (with_current_control _
               (with_current_control _ (with_current_control _ m))))
    with (pi_modulation Id_des Iq_des Id Iq phase_vel m).
  destruct (pi_modulation Id_des Iq_des Id Iq phase_vel m)
    as [mod_d mod_q].
  cbn [fst snd].
  destruct (mod_scalefactor mod_d mod_q <? one);
    match goal with
    | |- context [enqueue_modulation_timings ?a ?b ?m1] =>
        pose proof (enqueue_modulation_timings_current_control a b m1)
          as Hcc;
        destruct (enqueue_modulation_timings a b m1) as [[|] m2]
    end;
    cbn [fst snd] in *;
    change (current_control_ (log_timing TIMING_LOG_FOC_CURRENT m2))
      with (current_control_ m2) in *;
    rewrite Hcc; cbn;
    repeat split; now apply mul_099_magnitude.
Qed.

End AntiWindup.

(** Both phase samples at 1 A, integrators at 0.5 V and -0.75 V, and a
    q-axis request of 200 A: the commanded voltage saturates the modulator,
    and the d-axis integrator decays. *)
Lemma FOC_current_anti_windup_witness :
  let env := Bench.board true true in
  let m := Bench.motor MOTOR_TYPE_HIGH_CURRENT (of_Z 1) (of_Z 1) in
  let Id := fst (measured_dq zero m) in
  let Iq := snd (measured_dq zero m) in
  let mod_d := fst (pi_modulation zero (of_Z 200) Id Iq zero m) in
  let mod_q := snd (pi_modulation zero (of_Z 200) Id Iq zero m) in
  let ictrl' :=
    current_control_ (snd (FOC_current zero (of_Z 200) zero zero zero m)) in
  current_sense_saturated m = false
  /\ current_limit_violated Id Iq m = false
  /\ F32.valid (v_current_control_integral_d (current_control_ m)) = true
  /\ F32.valid (v_current_control_integral_q (current_control_ m)) = true
  /\ (mod_scalefactor mod_d mod_q <? one) = true
  /\ (F32.abs (v_current_control_integral_d ictrl')
        >? F32.abs (v_current_control_integral_d (current_control_ m)))
     = false.
Proof.
  cbv zeta.
  assert (Hsat : current_sense_saturated
                   (Bench.motor MOTOR_TYPE_HIGH_CURRENT (of_Z 1) (of_Z 1))
                 = false) by (vm_compute; reflexivity).
  assert (Hlim :
    current_limit_violated
      (fst (@measured_dq (Bench.board true true) zero
              (Bench.motor MOTOR_TYPE_HIGH_CURRENT (of_Z 1) (of_Z 1))))
      (snd (@measured_dq (Bench.board true true) zero
              (Bench.motor MOTOR_TYPE_HIGH_CURRENT (of_Z 1) (of_Z 1))))
      (Bench.motor MOTOR_TYPE_HIGH_CURRENT (of_Z 1) (of_Z 1)) = false)
    by (vm_compute; reflexivity).
  assert (HvD :
    F32.valid
      (v_current_control_integral_d
         (current_control_
            (Bench.motor MOTOR_TYPE_HIGH_CURRENT (of_Z 1) (of_Z 1)))) = true)
    by (vm_compute; reflexivity).
  assert (HvQ :
    F32.valid
      (v_current_control_integral_q
         (current_control_
            (Bench.motor MOTOR_TYPE_HIGH_CURRENT (of_Z 1) (of_Z 1)))) = true)
    by (vm_compute; reflexivity).
  split; [exact Hsat|]. split; [exact Hlim|].
  split; [exact HvD|]. split; [exact HvQ|].
  pose proof (@FOC_current_anti_windup (Bench.board true true)
                zero (of_Z 200) zero zero zero
                (Bench.motor MOTOR_TYPE_HIGH_CURRENT (of_Z 1) (of_Z 1))
                Hsat Hlim HvD HvQ) as [H _].
  cbv zeta in H.
  match type of H with
  | if ?c then _ else _ =>
      assert (Hs : c = true) by (vm_compute; reflexivity);
      rewrite Hs in H; split; [exact Hs|]
  end.
  exact (proj1 (proj2 (proj2 H))).
Defined.

(** ** [update] *)

Section Update.

Context {env : Env}.

Local Open Scope Z_scope.

Lemma slip_velocity_checked_cases (raw : float32) :
  slip_velocity_checked raw
  = (if is_nan raw || (std_abs raw >? slip_velocity_limit)%f32
     then zero else raw)
  /\ is_nan (slip_velocity_checked raw) = false
  /\ (slip_velocity_checked raw = zero
      \/ (std_abs (slip_velocity_checked raw) >? slip_velocity_limit)%f32
         = false).
Proof.
  unfold slip_velocity_checked.
  split; [reflexivity|].
  destruct (is_nan raw) eqn:Hnan; cbn [orb].
  - split; [reflexivity|now left].
  - destruct (std_abs raw >? slip_velocity_limit)%f32 eqn:Hgt.
    + split; [reflexivity|now left].
    + split; [assumption|now right].
Qed.

(** On a board whose control rate is not negative the limit holds in both
    cases. *)
Lemma slip_velocity_checked_within_limit (raw : float32) :
  0 <= current_meas_hz ->
  (std_abs (slip_velocity_checked raw) >? slip_velocity_limit)%f32 = false.
Proof.
  intros Hhz.
  destruct (slip_velocity_checked_cases raw) as (_ & _ & [-> | H]);
    [now apply zero_within_slip_limit|exact H].
Qed.

(** C8.  For an ACIM motor, [update] reaches the [FOC_current] call with no
    error raised, no axis notification and the PWM gate untouched.  The slip
    velocity is computed as acim_slip_velocity·(iq/rotor flux) from the
    rotor flux just integrated; what is stored, added to the phase velocity
    and integrated into the phase offset is that value unless it is NaN or
    exceeds 0.1·current_meas_hz in magnitude, in which case it is exactly
    0.  So the slip used is never NaN and is either 0 or within the limit,
    and the phase, the phase offset and the phase velocity handed on are
    built from it alone. *)
Theorem update_acim_slip_guard (torque_setpoint phase phase_vel : float32)
    (m : Motor) :
  motor_type (config_ m) = MOTOR_TYPE_ACIM ->
  exists (id iq phase' slip : float32) (m1 : Motor),
    let ictrl := current_control_ m in
    let ictrl1 := current_control_ m1 in
    let raw :=
      (acim_slip_velocity (config_ m) * (iq / acim_rotor_flux ictrl1))%f32 in
    let phase_vel' :=
      (phase_vel * of_Z (direction (config_ m)) + slip)%f32 in
    update torque_setpoint phase phase_vel m
    = FOC_current id iq phase'
        (phase' + lit 15 10 * current_meas_period * phase_vel')%f32
        phase_vel' m1
    /\ iq = std_clamp (current_setpoint_of_torque torque_setpoint m)
              (- effective_current_lim_ m)%f32 (effective_current_lim_ m)
    /\ id = (if acim_autoflux_enable (config_ m) then Id_setpoint ictrl1
             else std_clamp (Id_setpoint ictrl)
                    (- effective_current_lim_ m)%f32
                    (effective_current_lim_ m))
    /\ acim_rotor_flux ictrl1
       = (acim_rotor_flux ictrl
          + acim_slip_velocity (config_ m) * (id - acim_rotor_flux ictrl)
            * current_meas_period)%f32
    /\ slip = (if is_nan raw || (std_abs raw >? slip_velocity_limit)%f32
               then zero else raw)
    /\ is_nan slip = false
    /\ (slip = zero \/ (std_abs slip >? slip_velocity_limit)%f32 = false)
    /\ async_phase_vel ictrl1 = slip
    /\ async_phase_offset ictrl1
       = wrap_pm_pi
           (async_phase_offset ictrl + slip * current_meas_period)%f32
    /\ phase'
       = wrap_pm_pi
           (phase * of_Z (direction (config_ m))
            + async_phase_offset ictrl1)%f32
    /\ config_ m1 = config_ m
    /\ error_ m1 = error_ m
    /\ axis_error_ m1 = axis_error_ m
    /\ armed_state_ m1 = armed_state_ m
    /\ extern_calls_ m1 = extern_calls_ m.
Proof.
  intros Hmt. unfold update. rewrite Hmt. cbn [MotorType_eqb].
  unfold update_acim.
  destruct (acim_autoflux_enable (config_ m));
    cbn -[slip_velocity_checked slip_velocity_raw FOC_current];
    match goal with
    | |- context [match ?t with MOTOR_TYPE_UNKNOWN => _ | _ => _ end] =>
        replace t with MOTOR_TYPE_ACIM by (symmetry; exact Hmt)
    end;
    match goal with
    | |- context [slip_velocity_checked ?raw] =>
        destruct (slip_velocity_checked_cases raw) as (H1 & H2 & H3)
    end;
    do 5 eexists; (split; [reflexivity|]);
    cbn -[slip_velocity_checked slip_velocity_raw];
    repeat split; assumption.
Qed.

(** C10.  Unless the motor is an ACIM with auto-flux enabled, [update]
    leaves the stored [Id_setpoint] as it was; for HIGH_CURRENT and GIMBAL
    motors the d-axis command handed to [FOC_current] resp. [FOC_voltage]
    is the stored [Id_setpoint] clamped to ±effective_current_lim. *)
Theorem update_leaves_Id_setpoint
    (torque_setpoint phase phase_vel : float32) (m : Motor) :
  MotorType_eqb (motor_type (config_ m)) MOTOR_TYPE_ACIM
  && acim_autoflux_enable (config_ m) = false ->
  let ilim := effective_current_lim_ m in
  let id := std_clamp (Id_setpoint (current_control_ m)) (- ilim)%f32 ilim in
  let iq :=
    std_clamp (current_setpoint_of_torque torque_setpoint m)
      (- ilim)%f32 ilim in
  let phase' := (phase * of_Z (direction (config_ m)))%f32 in
  let phase_vel' := (phase_vel * of_Z (direction (config_ m)))%f32 in
  let pwm_phase :=
    (phase' + lit 15 10 * current_meas_period * phase_vel')%f32 in
  Id_setpoint
    (current_control_ (snd (update torque_setpoint phase phase_vel m)))
  = Id_setpoint (current_control_ m)
  /\ match motor_type (config_ m) with
     | MOTOR_TYPE_HIGH_CURRENT =>
         update torque_setpoint phase phase_vel m
         = FOC_current id iq phase' pwm_phase phase_vel' m
     | MOTOR_TYPE_GIMBAL =>
         update torque_setpoint phase phase_vel m
         = FOC_voltage id iq pwm_phase m
     | _ => True
     end.
Proof.
  intros Hoff. cbv zeta. unfold update.
  destruct (motor_type (config_ m)) eqn:Hmt; cbn [MotorType_eqb] in *;
    cbn iota; rewrite ?Hmt.
  - split; [apply FOC_current_Id_setpoint|reflexivity].
  - split; [apply FOC_voltage_Id_setpoint|reflexivity].
  - cbn [andb] in Hoff. unfold update_acim. rewrite Hoff.
    cbn -[FOC_current].
    match goal with
    | |- context [match ?t with MOTOR_TYPE_UNKNOWN => _ | _ => _ end] =>
        replace t with MOTOR_TYPE_ACIM by (symmetry; exact Hmt)
    end.
    split; [|exact I]. rewrite FOC_current_Id_setpoint. reflexivity.
  - split; [reflexivity|exact I].
Qed.

End Update.

(** A 1 Nm request to an ACIM motor whose rotor flux estimate is still zero:
    the slip used is not NaN, and the phase offset is integrated from it. *)
Lemma update_acim_slip_guard_witness :
  let env := Bench.board true true in
  let m := Bench.motor MOTOR_TYPE_ACIM (of_Z 1) (of_Z 1) in
  motor_type (config_ m) = MOTOR_TYPE_ACIM
  /\ exists (id iq phase' slip : float32) (m1 : Motor),
       update (of_Z 1) zero zero m
       = FOC_current id iq phase'
           (phase' + lit 15 10 * current_meas_period
                     * (zero * of_Z (direction (config_ m)) + slip))
           (zero * of_Z (direction (config_ m)) + slip) m1
       /\ async_phase_vel (current_control_ m1) = slip
       /\ is_nan slip = false
       /\ async_phase_offset (current_control_ m1)
          = wrap_pm_pi
              (async_phase_offset (current_control_ m)
               + slip * current_meas_period)
       /\ phase'
          = wrap_pm_pi
              (zero * of_Z (direction (config_ m))
               + async_phase_offset (current_control_ m1))
       /\ error_ m1 = error_ m.
Proof.
  cbv zeta.
  split; [reflexivity|].
  destruct (@update_acim_slip_guard (Bench.board true true)
              (of_Z 1) zero zero
              (Bench.motor MOTOR_TYPE_ACIM (of_Z 1) (of_Z 1))
              eq_refl)
    as (id & iq & phase' & slip & m1 & Hupd & _ & _ & _ & _ & Hnan & _
        & Hslip & Hoff & Hph & _ & Herr & _).
  exists id, iq, phase', slip, m1.
  split; [exact Hupd|]. split; [exact Hslip|]. split; [exact Hnan|].
  split; [exact Hoff|]. split; [exact Hph|exact Herr].
Defined.

(** A high-current motor: auto-flux plays no role. *)
Lemma update_leaves_Id_setpoint_witness :
  let env := Bench.board true true in
  let m := Bench.motor MOTOR_TYPE_HIGH_CURRENT (of_Z 1) (of_Z 1) in
  MotorType_eqb (motor_type (config_ m)) MOTOR_TYPE_ACIM
  && acim_autoflux_enable (config_ m) = false
  /\ Id_setpoint (current_control_ (snd (update (of_Z 1) zero zero m)))
     = Id_setpoint (current_control_ m).
Proof.
  cbv zeta. split; [reflexivity|].
  exact (proj1 (@update_leaves_Id_setpoint (Bench.board true true)
                  (of_Z 1) zero zero
                  (Bench.motor MOTOR_TYPE_HIGH_CURRENT (of_Z 1) (of_Z 1))
                  eq_refl)).
Defined.

(** ** Duty counts *)

(** C9 (amended).  For a successful call whose SVM on-times lie in [0,1],
    with a period count that fits 16 bits, each stored duty count is the
    integer part of the binary32 product t·TIM_1_8_PERIOD_CLOCKS: the
    conversion truncates, it does not round to nearest. *)
Theorem enqueue_modulation_timings_truncates {env : Env}
    (mod_alpha mod_beta tA tB tC : float32) (m : Motor) :
  is_nan mod_alpha || is_nan mod_beta = false ->
  SVM mod_alpha mod_beta = (tA, tB, tC, true) ->
  on_time tA = true -> on_time tB = true -> on_time tC = true ->
  (0 <= TIM_1_8_PERIOD_CLOCKS < 2 ^ 16)%Z ->
  let count (t : float32) := Qfloor (to_Q (t * of_Z TIM_1_8_PERIOD_CLOCKS)) in
  let r := enqueue_modulation_timings mod_alpha mod_beta m in
  fst r = true
  /\ next_timings_ (snd r) = (count tA, count tB, count tC)
  /\ next_timings_valid_ (snd r) = true.
Proof.
  intros Hnan Hsvm HA HB HC Hperiod. cbv zeta.
  unfold enqueue_modulation_timings. rewrite Hnan, Hsvm. cbn.
  rewrite !duty_count_truncates by assumption.
  repeat split.
Qed.

(** C9 (as worded, refuted).  Modulation (0.0002, 0) on a board with 3500
    counts per period: the on-time of phase A is 16773861·2^-25, its product
    with 3500 is about 1749.65, nearest integer 1750, yet the stored count
    is 1749. *)
Lemma duty_count_is_not_rounded :
  (let env := Bench.board true true in
   let m := Bench.motor MOTOR_TYPE_GIMBAL zero zero in
   let r := enqueue_modulation_timings (lit 2 10000) zero m in
   let tA := S754_finite false 16773861 (-25) in
   SVM (lit 2 10000) zero
   = (tA, S754_finite false 8390286 (-24), S754_finite false 8390286 (-24),
      true)
   /\ on_time tA = true
   /\ fst r = true
   /\ next_timings_ (snd r) = (1749, 1750, 1750)%Z
   /\ nearest_integer (to_Q tA * inject_Z TIM_1_8_PERIOD_CLOCKS) = 1750%Z
   /\ nearest_integer (to_Q (tA * of_Z TIM_1_8_PERIOD_CLOCKS)) = 1750%Z)
  /\ ~ duty_counts_are_rounded.
Proof.
  assert (Hlocal :
    let env := Bench.board true true in
    let m := Bench.motor MOTOR_TYPE_GIMBAL zero zero in
    let r := enqueue_modulation_timings (lit 2 10000) zero m in
    let tA := S754_finite false 16773861 (-25) in
    SVM (lit 2 10000) zero
    = (tA, S754_finite false 8390286 (-24), S754_finite false 8390286 (-24),
       true)
    /\ on_time tA = true
    /\ fst r = true
    /\ next_timings_ (snd r) = (1749, 1750, 1750)%Z
    /\ nearest_integer (to_Q tA * inject_Z TIM_1_8_PERIOD_CLOCKS) = 1750%Z
    /\ nearest_integer (to_Q (tA * of_Z TIM_1_8_PERIOD_CLOCKS)) = 1750%Z).
  { vm_compute. repeat split. }
  split; [exact Hlocal|].
  intros Hall. cbv zeta in Hlocal.
  destruct Hlocal as (Hsvm & _ & _ & Hstored & Hround & _).
  specialize (Hall (Bench.board true true) (lit 2 10000) zero _ _ _
                (Bench.motor MOTOR_TYPE_GIMBAL zero zero)
                ltac:(vm_compute; reflexivity) Hsvm
                ltac:(vm_compute; reflexivity)
                ltac:(vm_compute; reflexivity)
                ltac:(vm_compute; reflexivity)).
  rewrite Hstored in Hall.
  apply (f_equal (fun t => fst (fst t))) in Hall. cbn [fst] in Hall.
  rewrite Hround in Hall. discriminate.
Qed.

(** The same call: on-times 16773861·2^-25, 8390286·2^-24, 8390286·2^-24
    against 3500 counts. *)
Lemma enqueue_modulation_timings_truncates_witness :
  let env := Bench.board true true in
  let m := Bench.motor MOTOR_TYPE_GIMBAL zero zero in
  let tA := S754_finite false 16773861 (-25) in
  let tB := S754_finite false 8390286 (-24) in
  let count (t : float32) := Qfloor (to_Q (t * of_Z TIM_1_8_PERIOD_CLOCKS)) in
  let r := enqueue_modulation_timings (lit 2 10000) zero m in
  is_nan (lit 2 10000) || is_nan zero = false
  /\ SVM (lit 2 10000) zero = (tA, tB, tB, true)
  /\ on_time tA = true /\ on_time tB = true
  /\ (0 <= TIM_1_8_PERIOD_CLOCKS < 2 ^ 16)%Z
  /\ fst r = true
  /\ next_timings_ (snd r) = (count tA, count tB, count tB)
  /\ next_timings_valid_ (snd r) = true.
Proof.
  cbv zeta.
  assert (Hnan : is_nan (lit 2 10000) || is_nan zero = false)
    by (vm_compute; reflexivity).
  assert (Hsvm : @SVM (Bench.board true true) (lit 2 10000) zero
                 = (S754_finite false 16773861 (-25),
                    S754_finite false 8390286 (-24),
                    S754_finite false 8390286 (-24), true))
    by (vm_compute; reflexivity).
  assert (HA : on_time (S754_finite false 16773861 (-25)) = true)
    by (vm_compute; reflexivity).
  assert (HB : on_time (S754_finite false 8390286 (-24)) = true)
    by (vm_compute; reflexivity).
  assert (Hperiod :
    (0 <= @TIM_1_8_PERIOD_CLOCKS (Bench.board true true) < 2 ^ 16)%Z)
    by (vm_compute; split; [discriminate|reflexivity]).
  split; [exact Hnan|]. split; [exact Hsvm|]. split; [exact HA|].
  split; [exact HB|]. split; [exact Hperiod|].
  exact (@enqueue_modulation_timings_truncates (Bench.board true true)
           (lit 2 10000) zero _ _ _ (Bench.motor MOTOR_TYPE_GIMBAL zero zero)
           Hnan Hsvm HA HB HB Hperiod).
Defined.

(** * Further properties of the operations *)

(** ** Error bits are sticky and only [arm] opens the PWM gate *)

Section Safety.

Context {env : Env}.

Local Open Scope Z_scope.

Lemma mask_subset_refl (a : Z) : mask_subset a a.
Proof. apply Z.land_diag. Qed.

Lemma mask_subset_lor (a b : Z) : mask_subset a (Z.lor a b).
Proof.
  unfold mask_subset. apply Z.bits_inj'. intros n _.
  rewrite Z.land_spec, Z.lor_spec.
  destruct (Z.testbit a n), (Z.testbit b n); reflexivity.
Qed.

Lemma mask_subset_trans (a b c : Z) :
  mask_subset a b -> mask_subset b c -> mask_subset a c.
Proof.
  unfold mask_subset. intros Hab Hbc. apply Z.bits_inj'. intros n _.
  apply (f_equal (fun z => Z.testbit z n)) in Hab, Hbc.
  rewrite Z.land_spec in *.
  destruct (Z.testbit a n), (Z.testbit b n), (Z.testbit c n);
    cbn in *; congruence.
Qed.

Lemma no_unsafe_effect_refl (m : Motor) : no_unsafe_effect m m.
Proof. repeat split; auto using mask_subset_refl. Qed.

Lemma no_unsafe_effect_trans (m1 m2 m3 : Motor) :
  no_unsafe_effect m1 m2 -> no_unsafe_effect m2 m3 -> no_unsafe_effect m1 m3.
Proof.
  intros (He1 & Ha1 & Hg1) (He2 & Ha2 & Hg2).
  repeat split; eauto using mask_subset_trans.
  destruct Hg2 as [Hg2|Hg2]; [rewrite Hg2; exact Hg1|now right].
Qed.

Lemma set_error_no_unsafe_effect (kind : Error) (m : Motor) :
  no_unsafe_effect m (set_error kind m).
Proof. repeat split; cbn; auto using mask_subset_lor. Qed.

(** The loop keeps any reflexive and transitive relation that loading a
    sample and running the body keep. *)
Lemma run_control_loop_keeps {L : Type} (R : Motor -> Motor -> Prop)
    (body : L -> Motor -> bool * L * Motor) :
  (forall m, R m m) ->
  (forall m1 m2 m3, R m1 m2 -> R m2 m3 -> R m1 m3) ->
  (forall s m, R m (set_current_meas_ s m)) ->
  (forall l m, R m (snd (body l m))) ->
  forall samples l m, R m (snd (run_control_loop body samples l m)).
Proof.
  intros Hrefl Htrans Hload Hbody.
  induction samples as [|s samples IH]; intros l m; cbn [run_control_loop].
  - apply Hrefl.
  - pose proof (Hbody l (set_current_meas_ s m)) as Hb.
    destruct (body l (set_current_meas_ s m)) as [[continue l1] m1].
    cbn [snd] in Hb.
    assert (Hm1 : R m m1) by (eapply Htrans; [apply Hload|exact Hb]).
    destruct continue; [|exact Hm1].
    eapply Htrans; [exact Hm1|apply IH].
Qed.

(** A step that only ORs bits into the error masks, and leaves the PWM gate
    alone or disarms it. *)
Ltac safe_leaf :=
  repeat split; cbn;
  first [ apply mask_subset_refl
        | apply mask_subset_lor
        | eapply mask_subset_trans; apply mask_subset_lor
        | now left
        | now right ].

Lemma enqueue_modulation_timings_safe (mod_alpha mod_beta : float32)
    (m : Motor) :
  no_unsafe_effect m (snd (enqueue_modulation_timings mod_alpha mod_beta m)).
Proof.
  unfold enqueue_modulation_timings.
  destruct (is_nan mod_alpha || is_nan mod_beta); [safe_leaf|].
  destruct (SVM mod_alpha mod_beta) as [[[tA tB] tC] [|]]; safe_leaf.
Qed.

Lemma enqueue_voltage_timings_safe (v_alpha v_beta : float32) (m : Motor) :
  no_unsafe_effect m (snd (enqueue_voltage_timings v_alpha v_beta m)).
Proof.
  unfold enqueue_voltage_timings.
  match goal with
  | |- context [enqueue_modulation_timings ?a ?b m] =>
      pose proof (enqueue_modulation_timings_safe a b m) as H;
      destruct (enqueue_modulation_timings a b m) as [[|] m1]
  end; exact H.
Qed.

Lemma FOC_voltage_safe (v_d v_q pwm_phase : float32) (m : Motor) :
  no_unsafe_effect m (snd (FOC_voltage v_d v_q pwm_phase m)).
Proof. apply enqueue_voltage_timings_safe. Qed.

Lemma FOC_current_safe
    (Id_des Iq_des I_phase pwm_phase phase_vel : float32) (m : Motor) :
  no_unsafe_effect m
    (snd (FOC_current Id_des Iq_des I_phase pwm_phase phase_vel m)).
Proof.
  unfold FOC_current.
  destruct (current_sense_saturated _); [safe_leaf|].
  destruct (measured_dq _ _) as [Id Iq].
  destruct (current_limit_violated _ _ _); [safe_leaf|].
  destruct (pi_modulation _ _ _ _ _ _) as [mod_d mod_q].
  destruct (mod_scalefactor mod_d mod_q <? one)%f32;
    match goal with
    | |- context [enqueue_modulation_timings ?a ?b ?m1] =>
        pose proof (enqueue_modulation_timings_safe a b m1) as H;
        destruct (enqueue_modulation_timings a b m1) as [[|] m2]
    end; exact H.
Qed.

Lemma update_acim_safe (id iq phase phase_vel ilim : float32) (m : Motor) :
  no_unsafe_effect m (snd (update_acim id iq phase phase_vel ilim m)).
Proof.
  unfold update_acim.
  destruct (acim_autoflux_enable (config_ m)); safe_leaf.
Qed.

Lemma update_safe (torque_setpoint phase phase_vel : float32) (m : Motor) :
  no_unsafe_effect m (snd (update torque_setpoint phase phase_vel m)).
Proof.
  unfold update.
  destruct (motor_type (config_ m)) eqn:Hmt; cbn [MotorType_eqb]; cbn iota.
  - rewrite ?Hmt. apply FOC_current_safe.
  - rewrite ?Hmt. apply FOC_voltage_safe.
  - match goal with
    | |- context [update_acim ?a ?b ?c ?d ?e m] =>
        pose proof (update_acim_safe a b c d e m) as Hs;
        pose proof (update_acim_config a b c d e m) as Hcfg;
        destruct (update_acim a b c d e m) as [[[id ph] pv] m1]
    end.
    cbn [snd] in Hs, Hcfg. rewrite Hcfg, Hmt.
    eapply no_unsafe_effect_trans; [exact Hs|apply FOC_current_safe].
  - rewrite ?Hmt. safe_leaf.
Qed.

Lemma setup_safe (m : Motor) : no_unsafe_effect m (snd (setup m)).
Proof.
  unfold setup.
  destruct gate_driver_init; cbn [negb]; [|safe_leaf].
  destruct (opamp_set_gain _ _) as [[|] actual_gain]; safe_leaf.
Qed.

Lemma do_checks_safe (m : Motor) : no_unsafe_effect m (snd (do_checks m)).
Proof.
  unfold do_checks.
  destruct gate_driver_check_fault; cbn [negb]; [|safe_leaf].
  destruct motor_thermistor_do_checks; cbn [negb]; [|safe_leaf].
  destruct fet_thermistor_do_checks; safe_leaf.
Qed.

Lemma measure_phase_resistance_body_safe (test_current max_voltage : float32)
    (l : float32 * Z) (m : Motor) :
  no_unsafe_effect m
    (snd (measure_phase_resistance_body test_current max_voltage l m)).
Proof.
  unfold measure_phase_resistance_body. destruct l as [test_voltage i].
  destruct (_ || _); [safe_leaf|].
  match goal with
  | |- context [enqueue_voltage_timings ?a ?b m] =>
      pose proof (enqueue_voltage_timings_safe a b m) as H;
      destruct (enqueue_voltage_timings a b m) as [[|] m1]
  end; exact H.
Qed.

Lemma measure_phase_inductance_body_safe (voltage_low voltage_high : float32)
    (l : float32 * float32 * Z) (m : Motor) :
  no_unsafe_effect m
    (snd (measure_phase_inductance_body voltage_low voltage_high l m)).
Proof.
  unfold measure_phase_inductance_body.
  destruct l as [[Ialphas0 Ialphas1] t].
  destruct (Z.land t 1 =? 0);
    match goal with
    | |- context [enqueue_voltage_timings ?a ?b m] =>
        pose proof (enqueue_voltage_timings_safe a b m) as H;
        destruct (enqueue_voltage_timings a b m) as [[|] m1]
    end; exact H.
Qed.

Lemma measure_phase_resistance_safe (test_current max_voltage : float32)
    (samples : list Iph_BC_t) (m : Motor) :
  no_unsafe_effect m
    (snd (measure_phase_resistance test_current max_voltage samples m)).
Proof.
  unfold measure_phase_resistance.
  pose proof (run_control_loop_keeps no_unsafe_effect
                (measure_phase_resistance_body test_current max_voltage)
                no_unsafe_effect_refl no_unsafe_effect_trans
                ltac:(intros; safe_leaf)
                (measure_phase_resistance_body_safe test_current max_voltage)
                samples (zero, 0) m) as H.
  destruct (run_control_loop _ _ _ _) as [[test_voltage i] m1].
  cbn [snd] in H. destruct (negb _); exact H.
Qed.

Lemma measure_phase_inductance_safe (voltage_low voltage_high : float32)
    (samples : list Iph_BC_t) (m : Motor) :
  no_unsafe_effect m
    (snd (measure_phase_inductance voltage_low voltage_high samples m)).
Proof.
  unfold measure_phase_inductance.
  pose proof (run_control_loop_keeps no_unsafe_effect
                (measure_phase_inductance_body voltage_low voltage_high)
                no_unsafe_effect_refl no_unsafe_effect_trans
                ltac:(intros; safe_leaf)
                (measure_phase_inductance_body_safe voltage_low voltage_high)
                samples (zero, zero, 0) m) as H.
  destruct (run_control_loop _ _ _ _) as [[[Ialphas0 Ialphas1] t] m1].
  cbn [snd] in H. unfold measure_phase_inductance_finish.
  destruct (negb _); [exact H|].
  destruct (_ || _); [|exact H].
  eapply no_unsafe_effect_trans; [exact H|safe_leaf].
Qed.

Lemma run_calibration_safe (samples_R samples_L : list Iph_BC_t) (m : Motor) :
  no_unsafe_effect m (snd (run_calibration samples_R samples_L m)).
Proof.
  unfold run_calibration.
  destruct (motor_type (config_ m));
    try solve [safe_leaf];
    match goal with
    | |- context [measure_phase_resistance ?a ?b ?c m] =>
        pose proof (measure_phase_resistance_safe a b c m) as HR;
        destruct (measure_phase_resistance a b c m) as [[|] m1]
    end; try exact HR;
    match goal with
    | |- context [measure_phase_inductance ?a ?b ?c ?m'] =>
        pose proof (measure_phase_inductance_safe a b c m') as HL;
        destruct (measure_phase_inductance a b c m') as [[|] m2]
    end; cbn [snd] in *;
    (eapply no_unsafe_effect_trans; [exact HR|]);
    first [exact HL | eapply no_unsafe_effect_trans; [exact HL|safe_leaf]].
Qed.

(** X1.  No operation of the control path, of the supervision or of the
    calibration clears an error bit, on the motor or on the axis, and none
    of them opens the PWM gate: afterwards the gate is as before or
    disarmed. *)
Theorem operations_keep_errors_and_gate
    (a b c d e : float32) (samples samples' : list Iph_BC_t) (m : Motor) :
  no_unsafe_effect m (snd (setup m))
  /\ no_unsafe_effect m (snd (do_checks m))
  /\ no_unsafe_effect m (snd (effective_current_lim m))
  /\ no_unsafe_effect m (snd (enqueue_modulation_timings a b m))
  /\ no_unsafe_effect m (snd (enqueue_voltage_timings a b m))
  /\ no_unsafe_effect m (snd (FOC_voltage a b c m))
  /\ no_unsafe_effect m (snd (FOC_current a b c d e m))
  /\ no_unsafe_effect m (snd (update a b c m))
  /\ no_unsafe_effect m (snd (measure_phase_resistance a b samples m))
  /\ no_unsafe_effect m (snd (measure_phase_inductance a b samples m))
  /\ no_unsafe_effect m (snd (run_calibration samples samples' m)).
Proof.
  repeat match goal with |- _ /\ _ => split end;
    first [ apply setup_safe | apply do_checks_safe
          | solve [safe_leaf]
          | apply enqueue_modulation_timings_safe
          | apply enqueue_voltage_timings_safe | apply FOC_voltage_safe
          | apply FOC_current_safe | apply update_safe
          | apply measure_phase_resistance_safe
          | apply measure_phase_inductance_safe
          | apply run_calibration_safe ].
Qed.

End Safety.

(** ** What the control path leaves alone *)

Section Frames.

Context {env : Env}.

Lemma same_tuning_refl (m : Motor) : same_tuning m m.
Proof. repeat split. Qed.

Lemma same_tuning_trans (m1 m2 m3 : Motor) :
  same_tuning m1 m2 -> same_tuning m2 m3 -> same_tuning m1 m3.
Proof.
  unfold same_tuning.
  intros (A1 & A2 & A3 & A4 & A5 & A6 & A7 & A8 & A9)
         (B1 & B2 & B3 & B4 & B5 & B6 & B7 & B8 & B9).
  repeat split; congruence.
Qed.

Lemma enqueue_modulation_timings_tuning (mod_alpha mod_beta : float32)
    (m : Motor) :
  same_tuning m (snd (enqueue_modulation_timings mod_alpha mod_beta m)).
Proof.
  unfold enqueue_modulation_timings.
  destruct (is_nan mod_alpha || is_nan mod_beta); [repeat split|].
  destruct (SVM mod_alpha mod_beta) as [[[tA tB] tC] [|]]; repeat split.
Qed.

Lemma enqueue_voltage_timings_tuning (v_alpha v_beta : float32) (m : Motor) :
  same_tuning m (snd (enqueue_voltage_timings v_alpha v_beta m)).
Proof.
  unfold enqueue_voltage_timings.
  match goal with
  | |- context [enqueue_modulation_timings ?a ?b m] =>
      pose proof (enqueue_modulation_timings_tuning a b m) as H;
      destruct (enqueue_modulation_timings a b m) as [[|] m1]
  end; exact H.
Qed.

Lemma FOC_current_tuning
    (Id_des Iq_des I_phase pwm_phase phase_vel : float32) (m : Motor) :
  same_tuning m
    (snd (FOC_current Id_des Iq_des I_phase pwm_phase phase_vel m)).
Proof.
  unfold FOC_current.
  destruct (current_sense_saturated _); [repeat split|].
  destruct (measured_dq _ _) as [Id Iq].
  destruct (current_limit_violated _ _ _); [repeat split|].
  destruct (pi_modulation _ _ _ _ _ _) as [mod_d mod_q].
  destruct (mod_scalefactor mod_d mod_q <? one);
    match goal with
    | |- context [enqueue_modulation_timings ?a ?b ?m1] =>
        pose proof (enqueue_modulation_timings_tuning a b m1) as H;
        destruct (enqueue_modulation_timings a b m1) as [[|] m2]
    end; exact H.
Qed.

Lemma update_acim_tuning (id iq phase phase_vel ilim : float32) (m : Motor) :
  same_tuning m (snd (update_acim id iq phase phase_vel ilim m)).
Proof.
  unfold update_acim.
  destruct (acim_autoflux_enable (config_ m)); repeat split.
Qed.

Lemma update_tuning (torque_setpoint phase phase_vel : float32) (m : Motor) :
  same_tuning m (snd (update torque_setpoint phase phase_vel m)).
Proof.
  unfold update.
  destruct (motor_type (config_ m)) eqn:Hmt; cbn [MotorType_eqb]; cbn iota.
  - rewrite ?Hmt. apply FOC_current_tuning.
  - rewrite ?Hmt. apply enqueue_voltage_timings_tuning.
  - match goal with
    | |- context [update_acim ?a ?b ?c ?d ?e m] =>
        pose proof (update_acim_tuning a b c d e m) as Hs;
        pose proof (update_acim_config a b c d e m) as Hcfg;
        destruct (update_acim a b c d e m) as [[[id ph] pv] m1]
    end.
    cbn [snd] in Hs, Hcfg. rewrite Hcfg, Hmt.
    eapply same_tuning_trans; [exact Hs|apply FOC_current_tuning].
  - rewrite ?Hmt. repeat split.
Qed.

(** X2.  The control path, the supervision checks, the limit supervisor and
    [arm] never write the configuration, the calibration flag, the
    controller gains, the current limits of the amplifier or its scaling. *)
Theorem control_path_keeps_tuning
    (a b c d e : float32) (wait_ok : bool) (m : Motor) :
  same_tuning m (snd (arm wait_ok m))
  /\ same_tuning m (snd (do_checks m))
  /\ same_tuning m (snd (effective_current_lim m))
  /\ same_tuning m (snd (enqueue_modulation_timings a b m))
  /\ same_tuning m (snd (enqueue_voltage_timings a b m))
  /\ same_tuning m (snd (FOC_voltage a b c m))
  /\ same_tuning m (snd (FOC_current a b c d e m))
  /\ same_tuning m (snd (update a b c m)).
Proof.
  repeat match goal with |- _ /\ _ => split end.
  - destruct wait_ok; repeat split.
  - unfold do_checks.
    destruct gate_driver_check_fault; [|repeat split].
    destruct motor_thermistor_do_checks; [|repeat split].
    destruct fet_thermistor_do_checks; repeat split.
  - repeat split.
  - apply enqueue_modulation_timings_tuning.
  - apply enqueue_voltage_timings_tuning.
  - apply enqueue_voltage_timings_tuning.
  - apply FOC_current_tuning.
  - apply update_tuning.
Qed.

Lemma only_phase_parameters_written_refl (m : Motor) :
  only_phase_parameters_written m m.
Proof.
  split; [|reflexivity].
  exists (phase_resistance (config_ m)), (phase_inductance (config_ m)).
  reflexivity.
Qed.

Lemma same_tuning_only_phase_parameters (m m' : Motor) :
  same_tuning m m' -> only_phase_parameters_written m m'.
Proof.
  intros (Hc & Hi & _). split; [|exact Hi].
  exists (phase_resistance (config_ m)), (phase_inductance (config_ m)).
  rewrite Hc. reflexivity.
Qed.

Lemma only_phase_parameters_written_trans (m1 m2 m3 : Motor) :
  only_phase_parameters_written m1 m2 ->
  only_phase_parameters_written m2 m3 ->
  only_phase_parameters_written m1 m3.
Proof.
  intros [(R1 & L1 & H1) Hc1] [(R2 & L2 & H2) Hc2].
  split; [|congruence].
  exists R2, L2. rewrite H2, H1. reflexivity.
Qed.

Lemma measure_phase_resistance_body_tuning
    (test_current max_voltage : float32) (l : float32 * Z) (m : Motor) :
  same_tuning m
    (snd (measure_phase_resistance_body test_current max_voltage l m)).
Proof.
  unfold measure_phase_resistance_body. destruct l as [test_voltage i].
  destruct (_ || _); [repeat split|].
  match goal with
  | |- context [enqueue_voltage_timings ?a ?b m] =>
      pose proof (enqueue_voltage_timings_tuning a b m) as H;
      destruct (enqueue_voltage_timings a b m) as [[|] m1]
  end; exact H.
Qed.

Lemma measure_phase_inductance_body_tuning
    (voltage_low voltage_high : float32) (l : float32 * float32 * Z)
    (m : Motor) :
  same_tuning m
    (snd (measure_phase_inductance_body voltage_low voltage_high l m)).
Proof.
  unfold measure_phase_inductance_body.
  destruct l as [[Ialphas0 Ialphas1] t].
  destruct (Z.land t 1 =? 0)%Z;
    match goal with
    | |- context [enqueue_voltage_timings ?a ?b m] =>
        pose proof (enqueue_voltage_timings_tuning a b m) as H;
        destruct (enqueue_voltage_timings a b m) as [[|] m1]
    end; exact H.
Qed.

Lemma measure_phase_resistance_config_cases
    (test_current max_voltage : float32) (samples : list Iph_BC_t)
    (m : Motor) :
  let r := measure_phase_resistance test_current max_voltage samples m in
  if fst r then
    exists R, config_ (snd r) = set_phase_resistance R (config_ m)
  else same_tuning m (snd r).
Proof.
  cbv zeta. unfold measure_phase_resistance.
  pose proof (run_control_loop_keeps same_tuning
                (measure_phase_resistance_body test_current max_voltage)
                same_tuning_refl same_tuning_trans
                ltac:(intros; repeat split)
                (measure_phase_resistance_body_tuning test_current
                   max_voltage)
                samples (zero, 0%Z) m) as H.
  destruct (run_control_loop _ _ _ _) as [[test_voltage i] m1].
  cbn [snd] in H. destruct (negb _); cbn [fst snd]; [exact H|].
  destruct H as (Hc & _). exists (test_voltage / test_current).
  change (set_phase_resistance (test_voltage / test_current) (config_ m1)
          = set_phase_resistance (test_voltage / test_current) (config_ m)).
  now rewrite Hc.
Qed.

(** X3.  [measure_phase_resistance] writes the configuration only when it
    succeeds, and then only [phase_resistance]; a failed measurement leaves
    configuration, gains and limits exactly as they were. *)
Theorem measure_phase_resistance_stores_on_success_only
    (test_current max_voltage : float32) (samples : list Iph_BC_t)
    (m : Motor) :
  let r := measure_phase_resistance test_current max_voltage samples m in
  if fst r then
    exists R, config_ (snd r) = set_phase_resistance R (config_ m)
  else same_tuning m (snd r).
Proof.
  exact (measure_phase_resistance_config_cases test_current max_voltage
           samples m).
Qed.

Lemma measure_phase_resistance_writes (test_current max_voltage : float32)
    (samples : list Iph_BC_t) (m : Motor) :
  only_phase_parameters_written m
    (snd (measure_phase_resistance test_current max_voltage samples m)).
Proof.
  pose proof (measure_phase_resistance_config_cases
                test_current max_voltage samples m) as H.
  cbv zeta in H.
  assert (Hcal :
    is_calibrated_
      (snd (measure_phase_resistance test_current max_voltage samples m))
    = is_calibrated_ m).
  { unfold measure_phase_resistance.
    pose proof (run_control_loop_keeps same_tuning
                  (measure_phase_resistance_body test_current max_voltage)
                  same_tuning_refl same_tuning_trans
                  ltac:(intros; repeat split)
                  (measure_phase_resistance_body_tuning test_current
                     max_voltage)
                  samples (zero, 0%Z) m) as (_ & Hi & _).
    destruct (run_control_loop _ _ _ _) as [[test_voltage i] m1].
    cbn [snd] in Hi. destruct (negb _); exact Hi. }
  destruct (fst _).
  - destruct H as [R HR]. split; [|exact Hcal].
    exists R, (phase_inductance (config_ m)). rewrite HR. reflexivity.
  - now apply same_tuning_only_phase_parameters.
Qed.

Lemma measure_phase_inductance_writes (voltage_low voltage_high : float32)
    (samples : list Iph_BC_t) (m : Motor) :
  only_phase_parameters_written m
    (snd (measure_phase_inductance voltage_low voltage_high samples m)).
Proof.
  unfold measure_phase_inductance.
  pose proof (run_control_loop_keeps same_tuning
                (measure_phase_inductance_body voltage_low voltage_high)
                same_tuning_refl same_tuning_trans
                ltac:(intros; repeat split)
                (measure_phase_inductance_body_tuning voltage_low
                   voltage_high)
                samples (zero, zero, 0%Z) m) as (Hc & Hi & _).
  destruct (run_control_loop _ _ _ _) as [[[Ialphas0 Ialphas1] t] m1].
  cbn [snd] in Hc, Hi. unfold measure_phase_inductance_finish.
  destruct (negb _).
  - split; [|exact Hi].
    exists (phase_resistance (config_ m)), (phase_inductance (config_ m)).
    cbn [snd]. rewrite Hc. reflexivity.
  - split.
    + exists (phase_resistance (config_ m)),
        (identified_inductance voltage_low voltage_high Ialphas0 Ialphas1).
      assert (Hset :
        set_phase_inductance
          (identified_inductance voltage_low voltage_high Ialphas0 Ialphas1)
          (config_ m1)
        = set_phase_resistance (phase_resistance (config_ m))
            (set_phase_inductance
               (identified_inductance voltage_low voltage_high
                  Ialphas0 Ialphas1) (config_ m)))
        by (rewrite Hc; reflexivity).
      destruct (_ || _); exact Hset.
    + destruct (_ || _); exact Hi.
Qed.

Lemma run_calibration_writes (samples_R samples_L : list Iph_BC_t)
    (m : Motor) :
  let r := run_calibration samples_R samples_L m in
  (exists R L,
     config_ (snd r)
     = set_phase_resistance R (set_phase_inductance L (config_ m)))
  /\ is_calibrated_ (snd r) = (if fst r then true else is_calibrated_ m).
Proof.
  cbv zeta. unfold run_calibration.
  assert (Hgimbal : forall m0 : Motor,
    only_phase_parameters_written m m0 ->
    (exists R L,
       config_ (set_is_calibrated_ true (update_current_controller_gains m0))
       = set_phase_resistance R (set_phase_inductance L (config_ m)))).
  { intros m0 [(R & L & H) _]. exists R, L. cbn. exact H. }
  destruct (motor_type (config_ m)).
  - pose proof (measure_phase_resistance_writes (calibration_current (config_ m))
                  (resistance_calib_max_voltage (config_ m)) samples_R m)
      as HR.
    destruct (measure_phase_resistance _ _ _ _) as [[|] m1]; cbn [fst snd] in *.
    + match goal with
      | |- context [measure_phase_inductance ?a ?b ?c m1] =>
          pose proof (measure_phase_inductance_writes a b c m1) as HL;
          destruct (measure_phase_inductance a b c m1) as [[|] m2]
      end; cbn [fst snd] in *;
        pose proof (only_phase_parameters_written_trans _ _ _ HR HL)
          as [Hcfg Hcal].
      * split; [apply Hgimbal; now split|reflexivity].
      * now split.
    + destruct HR as [Hcfg Hcal]. now split.
  - cbn [fst snd]. split; [|reflexivity].
    apply Hgimbal, only_phase_parameters_written_refl.
  - pose proof (measure_phase_resistance_writes (calibration_current (config_ m))
                  (resistance_calib_max_voltage (config_ m)) samples_R m)
      as HR.
    destruct (measure_phase_resistance _ _ _ _) as [[|] m1]; cbn [fst snd] in *.
    + match goal with
      | |- context [measure_phase_inductance ?a ?b ?c m1] =>
          pose proof (measure_phase_inductance_writes a b c m1) as HL;
          destruct (measure_phase_inductance a b c m1) as [[|] m2]
      end; cbn [fst snd] in *;
        pose proof (only_phase_parameters_written_trans _ _ _ HR HL)
          as [Hcfg Hcal].
      * split; [apply Hgimbal; now split|reflexivity].
      * now split.
    + destruct HR as [Hcfg Hcal]. now split.
  - cbn [fst snd]. split; [|reflexivity].
    apply only_phase_parameters_written_refl.
Qed.

(** X4.  [run_calibration] touches no configuration field other than
    [phase_resistance] and [phase_inductance]; it sets [is_calibrated_]
    when, and only when, it returns true, and leaves the flag as it was
    otherwise. *)
Theorem run_calibration_effects (samples_R samples_L : list Iph_BC_t)
    (m : Motor) :
  let r := run_calibration samples_R samples_L m in
  (exists R L,
     config_ (snd r)
     = set_phase_resistance R (set_phase_inductance L (config_ m)))
  /\ is_calibrated_ (snd r) = (if fst r then true else is_calibrated_ m).
Proof. exact (run_calibration_writes samples_R samples_L m). Qed.

(** X5.  [apply_config] after a successful [run_calibration] changes
    neither the configuration nor the controller (the gains are already the
    ones it would compute), but it overwrites the calibration flag with
    [pre_calibrated]: a calibration obtained at run time is forgotten
    unless the configuration is marked pre-calibrated. *)
Theorem apply_config_after_calibration
    (samples_R samples_L : list Iph_BC_t) (m : Motor) :
  fst (run_calibration samples_R samples_L m) = true ->
  let m1 := snd (run_calibration samples_R samples_L m) in
  let m2 := snd (apply_config m1) in
  is_calibrated_ m1 = true
  /\ is_calibrated_ m2 = pre_calibrated (config_ m)
  /\ config_ m2 = config_ m1
  /\ current_control_ m2 = current_control_ m1.
Proof.
  intros Hok. cbv zeta.
  pose proof (run_calibration_writes samples_R samples_L m)
    as [(R & L & Hcfg) Hcal].
  cbv zeta in Hcfg, Hcal. rewrite Hok in Hcal.
  split; [exact Hcal|].
  split.
  { change (pre_calibrated
              (config_ (snd (run_calibration samples_R samples_L m)))
            = pre_calibrated (config_ m)).
    rewrite Hcfg. reflexivity. }
  split; [reflexivity|].
  revert Hok. clear. unfold run_calibration.
  destruct (motor_type (config_ m));
    try (cbn [fst]; discriminate);
    try (intros _; reflexivity);
    destruct (measure_phase_resistance _ _ _ _) as [[|] m1];
    try (cbn [fst]; discriminate);
    destruct (measure_phase_inductance _ _ _ _) as [[|] m2];
    try (cbn [fst]; discriminate);
    intros _; reflexivity.
Qed.

End Frames.

(** ** Successful calls *)

Section Success.

Context {env : Env}.

Lemma enqueue_modulation_timings_success (mod_alpha mod_beta : float32)
    (m : Motor) :
  fst (enqueue_modulation_timings mod_alpha mod_beta m) = true ->
  published_cleanly m (snd (enqueue_modulation_timings mod_alpha mod_beta m)).
Proof.
  unfold enqueue_modulation_timings.
  destruct (is_nan mod_alpha || is_nan mod_beta); [discriminate|].
  destruct (SVM mod_alpha mod_beta) as [[[tA tB] tC] [|]];
    [|discriminate].
  intros _. repeat split.
Qed.

Lemma enqueue_voltage_timings_success (v_alpha v_beta : float32) (m : Motor) :
  fst (enqueue_voltage_timings v_alpha v_beta m) = true ->
  published_cleanly m (snd (enqueue_voltage_timings v_alpha v_beta m)).
Proof.
  unfold enqueue_voltage_timings.
  match goal with
  | |- context [enqueue_modulation_timings ?a ?b m] =>
      pose proof (enqueue_modulation_timings_success a b m) as H;
      destruct (enqueue_modulation_timings a b m) as [[|] m1]
  end; [|discriminate].
  intros _. exact (H eq_refl).
Qed.

Lemma FOC_current_success
    (Id_des Iq_des I_phase pwm_phase phase_vel : float32) (m : Motor) :
  fst (FOC_current Id_des Iq_des I_phase pwm_phase phase_vel m) = true ->
  published_cleanly m
    (snd (FOC_current Id_des Iq_des I_phase pwm_phase phase_vel m)).
Proof.
  unfold FOC_current.
  destruct (current_sense_saturated _); [discriminate|].
  destruct (measured_dq _ _) as [Id Iq].
  destruct (current_limit_violated _ _ _); [discriminate|].
  destruct (pi_modulation _ _ _ _ _ _) as [mod_d mod_q].
  destruct (mod_scalefactor mod_d mod_q <? one);
    match goal with
    | |- context [enqueue_modulation_timings ?a ?b ?m1] =>
        pose proof (enqueue_modulation_timings_success a b m1) as H;
        destruct (enqueue_modulation_timings a b m1) as [[|] m2]
    end; try discriminate; intros _; exact (H eq_refl).
Qed.

(** X6.  When [update] returns true it has handed fresh timings to the
    interrupt handler ([next_timings_valid_] is set) and has raised nothing:
    both error masks, the PWM gate and the calls to collaborators are as
    before the call. *)
Theorem update_success_publishes
    (torque_setpoint phase phase_vel : float32) (m : Motor) :
  fst (update torque_setpoint phase phase_vel m) = true ->
  published_cleanly m (snd (update torque_setpoint phase phase_vel m)).
Proof.
  unfold update.
  destruct (motor_type (config_ m)) eqn:Hmt; cbn [MotorType_eqb]; cbn iota;
    rewrite ?Hmt.
  - apply FOC_current_success.
  - apply enqueue_voltage_timings_success.
  - unfold update_acim.
    destruct (acim_autoflux_enable (config_ m));
      cbn -[slip_velocity_checked slip_velocity_raw FOC_current];
      match goal with
      | |- context [match ?t with MOTOR_TYPE_UNKNOWN => _ | _ => _ end] =>
          replace t with MOTOR_TYPE_ACIM by (symmetry; exact Hmt)
      end;
      intros Hok; apply FOC_current_success in Hok; exact Hok.
  - discriminate.
Qed.

(** X7.  [FOC_current] records the q-axis request in [Iq_setpoint] on every
    path, also when the call fails. *)
Theorem FOC_current_records_Iq_setpoint
    (Id_des Iq_des I_phase pwm_phase phase_vel : float32) (m : Motor) :
  Iq_setpoint
    (current_control_
       (snd (FOC_current Id_des Iq_des I_phase pwm_phase phase_vel m)))
  = Iq_des.
Proof.
  unfold FOC_current.
  destruct (current_sense_saturated _); [reflexivity|].
  destruct (measured_dq _ _) as [Id Iq].
  destruct (current_limit_violated _ _ _); [reflexivity|].
  destruct (pi_modulation _ _ _ _ _ _) as [mod_d mod_q].
  destruct (mod_scalefactor mod_d mod_q <? one);
    match goal with
    | |- context [enqueue_modulation_timings ?a ?b ?m1] =>
        pose proof (enqueue_modulation_timings_current_control a b m1) as H;
        destruct (enqueue_modulation_timings a b m1) as [[|] m2]
    end; cbn [snd] in *;
    change (current_control_ (log_timing TIMING_LOG_FOC_CURRENT m2))
      with (current_control_ m2) in *;
    rewrite H; reflexivity.
Qed.

(** X8.  When [FOC_current] trips on current-sense saturation or on the
    current limit, it has not touched the controller: both integrators, the
    bus-current estimate and the reported output voltage are as before.  A
    saturation trip also leaves the filtered current reports as they
    were. *)
Theorem FOC_current_trip_leaves_controller
    (Id_des Iq_des I_phase pwm_phase phase_vel : float32) (m : Motor) :
  current_sense_saturated m
  || current_limit_violated (fst (measured_dq I_phase m))
       (snd (measured_dq I_phase m)) m = true ->
  let ictrl := current_control_ m in
  let r := FOC_current Id_des Iq_des I_phase pwm_phase phase_vel m in
  let ictrl' := current_control_ (snd r) in
  fst r = false
  /\ v_current_control_integral_d ictrl' = v_current_control_integral_d ictrl
  /\ v_current_control_integral_q ictrl' = v_current_control_integral_q ictrl
  /\ Ibus ictrl' = Ibus ictrl
  /\ final_v_alpha ictrl' = final_v_alpha ictrl
  /\ final_v_beta ictrl' = final_v_beta ictrl
  /\ next_timings_ (snd r) = next_timings_ m
  /\ next_timings_valid_ (snd r) = next_timings_valid_ m
  /\ (current_sense_saturated m = true ->
      Iq_measured ictrl' = Iq_measured ictrl
      /\ Id_measured ictrl' = Id_measured ictrl).
Proof.
  intros Htrip. cbv zeta. unfold FOC_current.
  change (current_sense_saturated
            (with_current_control (set_Iq_setpoint Iq_des) m))
    with (current_sense_saturated m).
  destruct (current_sense_saturated m) eqn:Hsat; [repeat split|].
  cbn [orb] in Htrip.
  change (measured_dq I_phase
            (with_current_control (set_Iq_setpoint Iq_des) m))
    with (measured_dq I_phase m).
  destruct (measured_dq I_phase m) as [Id Iq]. cbn [fst snd] in Htrip.
  match goal with
  | |- context [current_limit_violated Id Iq ?m1] =>
      change (current_limit_violated Id Iq m1)
        with (current_limit_violated Id Iq m)
  end.
  rewrite Htrip. repeat split; discriminate.
Qed.

(** For a motor type outside the three known ones [update] does nothing but
    raise NOT_IMPLEMENTED_MOTOR_TYPE. *)
Lemma update_unknown_motor_type
    (torque_setpoint phase phase_vel : float32) (m : Motor) :
  motor_type (config_ m) = MOTOR_TYPE_UNKNOWN ->
  update torque_setpoint phase phase_vel m
  = (false, set_error ERROR_NOT_IMPLEMENTED_MOTOR_TYPE m).
Proof.
  intros Hmt. unfold update. rewrite Hmt. cbn [MotorType_eqb]. cbn iota.
  now rewrite Hmt.
Qed.

(** X9.  With a bus voltage reading of zero (of either sign) the
    voltage-to-modulation factor is infinite, and a request with a zero beta
    component - the only kind the calibration routines make - turns into a
    NaN modulation: the call fails with MODULATION_IS_NAN whatever the alpha
    component, without consulting the modulator. *)
Theorem enqueue_voltage_timings_zero_bus (v_alpha : float32) (s s' : bool)
    (m : Motor) :
  vbus_voltage m = S754_zero s ->
  enqueue_voltage_timings v_alpha (S754_zero s') m
  = (false, set_error ERROR_MODULATION_IS_NAN m).
Proof.
  intros Hbus. unfold enqueue_voltage_timings. rewrite Hbus.
  assert (Hnan : lit 1 1 / (of_Z 2 / of_Z 3 * S754_zero s) * S754_zero s'
                 = nan) by (destruct s, s'; reflexivity).
  rewrite Hnan. unfold enqueue_modulation_timings.
  change (is_nan nan) with true. rewrite orb_true_r. reflexivity.
Qed.

End Success.

(** ** Clamped quantities *)

Section Clamps.

Context {env : Env}.

Lemma std_clamp_not_outside (v lo hi : float32) :
  (hi <? lo) = false -> not_outside lo hi (std_clamp v lo hi).
Proof.
  intros Hord. unfold not_outside, std_clamp.
  destruct (v <? lo) eqn:Hlo.
  - split; [apply ltb_irrefl|exact Hord].
  - destruct (hi <? v) eqn:Hhi.
    + split; [exact Hord|apply ltb_irrefl].
    + split; assumption.
Qed.

(** X10.  With a torque limit that is not negative, the available torque
    reported by [max_available_torque] is neither below zero nor above
    [torque_lim], for every motor type. *)
Theorem max_available_torque_within_limit (m : Motor) :
  (torque_lim (config_ m) <? zero) = false ->
  not_outside zero (torque_lim (config_ m)) (max_available_torque m).
Proof.
  intros Hlim. unfold max_available_torque.
  destruct (MotorType_eqb _ _); now apply std_clamp_not_outside.
Qed.

Lemma mul_zero_r_cases (x : float32) :
  x * zero = nan \/ exists s, x * zero = S754_zero s.
Proof.
  unfold F32.mul, zero. destruct x as [s|s| |s mx ex]; cbn [SFmul]; eauto.
Qed.

Lemma ltb_zero_sign (s : bool) (y : float32) :
  (S754_zero s <? y) = (zero <? y).
Proof. destruct y as [sy|sy| |sy my ey]; reflexivity. Qed.

(** X11.  Right after [arm], whatever its outcome, an ACIM motor has no
    torque available: the rotor flux estimate has been reset, and
    [max_available_torque] is not above zero. *)
Theorem max_available_torque_after_arm (wait_for_current_meas : bool)
    (m : Motor) :
  motor_type (config_ m) = MOTOR_TYPE_ACIM ->
  (max_available_torque (snd (arm wait_for_current_meas m)) >? zero) = false.
Proof.
  intros Hmt.
  assert (Hflux : forall w,
    max_available_torque (snd (arm w m))
    = std_clamp
        (effective_current_lim_ m * torque_constant (config_ m) * zero)
        zero (torque_lim (config_ m))).
  { intros w. unfold max_available_torque.
    destruct w; cbn [arm negb snd];
      replace (motor_type (config_ _)) with MOTOR_TYPE_ACIM
        by (symmetry; exact Hmt);
      reflexivity. }
  rewrite Hflux, gtb_ltb. unfold std_clamp.
  set (hi := torque_lim (config_ m)).
  destruct (mul_zero_r_cases
              (effective_current_lim_ m * torque_constant (config_ m)))
    as [-> | [s ->]].
  - assert (Hnan : forall x, (x <? nan) = false)
      by (intros [sx|sx| |sx mx ex]; reflexivity).
    change (nan <? zero) with false. cbn iota.
    rewrite Hnan. reflexivity.
  - change (S754_zero s <? zero) with false. cbn iota.
    destruct (hi <? S754_zero s) eqn:Hhi; [|destruct s; reflexivity].
    rewrite <- (ltb_zero_sign s). now apply ltb_asym.
Qed.

(** X12.  With a current limit that is not negative, the d- and q-axis
    commands that [update] hands to [FOC_current] (HIGH_CURRENT) or
    [FOC_voltage] (GIMBAL) are neither below -effective_current_lim nor
    above +effective_current_lim. *)
Theorem update_commands_within_limit
    (torque_setpoint phase phase_vel : float32) (m : Motor) :
  (effective_current_lim_ m <? - effective_current_lim_ m) = false ->
  let ilim := effective_current_lim_ m in
  match motor_type (config_ m) with
  | MOTOR_TYPE_HIGH_CURRENT =>
      exists id iq phase' pwm_phase phase_vel',
        update torque_setpoint phase phase_vel m
        = FOC_current id iq phase' pwm_phase phase_vel' m
        /\ not_outside (- ilim) ilim id /\ not_outside (- ilim) ilim iq
  | MOTOR_TYPE_GIMBAL =>
      exists v_d v_q pwm_phase,
        update torque_setpoint phase phase_vel m
        = FOC_voltage v_d v_q pwm_phase m
        /\ not_outside (- ilim) ilim v_d /\ not_outside (- ilim) ilim v_q
  | _ => True
  end.
Proof.
  intros Hord. cbv zeta. unfold update.
  destruct (motor_type (config_ m)) eqn:Hmt; cbn [MotorType_eqb]; cbn iota;
    rewrite ?Hmt; try exact I.
  - do 5 eexists. split; [reflexivity|].
    split; now apply std_clamp_not_outside.
  - do 3 eexists. split; [reflexivity|].
    split; now apply std_clamp_not_outside.
Qed.

(** X13.  For an ACIM motor with auto-flux enabled, and a current limit not
    below [acim_autoflux_min_Id], the [Id_setpoint] that [update] stores is
    neither below [acim_autoflux_min_Id] nor above the current limit,
    whether or not the following [FOC_current] succeeds. *)
Theorem update_autoflux_Id_setpoint_bounded
    (torque_setpoint phase phase_vel : float32) (m : Motor) :
  motor_type (config_ m) = MOTOR_TYPE_ACIM ->
  acim_autoflux_enable (config_ m) = true ->
  (effective_current_lim_ m <? acim_autoflux_min_Id (config_ m)) = false ->
  not_outside (acim_autoflux_min_Id (config_ m)) (effective_current_lim_ m)
    (Id_setpoint
       (current_control_ (snd (update torque_setpoint phase phase_vel m)))).
Proof.
  intros Hmt Hauto Hord. unfold update. rewrite Hmt. cbn [MotorType_eqb].
  unfold update_acim. rewrite Hauto.
  cbn -[slip_velocity_checked slip_velocity_raw FOC_current].
  match goal with
  | |- context [match ?t with MOTOR_TYPE_UNKNOWN => _ | _ => _ end] =>
      replace t with MOTOR_TYPE_ACIM by (symmetry; exact Hmt)
  end.
  rewrite FOC_current_Id_setpoint. cbn.
  now apply std_clamp_not_outside.
Qed.

End Clamps.

(** ** Calibration runs *)

Section CalibrationRuns.

Context {env : Env}.

Local Open Scope Z_scope.

Lemma went_through_set_error_axis (m' : Motor) :
  AXIS_ERROR_MOTOR_FAILED <> 0 ->
  went_through_set_error m' -> axis_error_ m' <> AXIS_ERROR_NONE.
Proof.
  intros Hcode [kind m0 ->]. cbn. unfold AXIS_ERROR_NONE.
  intros H. apply Z.lor_eq_0_iff in H. tauto.
Qed.

(** One period of the resistance loop either stops with an axis error or
    leaves a test voltage that has passed the range check. *)
Lemma measure_phase_resistance_body_cases
    (test_current max_voltage : float32) (l : float32 * Z) (m : Motor) :
  AXIS_ERROR_MOTOR_FAILED <> 0 ->
  let r := measure_phase_resistance_body test_current max_voltage l m in
  (fst (fst r) = false /\ axis_error_ (snd r) <> AXIS_ERROR_NONE)
  \/ not_outside (- max_voltage)%f32 max_voltage (fst (snd (fst r))).
Proof.
  intros Hcode. cbv zeta. unfold measure_phase_resistance_body.
  destruct l as [test_voltage i].
  match goal with
  | |- context [(?tv >? max_voltage)%f32 || (?tv <? - max_voltage)%f32] =>
      destruct ((tv >? max_voltage)%f32 || (tv <? - max_voltage)%f32)
        eqn:Hrange
  end.
  - left. split; [reflexivity|].
    apply went_through_set_error_axis; [exact Hcode|].
    now eapply through_set_error.
  - apply orb_false_elim in Hrange as [Hhi Hlo].
    match goal with
    | |- context [enqueue_voltage_timings ?a ?b ?m0] =>
        pose proof (enqueue_voltage_timings_failure a b m0) as Hfail;
        destruct (enqueue_voltage_timings a b m0) as [[|] m1]
    end; cbn [fst snd] in *.
    + right. split; assumption.
    + left. split; [reflexivity|].
      apply went_through_set_error_axis; [exact Hcode|now apply Hfail].
Qed.

(** While the axis shows no error, the test voltage the loop has reached
    has passed the range check of the last period that ran. *)
Lemma measure_phase_resistance_loop_in_range
    (test_current max_voltage : float32) (samples : list Iph_BC_t) :
  AXIS_ERROR_MOTOR_FAILED <> 0 ->
  forall (s : Iph_BC_t) (l : float32 * Z) (m : Motor),
    let r :=
      run_control_loop
        (measure_phase_resistance_body test_current max_voltage)
        (s :: samples) l m in
    axis_error_ (snd r) = AXIS_ERROR_NONE ->
    not_outside (- max_voltage)%f32 max_voltage (fst (fst r)).
Proof.
  intros Hcode.
  induction samples as [|s' samples IH]; intros s l m;
    cbv zeta; cbn [run_control_loop];
    pose proof (measure_phase_resistance_body_cases test_current
                  max_voltage l (set_current_meas_ s m) Hcode) as Hbody;
    cbv zeta in Hbody;
    destruct (measure_phase_resistance_body test_current max_voltage l
                (set_current_meas_ s m)) as [[continue l1] m1];
    cbn [fst snd] in Hbody.
  - destruct Hbody as [[-> Hax] | Hin]; cbn [fst snd].
    + intros H. now destruct Hax.
    + destruct continue; intros _; exact Hin.
  - destruct Hbody as [[-> Hax] | Hin]; cbn [fst snd].
    + intros H. now destruct Hax.
    + destruct continue; [apply (IH s')|intros _; exact Hin].
Qed.

(** X14.  A resistance measurement that ran for at least one control
    period and returned true has stored R = V/test_current for a test
    voltage V that is neither below -max_voltage nor above max_voltage
    (the axis error code MOTOR_FAILED being a non-zero mask). *)
Theorem measure_phase_resistance_voltage_in_range
    (test_current max_voltage : float32) (samples : list Iph_BC_t)
    (m : Motor) :
  AXIS_ERROR_MOTOR_FAILED <> 0 ->
  samples <> [] ->
  fst (measure_phase_resistance test_current max_voltage samples m) = true ->
  exists V : float32,
    phase_resistance
      (config_
         (snd (measure_phase_resistance test_current max_voltage samples m)))
    = (V / test_current)%f32
    /\ not_outside (- max_voltage)%f32 max_voltage V.
Proof.
  intros Hcode Hne. destruct samples as [|s samples]; [congruence|].
  unfold measure_phase_resistance.
  pose proof (measure_phase_resistance_loop_in_range test_current
                max_voltage samples Hcode s (zero, 0) m) as Hloop.
  cbv zeta in Hloop.
  destruct (run_control_loop _ _ _ _) as [[test_voltage i] m1].
  cbn [fst snd] in Hloop.
  destruct (axis_error_ m1 =? AXIS_ERROR_NONE) eqn:Hax; cbn [negb fst snd];
    [|discriminate].
  intros _. exists test_voltage. split; [reflexivity|].
  apply Hloop. now apply Z.eqb_eq.
Qed.

(** One period of the inductance loop either stops, or advances the tick
    counter by one and goes on exactly while it is below 2·num_cycles. *)
Lemma measure_phase_inductance_body_counter
    (voltage_low voltage_high Ialphas0 Ialphas1 : float32) (t : Z)
    (m : Motor) :
  0 <= t < 2 * num_cycles ->
  let r :=
    measure_phase_inductance_body voltage_low voltage_high
      (Ialphas0, Ialphas1, t) m in
  fst (fst r) = false
  \/ (snd (snd (fst r)) = t + 1 /\ fst (fst r) = (t + 1 <? 2 * num_cycles)).
Proof.
  unfold num_cycles. intros Ht. cbv zeta.
  unfold measure_phase_inductance_body.
  destruct (Z.land t 1 =? 0);
    match goal with
    | |- context [enqueue_voltage_timings ?a ?b ?m0] =>
        destruct (enqueue_voltage_timings a b m0) as [[|] m1]
    end; cbn [fst snd]; auto;
    right; rewrite Z.mod_small
      by (change (2 ^ 32) with 4294967296; lia);
    split; reflexivity.
Qed.

(** The inductance loop stops by itself once its tick counter reaches
    2·num_cycles. *)
Lemma measure_phase_inductance_loop_bounded
    (voltage_low voltage_high : float32) (extra : list Iph_BC_t) :
  forall (samples : list Iph_BC_t) (s : Iph_BC_t)
         (Ialphas0 Ialphas1 : float32) (t : Z) (m : Motor),
    0 <= t ->
    t + Z.of_nat (length (s :: samples)) = 2 * num_cycles ->
    run_control_loop
      (measure_phase_inductance_body voltage_low voltage_high)
      ((s :: samples) ++ extra) (Ialphas0, Ialphas1, t) m
    = run_control_loop
        (measure_phase_inductance_body voltage_low voltage_high)
        (s :: samples) (Ialphas0, Ialphas1, t) m.
Proof.
  induction samples as [|s' samples IH];
    intros s Ialphas0 Ialphas1 t m Ht Hlen;
    cbn [app run_control_loop];
    cbn [length] in Hlen;
    pose proof (measure_phase_inductance_body_counter voltage_low
                  voltage_high Ialphas0 Ialphas1 t (set_current_meas_ s m)
                  ltac:(lia)) as Hbody;
    cbv zeta in Hbody;
    destruct (measure_phase_inductance_body voltage_low voltage_high
                (Ialphas0, Ialphas1, t) (set_current_meas_ s m))
      as [[continue [[a1 b1] t1]] m1];
    cbn [fst snd] in Hbody;
    destruct Hbody as [-> | [-> ->]]; try reflexivity.
  - replace (t + 1 <? 2 * num_cycles) with false
      by (symmetry; apply Z.ltb_ge; lia).
    reflexivity.
  - destruct (t + 1 <? 2 * num_cycles); [|reflexivity].
    apply (IH s'); [lia|cbn [length]; lia].
Qed.

(** X15.  [measure_phase_inductance] runs for at most 2·num_cycles = 10000
    control periods: whatever the supervisor would still feed it after
    10000 samples is never looked at. *)
Theorem measure_phase_inductance_at_most_10000_periods
    (voltage_low voltage_high : float32) (samples extra : list Iph_BC_t)
    (m : Motor) :
  Z.of_nat (length samples) = 2 * num_cycles ->
  measure_phase_inductance voltage_low voltage_high (samples ++ extra) m
  = measure_phase_inductance voltage_low voltage_high samples m.
Proof.
  intros Hlen. destruct samples as [|s samples]; [discriminate|].
  unfold measure_phase_inductance.
  rewrite (measure_phase_inductance_loop_bounded voltage_low voltage_high
             extra samples s zero zero 0 m);
    [reflexivity|lia|exact Hlen].
Qed.

End CalibrationRuns.

Section CalibrationBounds.

Context {env : Env}.

Local Open Scope Z_scope.

(** One period of the resistance loop either stops, or advances its counter
    by one and goes on exactly while it is below the cycle count. *)
Lemma measure_phase_resistance_body_counter
    (test_current max_voltage test_voltage : float32) (i : Z) (m : Motor) :
  0 <= i < num_test_cycles mod 2 ^ 32 ->
  let r :=
    measure_phase_resistance_body test_current max_voltage
      (test_voltage, i) m in
  fst (fst r) = false
  \/ (snd (snd (fst r)) = i + 1
      /\ fst (fst r) = (i + 1 <? num_test_cycles mod 2 ^ 32)).
Proof.
  intros Hi. cbv zeta. unfold measure_phase_resistance_body.
  pose proof (Z.mod_pos_bound num_test_cycles (2 ^ 32) eq_refl) as HN.
  destruct (_ || _); [now left|].
  match goal with
  | |- context [enqueue_voltage_timings ?a ?b ?m0] =>
      destruct (enqueue_voltage_timings a b m0) as [[|] m1]
  end; cbn [fst snd]; auto.
  right. rewrite (Z.mod_small (i + 1)) by lia. split; reflexivity.
Qed.

Lemma measure_phase_resistance_loop_bounded
    (test_current max_voltage : float32) (extra : list Iph_BC_t) :
  forall (samples : list Iph_BC_t) (s : Iph_BC_t)
         (test_voltage : float32) (i : Z) (m : Motor),
    0 <= i ->
    i + Z.of_nat (length (s :: samples)) = num_test_cycles mod 2 ^ 32 ->
    run_control_loop
      (measure_phase_resistance_body test_current max_voltage)
      ((s :: samples) ++ extra) (test_voltage, i) m
    = run_control_loop
        (measure_phase_resistance_body test_current max_voltage)
        (s :: samples) (test_voltage, i) m.
Proof.
  induction samples as [|s' samples IH];
    intros s test_voltage i m Hi Hlen;
    cbn [app run_control_loop];
    cbn [length] in Hlen;
    pose proof (measure_phase_resistance_body_counter test_current
                  max_voltage test_voltage i (set_current_meas_ s m)
                  ltac:(lia)) as Hbody;
    cbv zeta in Hbody;
    destruct (measure_phase_resistance_body test_current max_voltage
                (test_voltage, i) (set_current_meas_ s m))
      as [[continue [v1 i1]] m1];
    cbn [fst snd] in Hbody;
    destruct Hbody as [-> | [-> ->]]; try reflexivity.
  - replace (i + 1 <? num_test_cycles mod 2 ^ 32) with false
      by (symmetry; apply Z.ltb_ge; lia).
    reflexivity.
  - destruct (i + 1 <? num_test_cycles mod 2 ^ 32); [|reflexivity].
    apply (IH s'); [lia|cbn [length]; lia].
Qed.

(** X16.  [measure_phase_resistance] runs for at most [num_test_cycles]
    control periods (three seconds' worth): samples past that number are
    never looked at. *)
Theorem measure_phase_resistance_at_most_num_test_cycles
    (test_current max_voltage : float32) (samples extra : list Iph_BC_t)
    (m : Motor) :
  samples <> [] ->
  Z.of_nat (length samples) = num_test_cycles mod 2 ^ 32 ->
  measure_phase_resistance test_current max_voltage (samples ++ extra) m
  = measure_phase_resistance test_current max_voltage samples m.
Proof.
  intros Hne Hlen. destruct samples as [|s samples]; [congruence|].
  unfold measure_phase_resistance.
  rewrite (measure_phase_resistance_loop_bounded test_current max_voltage
             extra samples s zero 0 m);
    [reflexivity|lia|exact Hlen].
Qed.

(** X17.  After a successful [run_calibration] the controller gains match
    the phase parameters now in the configuration:
    p_gain = bandwidth·L and i_gain = (R/L)·p_gain. *)
Theorem run_calibration_refreshes_gains
    (samples_R samples_L : list Iph_BC_t) (m : Motor) :
  fst (run_calibration samples_R samples_L m) = true ->
  let m' := snd (run_calibration samples_R samples_L m) in
  p_gain (current_control_ m')
  = (current_control_bandwidth (config_ m')
     * phase_inductance (config_ m'))%f32
  /\ i_gain (current_control_ m')
     = (phase_resistance (config_ m') / phase_inductance (config_ m')
        * p_gain (current_control_ m'))%f32.
Proof.
  cbv zeta. unfold run_calibration.
  destruct (motor_type (config_ m));
    try (cbn [fst]; discriminate);
    try (intros _; split; reflexivity);
    destruct (measure_phase_resistance _ _ _ _) as [[|] m1];
    try (cbn [fst]; discriminate);
    destruct (measure_phase_inductance _ _ _ _) as [[|] m2];
    try (cbn [fst]; discriminate);
    intros _; split; reflexivity.
Qed.


End CalibrationBounds.

(** ** Phase-current acquisition *)

Section Acquisition.

Local Open Scope Z_scope.

Lemma binary_round_aux_opp (s : bool) (m e : Z) (l : location) :
  binary_round_aux prec emax (negb s) m e l
  = SFopp (binary_round_aux prec emax s m e l).
Proof.
  unfold binary_round_aux.
  destruct (shr_fexp prec emax m e l) as [mrs' e'].
  destruct (shr_fexp prec emax _ e' loc_Exact) as [mrs'' e''].
  destruct (shr_m mrs''); try reflexivity.
  destruct (e'' <=? emax - prec); reflexivity.
Qed.

Lemma of_Z_opp (n : Z) : n <> 0 -> of_Z (- n) = (- of_Z n)%f32.
Proof.
  intros Hn. unfold of_Z, binary_normalize, binary_round, F32.neg.
  destruct n as [|p|p]; [congruence| |]; cbn [Z.opp];
    destruct (shl_align p 0 _) as [mz ez].
  - apply (binary_round_aux_opp false).
  - rewrite (binary_round_aux_opp false).
    destruct (binary_round_aux _ _ _ _ _ _) as [[|]|[|]| |[|] ? ?];
      reflexivity.
Qed.

Lemma mul_opp_l (x y : float32) : (- x * y = - (x * y))%f32.
Proof.
  unfold F32.mul, F32.neg.
  destruct x as [sx|sx| |sx mx ex], y as [sy|sy| |sy my ey];
    cbn [SFmul SFopp]; try reflexivity;
    try (destruct sx, sy; reflexivity).
  rewrite <- binary_round_aux_opp. destruct sx, sy; reflexivity.
Qed.

Lemma mul_opp_r (x y : float32) : (x * - y = - (x * y))%f32.
Proof.
  unfold F32.mul, F32.neg.
  destruct x as [sx|sx| |sx mx ex], y as [sy|sy| |sy my ey];
    cbn [SFmul SFopp]; try reflexivity;
    try (destruct sx, sy; reflexivity).
  rewrite <- binary_round_aux_opp. destruct sx, sy; reflexivity.
Qed.

(** X19.  The ADC transfer is odd-symmetric about the mid-scale code 2048:
    codes equally far below and above mid-scale give currents that are
    exact negatives of each other, whatever the amplifier gain and shunt
    conductance. *)
Theorem phase_current_from_adcval_odd (k : Z) (m : Motor) :
  0 < k <= 2047 ->
  phase_current_from_adcval (2048 - k) m
  = (- phase_current_from_adcval (2048 + k) m)%f32.
Proof.
  intros Hk. unfold phase_current_from_adcval.
  change (2 ^ 11) with 2048.
  replace (2048 - k - 2048) with (- k) by lia.
  replace (2048 + k - 2048) with k by lia.
  rewrite of_Z_opp by lia.
  now rewrite mul_opp_r, !mul_opp_l.
Qed.

End Acquisition.

(** ** Arming *)

(** X20.  [arm] succeeds exactly when the current measurement arrives.  On
    success the PWM gate is opened with the hand-over flag cleared, so the
    control loop has to enqueue timings before the next PWM reload.  On a
    timeout only the axis is told (CURRENT_MEASUREMENT_TIMEOUT): no motor
    error bit is set, and the gate and the hand-over flag stay as they
    were - a gate that was open is not closed.  In both cases the
    configuration and the motor error mask are untouched. *)
Theorem arm_outcomes {env : Env} (wait_for_current_meas : bool) (m : Motor) :
  let r := arm wait_for_current_meas m in
  fst r = wait_for_current_meas
  /\ error_ (snd r) = error_ m
  /\ (if wait_for_current_meas then
        armed_state_ (snd r) = ARMED
        /\ next_timings_valid_ (snd r) = false
        /\ axis_error_ (snd r) = axis_error_ m
      else
        armed_state_ (snd r) = armed_state_ m
        /\ next_timings_valid_ (snd r) = next_timings_valid_ m
        /\ axis_error_ (snd r)
           = Z.lor (axis_error_ m) AXIS_ERROR_CURRENT_MEASUREMENT_TIMEOUT).
Proof. destruct wait_for_current_meas; repeat split. Qed.

(** ** The timing log *)

Section TimingLog.

Context {env : Env}.

Local Open Scope Z_scope.

Lemma TimingLog_eqb_eq (a b : TimingLog_t) :
  TimingLog_eqb a b = true -> a = b.
Proof. destruct a, b; cbn; congruence. Qed.

Ltac log_leaf :=
  split; [apply Z.le_refl|intros ?idx; left; reflexivity].

Lemma timing_slots_written_refl (slots : list TimingLog_t) (m : Motor) :
  timing_slots_written slots m m.
Proof. log_leaf. Qed.

Lemma timing_slots_written_trans (slots : list TimingLog_t)
    (m1 m2 m3 : Motor) :
  timing_slots_written slots m1 m2 -> timing_slots_written slots m2 m3 ->
  timing_slots_written slots m1 m3.
Proof.
  intros [Hle12 H12] [Hle23 H23]. split; [lia|]. intros idx.
  destruct (H23 idx) as [H|(Hin & n & Hn & H)].
  - destruct (H12 idx) as [H'|(Hin & n & Hn & H')].
    + left. congruence.
    + right. split; [exact Hin|]. exists n. split; [lia|congruence].
  - right. split; [exact Hin|]. exists n. split; [lia|exact H].
Qed.

Lemma timing_slots_written_incl (slots slots' : list TimingLog_t)
    (m m' : Motor) :
  incl slots slots' ->
  timing_slots_written slots m m' -> timing_slots_written slots' m m'.
Proof.
  intros Hincl [Hle H]. split; [exact Hle|]. intros idx.
  destruct (H idx) as [Hk|[Hin Hv]]; [now left|].
  right. split; [now apply Hincl|exact Hv].
Qed.

Lemma log_timing_written (slots : list TimingLog_t) (log_idx : TimingLog_t)
    (m m' : Motor) :
  In log_idx slots ->
  timing_slots_written slots m m' ->
  timing_slots_written slots m (log_timing log_idx m').
Proof.
  intros Hin [Hle H].
  assert (Hr : htim13_reads_ (log_timing log_idx m') = htim13_reads_ m' + 1)
    by reflexivity.
  assert (Hlog : forall idx,
    timing_log_ (log_timing log_idx m') idx
    = if TimingLog_eqb idx log_idx
      then (clocks_per_cnt * htim13_CNT (htim13_reads_ m')) mod 2 ^ 16
      else timing_log_ m' idx) by reflexivity.
  unfold timing_slots_written. rewrite Hr.
  split; [lia|]. intros idx. rewrite Hlog.
  destruct (TimingLog_eqb idx log_idx) eqn:Heq.
  - apply TimingLog_eqb_eq in Heq. subst idx. right. split; [exact Hin|].
    exists (htim13_reads_ m'). split; [lia|reflexivity].
  - destruct (H idx) as [Hk|(Hin' & n & Hn & Hv)]; [now left|].
    right. split; [exact Hin'|]. exists n. split; [lia|exact Hv].
Qed.

Lemma enqueue_modulation_timings_log (slots : list TimingLog_t)
    (mod_alpha mod_beta : float32) (m : Motor) :
  timing_slots_written slots m
    (snd (enqueue_modulation_timings mod_alpha mod_beta m)).
Proof.
  unfold enqueue_modulation_timings.
  destruct (is_nan mod_alpha || is_nan mod_beta);
    [log_leaf|].
  destruct (SVM mod_alpha mod_beta) as [[[tA tB] tC] [|]];
    log_leaf.
Qed.

Lemma enqueue_voltage_timings_log (slots : list TimingLog_t)
    (v_alpha v_beta : float32) (m : Motor) :
  In TIMING_LOG_FOC_VOLTAGE slots ->
  timing_slots_written slots m
    (snd (enqueue_voltage_timings v_alpha v_beta m)).
Proof.
  intros Hin. unfold enqueue_voltage_timings.
  match goal with
  | |- context [enqueue_modulation_timings ?a ?b m] =>
      pose proof (enqueue_modulation_timings_log slots a b m) as H;
      destruct (enqueue_modulation_timings a b m) as [[|] m1]
  end; cbn [snd] in *; [now apply log_timing_written|exact H].
Qed.

Lemma FOC_current_log (slots : list TimingLog_t)
    (Id_des Iq_des I_phase pwm_phase phase_vel : float32) (m : Motor) :
  In TIMING_LOG_FOC_CURRENT slots ->
  timing_slots_written slots m
    (snd (FOC_current Id_des Iq_des I_phase pwm_phase phase_vel m)).
Proof.
  intros Hin. unfold FOC_current.
  destruct (current_sense_saturated _); [log_leaf|].
  destruct (measured_dq _ _) as [Id Iq].
  destruct (current_limit_violated _ _ _);
    [log_leaf|].
  destruct (pi_modulation _ _ _ _ _ _) as [mod_d mod_q].
  destruct (mod_scalefactor mod_d mod_q <? one)%f32;
    match goal with
    | |- context [enqueue_modulation_timings ?a ?b ?m1] =>
        pose proof (enqueue_modulation_timings_log slots a b m1) as H;
        destruct (enqueue_modulation_timings a b m1) as [[|] m2]
    end; cbn [snd] in *;
    first [apply log_timing_written; [exact Hin|exact H] | exact H].
Qed.

Lemma update_log (torque_setpoint phase phase_vel : float32) (m : Motor) :
  timing_slots_written [TIMING_LOG_FOC_VOLTAGE; TIMING_LOG_FOC_CURRENT] m
    (snd (update torque_setpoint phase phase_vel m)).
Proof.
  unfold update.
  destruct (motor_type (config_ m)) eqn:Hmt; cbn [MotorType_eqb]; cbn iota.
  - rewrite ?Hmt. apply FOC_current_log. cbn; auto.
  - rewrite ?Hmt. apply enqueue_voltage_timings_log. cbn; auto.
  - match goal with
    | |- context [update_acim ?a ?b ?c ?d ?e m] =>
        pose proof (update_acim_config a b c d e m) as Hcfg;
        assert (Hs : timing_slots_written
                       [TIMING_LOG_FOC_VOLTAGE; TIMING_LOG_FOC_CURRENT] m
                       (snd (update_acim a b c d e m)))
          by (unfold update_acim;
              destruct (acim_autoflux_enable (config_ m)); log_leaf);
        destruct (update_acim a b c d e m) as [[[id ph] pv] m1]
    end.
    cbn [snd] in Hs, Hcfg. rewrite Hcfg, Hmt.
    eapply timing_slots_written_trans;
      [exact Hs|apply FOC_current_log; cbn; auto].
  - rewrite ?Hmt. log_leaf.
Qed.

Lemma measure_phase_resistance_log (test_current max_voltage : float32)
    (samples : list Iph_BC_t) (m : Motor) :
  timing_slots_written [TIMING_LOG_MEAS_R; TIMING_LOG_FOC_VOLTAGE] m
    (snd (measure_phase_resistance test_current max_voltage samples m)).
Proof.
  unfold measure_phase_resistance.
  pose proof (run_control_loop_keeps
                (timing_slots_written
                   [TIMING_LOG_MEAS_R; TIMING_LOG_FOC_VOLTAGE])
                (measure_phase_resistance_body test_current max_voltage)
                (timing_slots_written_refl _)
                (timing_slots_written_trans _)
                (fun s m0 => timing_slots_written_refl _ m0)) as Hloop.
  assert (Hbody : forall l m0,
    timing_slots_written [TIMING_LOG_MEAS_R; TIMING_LOG_FOC_VOLTAGE] m0
      (snd (measure_phase_resistance_body test_current max_voltage l m0))).
  { intros [test_voltage i] m0. unfold measure_phase_resistance_body.
    destruct (_ || _); [log_leaf|].
    match goal with
    | |- context [enqueue_voltage_timings ?a ?b m0] =>
        pose proof (enqueue_voltage_timings_log
                      [TIMING_LOG_MEAS_R; TIMING_LOG_FOC_VOLTAGE] a b m0
                      ltac:(cbn; auto)) as H;
        destruct (enqueue_voltage_timings a b m0) as [[|] m1]
    end; cbn [snd] in *; [|exact H].
    apply log_timing_written; [cbn; auto|exact H]. }
  specialize (Hloop Hbody samples (zero, 0) m).
  destruct (run_control_loop _ _ _ _) as [[test_voltage i] m1].
  cbn [snd] in Hloop. destruct (negb _); exact Hloop.
Qed.

Lemma measure_phase_inductance_log (voltage_low voltage_high : float32)
    (samples : list Iph_BC_t) (m : Motor) :
  timing_slots_written [TIMING_LOG_MEAS_L; TIMING_LOG_FOC_VOLTAGE] m
    (snd (measure_phase_inductance voltage_low voltage_high samples m)).
Proof.
  unfold measure_phase_inductance.
  pose proof (run_control_loop_keeps
                (timing_slots_written
                   [TIMING_LOG_MEAS_L; TIMING_LOG_FOC_VOLTAGE])
                (measure_phase_inductance_body voltage_low voltage_high)
                (timing_slots_written_refl _)
                (timing_slots_written_trans _)
                (fun s m0 => timing_slots_written_refl _ m0)) as Hloop.
  assert (Hbody : forall l m0,
    timing_slots_written [TIMING_LOG_MEAS_L; TIMING_LOG_FOC_VOLTAGE] m0
      (snd (measure_phase_inductance_body voltage_low voltage_high l m0))).
  { intros [[Ialphas0 Ialphas1] t] m0. unfold measure_phase_inductance_body.
    destruct (Z.land t 1 =? 0);
      match goal with
      | |- context [enqueue_voltage_timings ?a ?b m0] =>
          pose proof (enqueue_voltage_timings_log
                        [TIMING_LOG_MEAS_L; TIMING_LOG_FOC_VOLTAGE] a b m0
                        ltac:(cbn; auto)) as H;
          destruct (enqueue_voltage_timings a b m0) as [[|] m1]
      end; cbn [snd] in *;
      first [apply log_timing_written; [cbn; auto|exact H] | exact H]. }
  specialize (Hloop Hbody samples (zero, zero, 0) m).
  destruct (run_control_loop _ _ _ _) as [[[Ialphas0 Ialphas1] t] m1].
  cbn [snd] in Hloop. unfold measure_phase_inductance_finish.
  destruct (negb _); [exact Hloop|].
  destruct (_ || _); exact Hloop.
Qed.

(** X21.  Who writes the timing log: [FOC_current] only the FOC_CURRENT
    slot, [FOC_voltage] and [enqueue_voltage_timings] only FOC_VOLTAGE,
    [update] only these two, the resistance measurement only MEAS_R and
    FOC_VOLTAGE, the inductance measurement only MEAS_L and FOC_VOLTAGE;
    [enqueue_modulation_timings], [setup], [do_checks] and [arm] write
    none.  The profiling counter is read anew at each write: a written slot
    holds, reduced to 16 bits, one of the readings taken during the call;
    every other slot keeps its value. *)
Theorem timing_log_writers (a b c d e : float32) (w : bool)
    (samples : list Iph_BC_t) (m : Motor) :
  timing_slots_written [TIMING_LOG_FOC_CURRENT] m
    (snd (FOC_current a b c d e m))
  /\ timing_slots_written [TIMING_LOG_FOC_VOLTAGE] m
       (snd (FOC_voltage a b c m))
  /\ timing_slots_written [TIMING_LOG_FOC_VOLTAGE] m
       (snd (enqueue_voltage_timings a b m))
  /\ timing_slots_written [TIMING_LOG_FOC_VOLTAGE; TIMING_LOG_FOC_CURRENT] m
       (snd (update a b c m))
  /\ timing_slots_written [TIMING_LOG_MEAS_R; TIMING_LOG_FOC_VOLTAGE] m
       (snd (measure_phase_resistance a b samples m))
  /\ timing_slots_written [TIMING_LOG_MEAS_L; TIMING_LOG_FOC_VOLTAGE] m
       (snd (measure_phase_inductance a b samples m))
  /\ timing_slots_written [] m (snd (enqueue_modulation_timings a b m))
  /\ timing_slots_written [] m (snd (setup m))
  /\ timing_slots_written [] m (snd (do_checks m))
  /\ timing_slots_written [] m (snd (arm w m)).
Proof.
  split; [apply FOC_current_log; cbn; auto|].
  split; [apply enqueue_voltage_timings_log; cbn; auto|].
  split; [apply enqueue_voltage_timings_log; cbn; auto|].
  split; [apply update_log|].
  split; [apply measure_phase_resistance_log|].
  split; [apply measure_phase_inductance_log|].
  split; [apply enqueue_modulation_timings_log|].
  split.
  { unfold setup. destruct gate_driver_init; cbn [negb];
      [|log_leaf].
    destruct (opamp_set_gain _ _) as [[|] actual_gain];
      log_leaf. }
  split.
  { unfold do_checks.
    destruct gate_driver_check_fault, motor_thermistor_do_checks,
      fet_thermistor_do_checks; log_leaf. }
  destruct w; log_leaf.
Qed.

(** X22.  An inductance measurement that returns true has stored a value
    that is neither below 2 µH nor above 4000 µH (binary32 comparisons: a
    NaN passes). *)
Theorem measure_phase_inductance_success_in_range
    (voltage_low voltage_high : float32) (samples : list Iph_BC_t)
    (m : Motor) :
  fst (measure_phase_inductance voltage_low voltage_high samples m) = true ->
  not_outside (lit 2 1000000) (lit 4000 1000000)
    (phase_inductance
       (config_
          (snd (measure_phase_inductance voltage_low voltage_high
                  samples m)))).
Proof.
  unfold measure_phase_inductance.
  destruct (run_control_loop _ _ _ _) as [[[Ialphas0 Ialphas1] t] m1].
  unfold measure_phase_inductance_finish.
  destruct (negb _); [cbn [fst]; discriminate|].
  destruct (_ || _) eqn:Hrange; [cbn [fst]; discriminate|].
  intros _. apply orb_false_elim in Hrange as [Hlo Hhi].
  rewrite gtb_ltb in Hhi. split; [exact Hlo|exact Hhi].
Qed.

End TimingLog.

(** ** Instances on the bench board *)

Section Instances.

Local Open Scope Z_scope.

Lemma update_success_publishes_witness :
  let env := Bench.board true true in
  let m := Bench.motor MOTOR_TYPE_HIGH_CURRENT (of_Z 1) (of_Z 1) in
  fst (update (of_Z 1) zero zero m) = true
  /\ published_cleanly m (snd (update (of_Z 1) zero zero m)).
Proof.
  cbv zeta.
  assert (Hok :
    fst (@update (Bench.board true true) (of_Z 1) zero zero
           (Bench.motor MOTOR_TYPE_HIGH_CURRENT (of_Z 1) (of_Z 1))) = true)
    by (vm_compute; reflexivity).
  split; [exact Hok|].
  exact (@update_success_publishes (Bench.board true true) (of_Z 1) zero zero
           (Bench.motor MOTOR_TYPE_HIGH_CURRENT (of_Z 1) (of_Z 1)) Hok).
Defined.

Lemma FOC_current_trip_leaves_controller_witness :
  let env := Bench.board true true in
  let m := Bench.motor MOTOR_TYPE_HIGH_CURRENT (of_Z 100) (of_Z 100) in
  let ictrl := current_control_ m in
  let ictrl' :=
    current_control_ (snd (FOC_current zero (of_Z 1) zero zero zero m)) in
  current_sense_saturated m
  || current_limit_violated (fst (measured_dq zero m))
       (snd (measured_dq zero m)) m = true
  /\ fst (FOC_current zero (of_Z 1) zero zero zero m) = false
  /\ v_current_control_integral_d ictrl' = v_current_control_integral_d ictrl
  /\ v_current_control_integral_q ictrl' = v_current_control_integral_q ictrl.
Proof.
  cbv zeta.
  assert (Htrip :
    current_sense_saturated
      (Bench.motor MOTOR_TYPE_HIGH_CURRENT (of_Z 100) (of_Z 100))
    || current_limit_violated
         (fst (@measured_dq (Bench.board true true) zero
                 (Bench.motor MOTOR_TYPE_HIGH_CURRENT (of_Z 100) (of_Z 100))))
         (snd (@measured_dq (Bench.board true true) zero
                 (Bench.motor MOTOR_TYPE_HIGH_CURRENT (of_Z 100) (of_Z 100))))
         (Bench.motor MOTOR_TYPE_HIGH_CURRENT (of_Z 100) (of_Z 100)) = true)
    by (vm_compute; reflexivity).
  split; [exact Htrip|].
  destruct (@FOC_current_trip_leaves_controller (Bench.board true true)
              zero (of_Z 1) zero zero zero
              (Bench.motor MOTOR_TYPE_HIGH_CURRENT (of_Z 100) (of_Z 100))
              Htrip)
    as (Hret & Hd & Hq & _).
  split; [exact Hret|]. split; [exact Hd|exact Hq].
Defined.

Lemma enqueue_voltage_timings_zero_bus_witness :
  let env := Bench.board true true in
  let m := Bench.on_bus zero (Bench.motor MOTOR_TYPE_GIMBAL zero zero) in
  vbus_voltage m = S754_zero false
  /\ enqueue_voltage_timings (of_Z 1) zero m
     = (false, set_error ERROR_MODULATION_IS_NAN m).
Proof.
  cbv zeta. split; [reflexivity|].
  exact (@enqueue_voltage_timings_zero_bus (Bench.board true true) (of_Z 1)
           false false
           (Bench.on_bus zero (Bench.motor MOTOR_TYPE_GIMBAL zero zero))
           eq_refl).
Defined.

Lemma max_available_torque_within_limit_witness :
  let m := Bench.motor MOTOR_TYPE_HIGH_CURRENT zero zero in
  (torque_lim (config_ m) <? zero)%f32 = false
  /\ not_outside zero (torque_lim (config_ m)) (max_available_torque m).
Proof.
  cbv zeta.
  assert (Hlim :
    (torque_lim (config_ (Bench.motor MOTOR_TYPE_HIGH_CURRENT zero zero))
     <? zero)%f32 = false) by (vm_compute; reflexivity).
  split; [exact Hlim|].
  exact (max_available_torque_within_limit
           (Bench.motor MOTOR_TYPE_HIGH_CURRENT zero zero) Hlim).
Defined.

Lemma max_available_torque_after_arm_witness :
  let env := Bench.board true true in
  let m := Bench.motor MOTOR_TYPE_ACIM zero zero in
  motor_type (config_ m) = MOTOR_TYPE_ACIM
  /\ (max_available_torque (snd (arm true m)) >? zero)%f32 = false.
Proof.
  cbv zeta. split; [reflexivity|].
  exact (@max_available_torque_after_arm (Bench.board true true) true
           (Bench.motor MOTOR_TYPE_ACIM zero zero) eq_refl).
Defined.

Lemma update_commands_within_limit_witness :
  let env := Bench.board true true in
  let m := Bench.motor MOTOR_TYPE_HIGH_CURRENT (of_Z 1) (of_Z 1) in
  let ilim := effective_current_lim_ m in
  (ilim <? - ilim)%f32 = false
  /\ exists id iq phase' pwm_phase phase_vel',
       update (of_Z 1) zero zero m
       = FOC_current id iq phase' pwm_phase phase_vel' m
       /\ not_outside (- ilim)%f32 ilim id
       /\ not_outside (- ilim)%f32 ilim iq.
Proof.
  cbv zeta.
  assert (Hord :
    (effective_current_lim_
       (Bench.motor MOTOR_TYPE_HIGH_CURRENT (of_Z 1) (of_Z 1))
     <? - effective_current_lim_
            (Bench.motor MOTOR_TYPE_HIGH_CURRENT (of_Z 1) (of_Z 1)))%f32
    = false) by (vm_compute; reflexivity).
  split; [exact Hord|].
  exact (@update_commands_within_limit (Bench.board true true) (of_Z 1) zero
           zero (Bench.motor MOTOR_TYPE_HIGH_CURRENT (of_Z 1) (of_Z 1))
           Hord).
Defined.

Lemma update_autoflux_Id_setpoint_bounded_witness :
  let env := Bench.board true true in
  let m := Bench.autoflux_motor (of_Z 1) (of_Z 1) in
  motor_type (config_ m) = MOTOR_TYPE_ACIM
  /\ acim_autoflux_enable (config_ m) = true
  /\ (effective_current_lim_ m <? acim_autoflux_min_Id (config_ m))%f32
     = false
  /\ not_outside (acim_autoflux_min_Id (config_ m))
       (effective_current_lim_ m)
       (Id_setpoint (current_control_ (snd (update (of_Z 1) zero zero m)))).
Proof.
  cbv zeta.
  assert (Hord :
    (effective_current_lim_ (Bench.autoflux_motor (of_Z 1) (of_Z 1))
     <? acim_autoflux_min_Id
          (config_ (Bench.autoflux_motor (of_Z 1) (of_Z 1))))%f32 = false)
    by (vm_compute; reflexivity).
  split; [reflexivity|]. split; [reflexivity|]. split; [exact Hord|].
  exact (@update_autoflux_Id_setpoint_bounded (Bench.board true true)
           (of_Z 1) zero zero (Bench.autoflux_motor (of_Z 1) (of_Z 1))
           eq_refl eq_refl Hord).
Defined.

Lemma measure_phase_resistance_voltage_in_range_witness :
  let env := Bench.board true true in
  let m := Bench.motor MOTOR_TYPE_HIGH_CURRENT zero zero in
  let s := {| phB := (- lit 498 100)%f32; phC := (- lit 498 100)%f32 |} in
  let samples :=
    s :: Bench.constant_samples (- lit 498 100)%f32 (Z.to_nat 23998) in
  AXIS_ERROR_MOTOR_FAILED <> 0
  /\ samples <> []
  /\ fst (measure_phase_resistance (of_Z 10) (of_Z 2) samples m) = true
  /\ exists V : float32,
       phase_resistance
         (config_
            (snd (measure_phase_resistance (of_Z 10) (of_Z 2) samples m)))
       = (V / of_Z 10)%f32
       /\ not_outside (- of_Z 2)%f32 (of_Z 2) V.
Proof.
  cbv zeta.
  assert (Hcode : @AXIS_ERROR_MOTOR_FAILED (Bench.board true true) <> 0)
    by discriminate.
  assert (Hne :
    {| phB := (- lit 498 100)%f32; phC := (- lit 498 100)%f32 |}
    :: Bench.constant_samples (- lit 498 100)%f32 (Z.to_nat 23998) <> [])
    by discriminate.
  assert (Hok :
    fst (@measure_phase_resistance (Bench.board true true) (of_Z 10) (of_Z 2)
           ({| phB := (- lit 498 100)%f32; phC := (- lit 498 100)%f32 |}
            :: Bench.constant_samples (- lit 498 100)%f32 (Z.to_nat 23998))
           (Bench.motor MOTOR_TYPE_HIGH_CURRENT zero zero)) = true)
    by (vm_compute; reflexivity).
  split; [exact Hcode|]. split; [exact Hne|]. split; [exact Hok|].
  exact (@measure_phase_resistance_voltage_in_range (Bench.board true true)
           (of_Z 10) (of_Z 2) _
           (Bench.motor MOTOR_TYPE_HIGH_CURRENT zero zero) Hcode Hne Hok).
Defined.

Lemma measure_phase_inductance_at_most_10000_periods_witness :
  let env := Bench.board true true in
  let m := Bench.motor MOTOR_TYPE_HIGH_CURRENT zero zero in
  let samples := Bench.alternating_samples (lit 625 10000) 5000 in
  let extra := Bench.constant_samples (of_Z 100) 3 in
  Z.of_nat (length samples) = 2 * num_cycles
  /\ measure_phase_inductance (- of_Z 2)%f32 (of_Z 2) (samples ++ extra) m
     = measure_phase_inductance (- of_Z 2)%f32 (of_Z 2) samples m.
Proof.
  cbv zeta.
  assert (Hlen :
    Z.of_nat (length (Bench.alternating_samples (lit 625 10000) 5000))
    = 2 * num_cycles) by (vm_compute; reflexivity).
  split; [exact Hlen|].
  exact (@measure_phase_inductance_at_most_10000_periods
           (Bench.board true true) (- of_Z 2)%f32 (of_Z 2)
           (Bench.alternating_samples (lit 625 10000) 5000)
           (Bench.constant_samples (of_Z 100) 3)
           (Bench.motor MOTOR_TYPE_HIGH_CURRENT zero zero) Hlen).
Defined.

Lemma measure_phase_resistance_at_most_num_test_cycles_witness :
  let env := Bench.board true true in
  let m := Bench.motor MOTOR_TYPE_HIGH_CURRENT zero zero in
  let s := {| phB := (- lit 498 100)%f32; phC := (- lit 498 100)%f32 |} in
  let samples :=
    s :: Bench.constant_samples (- lit 498 100)%f32 (Z.to_nat 23998) in
  let extra := Bench.constant_samples (of_Z 100) 3 in
  samples <> []
  /\ Z.of_nat (length samples) = num_test_cycles mod 2 ^ 32
  /\ measure_phase_resistance (of_Z 10) (of_Z 2) (samples ++ extra) m
     = measure_phase_resistance (of_Z 10) (of_Z 2) samples m.
Proof.
  cbv zeta.
  assert (Hne :
    {| phB := (- lit 498 100)%f32; phC := (- lit 498 100)%f32 |}
    :: Bench.constant_samples (- lit 498 100)%f32 (Z.to_nat 23998) <> [])
    by discriminate.
  assert (Hlen :
    Z.of_nat
      (length
         ({| phB := (- lit 498 100)%f32; phC := (- lit 498 100)%f32 |}
          :: Bench.constant_samples (- lit 498 100)%f32 (Z.to_nat 23998)))
    = @num_test_cycles (Bench.board true true) mod 2 ^ 32)
    by (vm_compute; reflexivity).
  split; [exact Hne|]. split; [exact Hlen|].
  exact (@measure_phase_resistance_at_most_num_test_cycles
           (Bench.board true true) (of_Z 10) (of_Z 2) _
           (Bench.constant_samples (of_Z 100) 3)
           (Bench.motor MOTOR_TYPE_HIGH_CURRENT zero zero) Hne Hlen).
Defined.

Lemma run_calibration_refreshes_gains_witness :
  let env := Bench.board true true in
  let m := Bench.motor MOTOR_TYPE_HIGH_CURRENT zero zero in
  let samples_R :=
    Bench.constant_samples (- lit 498 100)%f32 (Z.to_nat 23999) in
  let samples_L := Bench.alternating_samples (lit 625 10000) 5000 in
  let m' := snd (run_calibration samples_R samples_L m) in
  fst (run_calibration samples_R samples_L m) = true
  /\ p_gain (current_control_ m')
     = (current_control_bandwidth (config_ m')
        * phase_inductance (config_ m'))%f32.
Proof.
  cbv zeta.
  assert (Hok :
    fst (@run_calibration (Bench.board true true)
           (Bench.constant_samples (- lit 498 100)%f32 (Z.to_nat 23999))
           (Bench.alternating_samples (lit 625 10000) 5000)
           (Bench.motor MOTOR_TYPE_HIGH_CURRENT zero zero)) = true)
    by (vm_compute; reflexivity).
  split; [exact Hok|].
  exact (proj1 (@run_calibration_refreshes_gains (Bench.board true true)
                  (Bench.constant_samples (- lit 498 100)%f32
                     (Z.to_nat 23999))
                  (Bench.alternating_samples (lit 625 10000) 5000)
                  (Bench.motor MOTOR_TYPE_HIGH_CURRENT zero zero) Hok)).
Defined.

Lemma phase_current_from_adcval_odd_witness :
  let m := Bench.motor MOTOR_TYPE_HIGH_CURRENT zero zero in
  0 < 100 <= 2047
  /\ phase_current_from_adcval (2048 - 100) m
     = (- phase_current_from_adcval (2048 + 100) m)%f32.
Proof.
  cbv zeta.
  assert (Hk : 0 < 100 <= 2047) by lia.
  split; [exact Hk|].
  exact (phase_current_from_adcval_odd 100
           (Bench.motor MOTOR_TYPE_HIGH_CURRENT zero zero) Hk).
Defined.

Lemma apply_config_after_calibration_witness :
  let env := Bench.board true true in
  let m := Bench.motor MOTOR_TYPE_GIMBAL zero zero in
  let m1 := snd (run_calibration [] [] m) in
  fst (run_calibration [] [] m) = true
  /\ is_calibrated_ m1 = true
  /\ is_calibrated_ (snd (apply_config m1)) = pre_calibrated (config_ m).
Proof.
  cbv zeta. split; [reflexivity|].
  destruct (@apply_config_after_calibration (Bench.board true true) [] []
              (Bench.motor MOTOR_TYPE_GIMBAL zero zero) eq_refl)
    as (Hcal & Hpre & _).
  split; [exact Hcal|exact Hpre].
Defined.

Lemma measure_phase_inductance_success_in_range_witness :
  let env := Bench.board true true in
  let m := Bench.motor MOTOR_TYPE_HIGH_CURRENT zero zero in
  let samples := Bench.alternating_samples (lit 625 10000) 5000 in
  fst (measure_phase_inductance (- of_Z 2)%f32 (of_Z 2) samples m) = true
  /\ not_outside (lit 2 1000000) (lit 4000 1000000)
       (phase_inductance
          (config_
             (snd (measure_phase_inductance (- of_Z 2)%f32 (of_Z 2)
                     samples m)))).
Proof.
  cbv zeta.
  assert (Hok :
    fst (@measure_phase_inductance (Bench.board true true)
           (- of_Z 2)%f32 (of_Z 2)
           (Bench.alternating_samples (lit 625 10000) 5000)
           (Bench.motor MOTOR_TYPE_HIGH_CURRENT zero zero)) = true)
    by (vm_compute; reflexivity).
  split; [exact Hok|].
  exact (@measure_phase_inductance_success_in_range (Bench.board true true)
           (- of_Z 2)%f32 (of_Z 2)
           (Bench.alternating_samples (lit 625 10000) 5000)
           (Bench.motor MOTOR_TYPE_HIGH_CURRENT zero zero) Hok).
Defined.

End Instances.
